(** * MA-VCG: topology-aware Vickrey auctions between IoT devices and edge nodes

    A shallow embedding of [agents.py], [auction.py] and [environment.py],
    followed by the properties of the allocation mechanism.

    Conventions of the embedding.
    - Python floats are idealised as exact rationals ([Q]); float comparison
      is comparison of rationals, [x == y] is [Qeq].
    - A Python computation that may raise is a value of [py A]: either
      [Ret a] or [Raise e]; [x <- c ;; k] sequences two of them.
    - Provider objects live in the list [self.nodes]; a reference to a
      provider (the winner of an auction) is its position in that list, so
      that [winner.allocate(req)] is an update of the shared store.
    - [random] draws are inputs of the model: a round receives the tasks
      that [generate_task] would have drawn. *)

From Stdlib Require Import ZArith QArith Lqa Lia List String Bool Permutation.
From stdpp Require Import base list.
Import ListNotations.
Local Open Scope Q_scope.

(* ------------------------------------------------------------------------- *)
(** ** Floats                                                                 *)
(* ------------------------------------------------------------------------- *)

Module Float.

(** [x < y] on floats. *)
Definition ltb (x y : Q) : bool := negb (Qle_bool y x).

(** [x == y] on floats. *)
Definition eqb (x y : Q) : bool := Qeq_bool x y.

End Float.

(* ------------------------------------------------------------------------- *)
(** ** Python computations that may raise                                     *)
(* ------------------------------------------------------------------------- *)

Inductive exn : Set :=
| ValueError          (* min() of an empty sequence, list.remove(x) without x *)
| ZeroDivisionError   (* float division by zero *)
| KeyError            (* missing dictionary key *)
| StopIteration       (* next() on an exhausted generator *)
| NodeNotFound        (* networkx: the source is not a node of the graph *)
| NetworkXNoPath      (* networkx: the target cannot be reached *)
| IndexError.         (* list index out of range *)

Inductive py (A : Type) : Type :=
| Ret (a : A)
| Raise (e : exn).
Arguments Ret {A} a.
Arguments Raise {A} e.

Definition bind {A B} (c : py A) (k : A -> py B) : py B :=
  match c with
  | Ret a => k a
  | Raise e => Raise e
  end.

Notation "x <- c ;; k" := (bind c (fun x => k))
  (at level 20, c at level 99, k at level 200).
Notation "' pat <- c ;; k" := (bind c (fun x => match x with pat => k end))
  (at level 20, pat pattern, c at level 99, k at level 200).

(** [a / b] on floats. *)
Definition py_div (a b : Q) : py Q :=
  if Float.eqb b 0 then Raise ZeroDivisionError else Ret (a / b).

(** [min(l)]: the first smallest element; [ValueError] on an empty sequence. *)
Definition py_min (l : list Q) : py Q :=
  match l with
  | [] => Raise ValueError
  | x :: l' => Ret (fold_left (fun m y => if Float.ltb y m then y else m) l' x)
  end.

(** A [for] loop whose body may raise, threading the loop state. *)
Fixpoint for_each {A S} (body : S -> A -> py S) (l : list A) (s : S) : py S :=
  match l with
  | [] => Ret s
  | x :: l' => s' <- body s x ;; for_each body l' s'
  end.

(** A list comprehension whose element expression may raise. *)
Fixpoint map_py {A B} (f : A -> py B) (l : list A) : py (list B) :=
  match l with
  | [] => Ret []
  | x :: l' => y <- f x ;; ys <- map_py f l' ;; Ret (y :: ys)
  end.

(** [l[i]] for [i >= 0]: [IndexError] beyond the end of the list. *)
Definition py_index {A} (l : list A) (i : nat) : py A :=
  match l !! i with
  | Some x => Ret x
  | None => Raise IndexError
  end.

(* ------------------------------------------------------------------------- *)
(** ** The topology: [networkx.Graph] with a ['weight'] on every edge          *)
(* ------------------------------------------------------------------------- *)

(** Modelled from the spec: [networkx] is a dependency of the repository, not
    part of it.  The topology is "an undirected weighted graph ... exposes
    edge lookup, edge weight, and a shortest-weighted-path query between any
    two identities (fails if disconnected)".  Every edge carries a weight, as
    every [add_edge] of [_init_topology] gives one. *)
Module nx.

Record Graph : Type := {
  nodes : list Z;               (* G.nodes *)
  edges : list (Z * Z * Q)      (* G.edges(data='weight') *)
}.

Definition empty : Graph := {| nodes := []; edges := [] |}.

(** Does the entry [e] join [u] and [v] (in either direction)? *)
Definition joins (u v : Z) (e : Z * Z * Q) : bool :=
  let '(a, b, _) := e in
  ((a =? u)%Z && (b =? v)%Z) || ((a =? v)%Z && (b =? u)%Z).

(** The weight of the edge between [u] and [v], if there is one. *)
Definition find_edge (g : Graph) (u v : Z) : option Q :=
  match List.find (joins u v) (edges g) with
  | Some (_, _, w) => Some w
  | None => None
  end.

(** [G.has_edge(u, v)] *)
Definition has_edge (g : Graph) (u v : Z) : bool :=
  match find_edge g u v with Some _ => true | None => false end.

(** [G[u][v]['weight']] *)
Definition weight (g : Graph) (u v : Z) : py Q :=
  match find_edge g u v with Some w => Ret w | None => Raise KeyError end.

(** Every node the graph knows, once each: the added ones and the end points
    of edges. *)
Definition node_list (g : Graph) : list Z :=
  nodup Z.eq_dec (nodes g ++ flat_map (fun '(a, b, _) => [a; b]) (edges g)).

(** [n in G] *)
Definition has_node (g : Graph) (n : Z) : bool :=
  existsb (Z.eqb n) (node_list g).

(** [G.add_node(n)] *)
Definition add_node (g : Graph) (n : Z) : Graph :=
  if has_node g n then g else {| nodes := nodes g ++ [n]; edges := edges g |}.

(** [G.add_edge(u, v, weight=w)]: a second edge between the same nodes
    replaces the weight of the first. *)
Definition add_edge (g : Graph) (u v : Z) (w : Q) : Graph :=
  {| nodes := nodes g;
     edges := List.filter (fun e => negb (joins u v e)) (edges g) ++ [(u, v, w)] |}.

(** The neighbours of [u], each with the weight of the edge to it. *)
Definition adj (g : Graph) (u : Z) : list (Z * Q) :=
  flat_map (fun v => match find_edge g u v with
                     | Some w => [(v, w)]
                     | None => []
                     end) (node_list g).

Definition opt_min (a b : option Q) : option Q :=
  match a, b with
  | Some x, Some y => Some (if Float.ltb y x then y else x)
  | Some x, None => Some x
  | None, _ => b
  end.

(** The least weight of a walk from [u] to [v] of at most [k] edges. *)
Fixpoint walk_dist (g : Graph) (k : nat) (u v : Z) : option Q :=
  let here := if (u =? v)%Z then Some 0 else None in
  match k with
  | O => here
  | S k' =>
      fold_right opt_min here
        (List.map (fun xw => option_map (Qplus (snd xw)) (walk_dist g k' (fst xw) v))
                  (adj g u))
  end.

(** [nx.shortest_path_length(G, source, target, weight='weight')] on a
    graph with non-negative weights: [NodeNotFound] if the source is not
    in the graph, [NetworkXNoPath] if the target cannot be reached, else
    the least weight of a path (a shortest path visits no node twice, so
    it has fewer edges than the graph has nodes). *)
Definition shortest_path_length (g : Graph) (source target : Z) : py Q :=
  if negb (has_node g source) then Raise NodeNotFound
  else match walk_dist g (length (node_list g)) source target with
       | Some d => Ret d
       | None => Raise NetworkXNoPath
       end.

End nx.

(* ------------------------------------------------------------------------- *)
(** ** The random draws: [random]                                             *)
(* ------------------------------------------------------------------------- *)

(** Modelled from the spec: [random] is the standard library's, a dependency
    of the repository, not part of it.  The spec names its draws "U(0.1,0.5)"
    and the like, and "priority ~ discrete uniform {1..5}".  Every function
    takes the outcome of the generator as an argument: the value [u] of
    [random()], which lies in [0, 1), the integer behind a bounded integer
    draw, the positions a sample picks. *)
Module Random.

(** [random.uniform(a, b)]: [a + (b - a) * random()]. *)
Definition uniform (a b u : Q) : Q := a + (b - a) * u.

(** [random.randint(a, b)]: an integer of [a..b]; [ValueError] on an empty
    range. *)
Definition randint (a b : Z) (r : Z) : py Z :=
  if (b <? a)%Z then Raise ValueError else Ret (a + r mod (b - a + 1))%Z.

(** [random.choice(seq)]: [IndexError] on an empty sequence. *)
Definition choice {A} (seq : list A) (r : nat) : py A :=
  py_index seq (r mod length seq).

(** [random.sample(population, k)]: the elements at the [k] distinct
    positions [picks]; [ValueError] if [k] is negative or larger than the
    population. *)
Definition sample {A} (population : list A) (k : Z) (picks : list nat)
    : py (list A) :=
  if (k <? 0)%Z || (Z.of_nat (length population) <? k)%Z then Raise ValueError
  else Ret (omap (fun i => population !! i) picks).

End Random.

(* ------------------------------------------------------------------------- *)
(** ** data.py                                                                *)
(* ------------------------------------------------------------------------- *)

(** Modelled from the spec: [data.py] is not among the sources.  "Task: {id:
    opaque string, cpu_demand, memory_demand, deadline, data_size: positive
    real, priority: integer in [1,5]}", an immutable value object; the field
    names are those [agents.py] reads and writes. *)
Record IoTTask : Type := {
  task_id : string;
  cpu : Q;
  memory : Q;
  deadline : Q;
  data_size : Q;
  priority : Z
}.

(** Modelled from the spec: "ResourceRequest (bid): {consumer_id, task:
    reference to Task, bid_value: real}", built positionally in
    [build_requests] and read as [req.device_id], [req.task],
    [req.bid_value]. *)
Record ResourceRequest : Type := {
  device_id : Z;
  task : IoTTask;
  bid_value : Q
}.

(** Modelled from the spec: equality of two tasks as value objects, field by
    field ([t1 == t2] in [list.remove]). *)
Definition task_eqb (t1 t2 : IoTTask) : bool :=
  String.eqb (task_id t1) (task_id t2)
  && Float.eqb (cpu t1) (cpu t2)
  && Float.eqb (memory t1) (memory t2)
  && Float.eqb (deadline t1) (deadline t2)
  && Float.eqb (data_size t1) (data_size t2)
  && (priority t1 =? priority t2)%Z.

(** [l.remove(t)]: drops the first element equal to [t]; [ValueError] if
    there is none. *)
Fixpoint list_remove (t : IoTTask) (l : list IoTTask) : py (list IoTTask) :=
  match l with
  | [] => Raise ValueError
  | x :: l' => if task_eqb x t then Ret l'
               else (r <- list_remove t l' ;; Ret (x :: r))
  end.

(* ------------------------------------------------------------------------- *)
(** ** agents.py                                                              *)
(* ------------------------------------------------------------------------- *)

(** The dictionaries [{"cpu": ..., "memory": ...}] of an edge node. *)
Record Resources : Type := {
  r_cpu : Q;       (* d["cpu"] *)
  r_memory : Q     (* d["memory"] *)
}.

(** *** class EdgeNode: a resource provider *)
Module EdgeNode.

Record t : Type := {
  id : Z;
  capacity : Resources;
  available : Resources;
  base_price : Resources;
  energy_price : Q;
  power_per_cpu : Q
}.

(** [__init__], the two [random.uniform] draws being arguments. *)
Definition init (agent_id : Z) (cap_cpu cap_memory : Q) : t :=
  let capacity := {| r_cpu := cap_cpu; r_memory := cap_memory |} in
  {| id := agent_id;
     capacity := capacity;
     available := capacity;
     base_price := {| r_cpu := 0.2; r_memory := 0.05 |};
     energy_price := 0.01;
     power_per_cpu := 2.0 |}.

(** [cost_for_request]: [Ret None] is the refusal, [Ret (Some c)] a bid. *)
Definition cost_for_request (self : t) (req : ResourceRequest)
    (network : nx.Graph) : py (option Q) :=
  let cpu := cpu (task req) in
  let mem := memory (task req) in
  if Float.ltb (r_cpu (available self)) cpu
     || Float.ltb (r_memory (available self)) mem
  then Ret None
  else
    (* base cost *)
    let cost := cpu * r_cpu (base_price self) + mem * r_memory (base_price self) in
    (* load multiplier *)
    q <- py_div (r_cpu (available self)) (r_cpu (capacity self)) ;;
    let load := 1 - q in
    let cost := cost * (1 + load ^ 2) in
    (* energy *)
    let cost := cost + cpu * power_per_cpu self * energy_price self in
    (* communication delay cost *)
    if nx.has_edge network (id self) (device_id req) then
      delay <- nx.weight network (id self) (device_id req) ;;
      Ret (Some (cost + delay * 0.1))
    else
      match nx.shortest_path_length network (id self) (device_id req) with
      | Ret delay => Ret (Some (cost + delay * 0.1))
      | Raise NetworkXNoPath => Ret None
      | Raise e => Raise e
      end.

(** [allocate]: book-keeping, no check. *)
Definition allocate (self : t) (req : ResourceRequest) : t :=
  {| id := id self;
     capacity := capacity self;
     available :=
       {| r_cpu := r_cpu (available self) - cpu (task req);
          r_memory := r_memory (available self) - memory (task req) |};
     base_price := base_price self;
     energy_price := energy_price self;
     power_per_cpu := power_per_cpu self |}.

End EdgeNode.

(** *** class IoTDevice: a resource consumer *)
Module IoTDevice.

Record t : Type := {
  id : Z;
  type : string;                     (* sensor / camera / etc. *)
  energy_budget : Q;
  pending_tasks : list IoTTask
}.

(** [__init__] *)
Definition init (agent_id : Z) (dev_type : string) : t :=
  {| id := agent_id; type := dev_type; energy_budget := 100.0;
     pending_tasks := [] |}.

Definition set_pending (self : t) (l : list IoTTask) : t :=
  {| id := id self; type := type self; energy_budget := energy_budget self;
     pending_tasks := l |}.

(** The task [generate_task] builds, by device type: [u_cpu], [u_memory],
    [u_deadline] and [u_size] are the values of [random()] behind the four
    [random.uniform], [r_priority] the integer behind [random.randint(1, 5)],
    [task_id] the [str(uuid.uuid4())[:8]]. *)
Definition draw_task (self : t) (task_id : string)
    (u_cpu u_memory u_deadline u_size : Q) (r_priority : Z) : py IoTTask :=
  let '(cpu, memory, deadline, data_size) :=
    if String.eqb (type self) "sensor" then
      (Random.uniform 0.1 0.5 u_cpu,
       Random.uniform 0.1 1.0 u_memory,
       Random.uniform 1.0 5.0 u_deadline,
       Random.uniform 1.0 10.0 u_size)
    else if String.eqb (type self) "camera" then
      (Random.uniform 2.0 8.0 u_cpu,
       Random.uniform 4.0 16.0 u_memory,
       Random.uniform 0.5 2.0 u_deadline,
       Random.uniform 10.0 100.0 u_size)
    else                                   (* generic *)
      (Random.uniform 0.5 2.0 u_cpu,
       Random.uniform 1.0 4.0 u_memory,
       Random.uniform 1.0 10.0 u_deadline,
       Random.uniform 1.0 20.0 u_size) in
  priority <- Random.randint 1 5 r_priority ;;
  Ret {| task_id := task_id; cpu := cpu; memory := memory;
         deadline := deadline; data_size := data_size; priority := priority |}.

(** [generate_task]: [drawn] is the task built from the random draws; it
    is appended to the queue and returned. *)
Definition generate_task (self : t) (drawn : IoTTask) : t * IoTTask :=
  (set_pending self (pending_tasks self ++ [drawn]), drawn).

Section Utility.

(** [math.exp], kept abstract. *)
Variable exp : Q -> Q.

(** [utility_for_task] *)
Definition utility_for_task (self : t) (task : IoTTask)
    (expected_completion energy_cost : Q) : py Q :=
  q <- py_div (- expected_completion) (deadline task) ;;
  let time_penalty := exp q in
  let base := inject_Z (priority task) * (cpu task + memory task) in
  Ret (base * time_penalty - energy_cost).

(** The generator under [min] in [build_requests]: the weights of the
    edges between this device and the providers it has an edge to. *)
Definition direct_latencies (self : t) (network : nx.Graph)
    (providers : list EdgeNode.t) : py (list Q) :=
  map_py (fun p => nx.weight network (id self) (EdgeNode.id p))
         (List.filter (fun p => nx.has_edge network (id self) (EdgeNode.id p))
                      providers).

(** [build_requests] *)
Definition build_requests (self : t) (network : nx.Graph)
    (providers : list EdgeNode.t) : py (list ResourceRequest) :=
  for_each
    (fun requests task =>
       latencies <- direct_latencies self network providers ;;
       best_latency <- py_min latencies ;;
       let expected_completion := best_latency + cpu task / 10 in
       let energy_cost := best_latency * 0.1 in
       utility <- utility_for_task self task expected_completion energy_cost ;;
       Ret (requests ++ [{| device_id := id self; task := task;
                            bid_value := utility |}]))
    (pending_tasks self) [].

End Utility.

End IoTDevice.

(* ------------------------------------------------------------------------- *)
(** ** auction.py                                                             *)
(* ------------------------------------------------------------------------- *)

(** A provider is named by its position in the list of providers. *)
Definition Bid : Type := nat * Q.
Definition Allocation : Type := ResourceRequest * nat * Q.
Definition Rejection : Type := ResourceRequest * string.

Module Auctioneer.

(** [bids.sort(key=lambda x: x[1])]: ascending by cost and stable. *)
Fixpoint insert (b : Bid) (l : list Bid) : list Bid :=
  match l with
  | [] => [b]
  | b' :: l' => if Float.ltb (snd b') (snd b) then b' :: insert b l'
                else b :: b' :: l'
  end.

Definition sort_by_cost (bids : list Bid) : list Bid :=
  fold_right insert [] bids.

(** [enumerate(providers)] *)
Definition enumerate {A} (l : list A) : list (nat * A) :=
  combine (seq 0 (length l)) l.

(** The inner loop of [run]: the bids of the providers that do not refuse. *)
Definition collect_bids (req : ResourceRequest) (providers : list EdgeNode.t)
    (network : nx.Graph) : py (list Bid) :=
  for_each
    (fun bids ip =>
       cost <- EdgeNode.cost_for_request (snd ip) req network ;;
       match cost with
       | Some c => Ret (bids ++ [(fst ip, c)])
       | None => Ret bids
       end)
    (enumerate providers) [].

(** The body of [for req in requests] in [run]. *)
Definition run_body (providers : list EdgeNode.t) (network : nx.Graph)
    (out : list Allocation * list Rejection) (req : ResourceRequest)
    : py (list Allocation * list Rejection) :=
  let '(allocations, rejections) := out in
  bids <- collect_bids req providers network ;;
  if (length bids <? 1)%nat then
    Ret (allocations, rejections ++ [(req, "no provider"%string)])
  else
    match sort_by_cost bids with              (* ascending (cost) *)
    | (winner, win_cost) :: rest =>
        let pay_price := match rest with      (* 2-nd price *)
                         | (_, c) :: _ => c
                         | [] => win_cost
                         end in
        Ret (allocations ++ [(req, winner, pay_price)], rejections)
    | [] => Raise IndexError
    end.

(** [run]: returns [(allocations, rejections)]. *)
Definition run (requests : list ResourceRequest) (providers : list EdgeNode.t)
    (network : nx.Graph) : py (list Allocation * list Rejection) :=
  for_each (run_body providers network) requests ([], []).

End Auctioneer.

(* ------------------------------------------------------------------------- *)
(** ** environment.py                                                         *)
(* ------------------------------------------------------------------------- *)

(** [Dict[int, int]], in insertion order. *)
Module Dict.

Definition t : Type := list (Z * Z).

(** [d[k]] *)
Fixpoint get (k : Z) (d : t) : py Z :=
  match d with
  | [] => Raise KeyError
  | (k', v) :: d' => if (k' =? k)%Z then Ret v else get k d'
  end.

(** [d[k] = v] *)
Fixpoint set (k v : Z) (d : t) : t :=
  match d with
  | [] => [(k, v)]
  | (k', v') :: d' => if (k' =? k)%Z then (k, v) :: d' else (k', v') :: set k v d'
  end.

(** [d.values()] *)
Definition values (d : t) : list Z := List.map snd d.

End Dict.

(** [sum(l)] on floats and on integers. *)
Definition Qsum (l : list Q) : Q := fold_left Qplus l 0.
Definition Zsum (l : list Z) : Z := fold_left Z.add l 0%Z.

Module EdgeComputingSystem.

Record t : Type := {
  network : nx.Graph;
  nodes : list EdgeNode.t;
  devices : list IoTDevice.t
}.

(** The random draws of the constructor, named by the place that makes
    them. *)
Record seed : Type := {
  cap_cpu : nat -> Q;            (* node [i]: [random()] for capacity["cpu"] *)
  cap_memory : nat -> Q;         (* node [i]: [random()] for capacity["memory"] *)
  dev_type : nat -> nat;         (* device [i]: the integer behind [choice] *)
  coin : nat -> nat -> Q;        (* nodes [i < j]: [random.random()] *)
  link_weight : nat -> nat -> Q; (* nodes [i < j]: [random()] for the latency *)
  degree : nat -> Z;             (* device [i]: the integer behind [randint] *)
  picks : nat -> list nat;       (* device [i]: the positions [sample] picks *)
  latency : nat -> nat -> Q      (* device [i], its [k]-th link: [random()] *)
}.

(** [_init_topology], the vertices: one per agent (the ['type'] attribute is
    read by the plot only). *)
Definition add_vertices (nodes : list EdgeNode.t) (devices : list IoTDevice.t)
    (g : nx.Graph) : nx.Graph :=
  fold_left nx.add_node
            (List.map EdgeNode.id nodes ++ List.map IoTDevice.id devices) g.

(** [_init_topology], the node-to-node links. *)
Definition link_nodes (s : seed) (nodes : list EdgeNode.t) (g : nx.Graph)
    : py nx.Graph :=
  for_each
    (fun g i =>
       for_each
         (fun g j =>
            if Float.ltb (coin s i j) 0.4 then         (* probability 40% *)
              let w := Random.uniform 1.0 5.0 (link_weight s i j) in
              ni <- py_index nodes i ;;
              nj <- py_index nodes j ;;
              Ret (nx.add_edge g (EdgeNode.id ni) (EdgeNode.id nj) w)
            else Ret g)
         (seq (S i) (length nodes - S i)) g)
    (seq 0 (length nodes)) g.

(** [_init_topology], the device-to-node links. *)
Definition link_devices (s : seed) (nodes : list EdgeNode.t)
    (devices : list IoTDevice.t) (g : nx.Graph) : py nx.Graph :=
  for_each
    (fun g idev =>
       k <- Random.randint 1 (Z.min 3 (Z.of_nat (length nodes)))
                           (degree s (fst idev)) ;;
       connected <- Random.sample nodes k (picks s (fst idev)) ;;
       Ret (fold_left
              (fun g jn =>
                 let w := Random.uniform 0.5 2.0 (latency s (fst idev) (fst jn)) in
                 nx.add_edge g (IoTDevice.id (snd idev)) (EdgeNode.id (snd jn)) w)
              (Auctioneer.enumerate connected) g))
    (Auctioneer.enumerate devices) g.

(** [_init_topology] *)
Definition _init_topology (s : seed) (nodes : list EdgeNode.t)
    (devices : list IoTDevice.t) (g : nx.Graph) : py nx.Graph :=
  let g := add_vertices nodes devices g in
  g <- link_nodes s nodes g ;;
  link_devices s nodes devices g.

(** [_color_for_device]: a [match] without a default returns [None]. *)
Definition _color_for_device (device : IoTDevice.t) : option string :=
  if String.eqb (IoTDevice.type device) "sensor" then Some "bisque"%string
  else if String.eqb (IoTDevice.type device) "camera" then Some "pink"%string
  else if String.eqb (IoTDevice.type device) "generic" then Some "silver"%string
  else None.

(** [__init__], up to the plot that [_visualize] saves. *)
Definition init (s : seed) (n_nodes n_devices : nat) : py t :=
  let nodes :=
    List.map (fun i => EdgeNode.init (Z.of_nat i)
                         (Random.uniform 20.0 40.0 (cap_cpu s i))
                         (Random.uniform 32.0 64.0 (cap_memory s i)))
             (seq 0 n_nodes) in
  devices <- map_py (fun i =>
                       ty <- Random.choice ["sensor"; "camera"; "generic"]%string
                                           (dev_type s i) ;;
                       Ret (IoTDevice.init (Z.of_nat (n_nodes + i)) ty))
                    (seq 0 n_devices) ;;
  network <- _init_topology s nodes devices nx.empty ;;
  Ret {| network := network; nodes := nodes; devices := devices |}.

(** [jain_index] *)
Definition jain_index (values : list Q) : py Q :=
  let n := length values in
  if (n =? 0)%nat then Ret 1.0
  else
    let s := Qsum values in
    let sq := Qsum (List.map (fun v => v ^ 2) values) in
    if Float.eqb sq 0 then Ret 1.0
    else py_div (s ^ 2) (inject_Z (Z.of_nat n) * sq).

(** What the application loop of [run] carries from one allocation to the
    next: the providers, the devices, [welfare], [per_device_allocated]. *)
Record applied : Type := {
  a_nodes : list EdgeNode.t;
  a_devices : list IoTDevice.t;
  welfare : Q;
  per_device_allocated : Dict.t
}.

(** The body of [for req, winner, price in allocations]. *)
Definition apply_allocation (st : applied) (a : Allocation) : py applied :=
  let '(req, winner, price) := a in
  (* winner side *)
  let nodes1 := alter (fun p => EdgeNode.allocate p req) winner (a_nodes st) in
  (* consumer side *)
  count <- Dict.get (device_id req) (per_device_allocated st) ;;
  let per_device1 := Dict.set (device_id req) (count + 1)%Z (per_device_allocated st) in
  let welfare1 := welfare st + (bid_value req - price) in
  (* remove task from device queue *)
  match list_find (fun d => IoTDevice.id d = device_id req) (a_devices st) with
  | None => Raise StopIteration
  | Some (i, dev) =>
      pending1 <- list_remove (task req) (IoTDevice.pending_tasks dev) ;;
      Ret {| a_nodes := nodes1;
             a_devices := <[i := IoTDevice.set_pending dev pending1]> (a_devices st);
             welfare := welfare1;
             per_device_allocated := per_device1 |}
  end.

(** The metrics of one round. *)
Record metrics : Type := {
  social_welfare : Q;
  allocation_eff : Q;
  fairness : Q
}.

Section Run.

Variable exp : Q -> Q.

(** Step 1 of a round: every device generates one task ([draw i] for the
    device at position [i]) and contributes the requests of all its
    pending tasks. *)
Definition collect_requests (network : nx.Graph) (nodes : list EdgeNode.t)
    (devices : list IoTDevice.t) (draw : nat -> IoTTask)
    : py (list IoTDevice.t * list ResourceRequest) :=
  for_each
    (fun st idev =>
       let '(devs, all_requests) := st in
       let dev := fst (IoTDevice.generate_task (snd idev) (draw (fst idev))) in
       reqs <- IoTDevice.build_requests exp dev network nodes ;;
       Ret (devs ++ [dev], all_requests ++ reqs))
    (Auctioneer.enumerate devices) ([], []).

(** One iteration of [for _ in range(n_rounds)]. *)
Definition round (sys : t) (draw : nat -> IoTTask) : py (t * metrics) :=
  (* 1. devices create tasks & requests *)
  '(devices1, all_requests) <-
     collect_requests (network sys) (nodes sys) (devices sys) draw ;;
  (* 2. auctioneer allocates *)
  '(allocations, _) <- Auctioneer.run all_requests (nodes sys) (network sys) ;;
  (* 3. apply allocations + compute welfare *)
  let per_device0 :=
    fold_left (fun d dev => Dict.set (IoTDevice.id dev) 0%Z d) devices1 [] in
  st <- for_each apply_allocation allocations
          {| a_nodes := nodes sys; a_devices := devices1;
             welfare := 0.0; per_device_allocated := per_device0 |} ;;
  (* 4. metrics *)
  counts <- map_py (fun d => c <- Dict.get (IoTDevice.id d) (per_device_allocated st) ;;
                             Ret (Z.of_nat (length (IoTDevice.pending_tasks d)) + c)%Z)
                   (a_devices st) ;;
  let total_tasks := Zsum counts in
  alloc_eff <- (if (total_tasks =? 0)%Z then Ret 1.0
                else py_div (inject_Z (Zsum (Dict.values (per_device_allocated st))))
                            (inject_Z total_tasks)) ;;
  fairness <- jain_index (List.map inject_Z (Dict.values (per_device_allocated st))) ;;
  Ret ({| network := network sys; nodes := a_nodes st; devices := a_devices st |},
       {| social_welfare := welfare st; allocation_eff := alloc_eff;
          fairness := fairness |}).

(** [run], up to the lists of per-round metrics (their means are taken
    by [numpy]); [draws r i] is the task drawn in round [r] for the
    device at position [i]. *)
Fixpoint run_from (r : nat) (n_rounds : nat) (sys : t)
    (draws : nat -> nat -> IoTTask) : py (t * list metrics) :=
  match n_rounds with
  | O => Ret (sys, [])
  | S n =>
      '(sys1, m) <- round sys (draws r) ;;
      '(sys2, ms) <- run_from (S r) n sys1 draws ;;
      Ret (sys2, m :: ms)
  end.

Definition run (n_rounds : nat) (sys : t) (draws : nat -> nat -> IoTTask)
    : py (t * list metrics) :=
  run_from 0 n_rounds sys draws.

End Run.

(** [float(np.mean(l))], with exact arithmetic; [None] stands for [nan],
    the mean of an empty list. *)
Definition np_mean (l : list Q) : option Q :=
  if (length l =? 0)%nat then None
  else Some (Qsum l / inject_Z (Z.of_nat (length l))).

(** The dictionary [run] returns. *)
Record results : Type := {
  avg_welfare : option Q;
  avg_efficiency : option Q;
  avg_fairness : option Q
}.

(** The means [run] takes of the metrics of its rounds. *)
Definition summary (ms : list metrics) : results :=
  {| avg_welfare := np_mean (List.map social_welfare ms);
     avg_efficiency := np_mean (List.map allocation_eff ms);
     avg_fairness := np_mean (List.map fairness ms) |}.

End EdgeComputingSystem.

(* ------------------------------------------------------------------------- *)
(** ** main.py                                                                *)
(* ------------------------------------------------------------------------- *)

(** [main], up to the seeding of the generators and the printing of the
    averages: a system of 10 nodes and 20 devices, run for 50 rounds. *)
Definition main (exp : Q -> Q) (s : EdgeComputingSystem.seed)
    (draws : nat -> nat -> IoTTask)
    : py (EdgeComputingSystem.t * list EdgeComputingSystem.metrics) :=
  system <- EdgeComputingSystem.init s 10 20 ;;
  EdgeComputingSystem.run exp 50 system draws.

(* ------------------------------------------------------------------------- *)
(** ** Two small systems                                                      *)
(* ------------------------------------------------------------------------- *)

Module Scenario.

(** Three providers (0, 1, 2) and three devices (3, 4, 5): device 3 has an
    edge to providers 0 and 1, device 4 to provider 2, device 5 to none. *)
Definition topology : nx.Graph :=
  let g := fold_left nx.add_node [0; 1; 2; 3; 4; 5]%Z nx.empty in
  let g := nx.add_edge g 0 1 1.0 in
  let g := nx.add_edge g 1 2 2.0 in
  let g := nx.add_edge g 3 0 1.0 in
  let g := nx.add_edge g 3 1 0.5 in
  nx.add_edge g 4 2 1.0.

Definition providers : list EdgeNode.t :=
  [EdgeNode.init 0 20 32; EdgeNode.init 1 20 32; EdgeNode.init 2 20 32].

Definition small_task : IoTTask :=
  {| task_id := "5f1c2a90"; cpu := 2; memory := 4; deadline := 2;
     data_size := 10; priority := 3 |}.

Definition device3 : IoTDevice.t :=
  IoTDevice.set_pending (IoTDevice.init 3 "generic") [small_task].

Definition device5 : IoTDevice.t :=
  IoTDevice.set_pending (IoTDevice.init 5 "generic") [small_task].

Definition request3 : ResourceRequest :=
  {| device_id := 3; task := small_task; bid_value := 10 |}.

(** A task no provider has the memory for. *)
Definition huge_task : IoTTask :=
  {| task_id := "0b7e44d1"; cpu := 8; memory := 40; deadline := 1;
     data_size := 100; priority := 5 |}.

Definition huge_request : ResourceRequest :=
  {| device_id := 3; task := huge_task; bid_value := 100 |}.

(** The three providers and device 3, whose only pending task is the huge
    one; the task it draws in the round is the small one. *)
Definition starved : EdgeComputingSystem.t :=
  {| EdgeComputingSystem.network := topology;
     EdgeComputingSystem.nodes := providers;
     EdgeComputingSystem.devices :=
       [IoTDevice.set_pending (IoTDevice.init 3 "generic") [huge_task]] |}.

(** A rational stand-in for [math.exp]: its Taylor polynomial of degree 2. *)
Definition exp2 (x : Q) : Q := 1 + x + x ^ 2 / 2.

(** The task the camera at position [i] draws: 6 units of CPU. *)
Definition camera_task (i : nat) : IoTTask :=
  {| task_id := String (Ascii.ascii_of_nat (97 + i)) "a3f09c1";
     cpu := 6; memory := 8; deadline := 1; data_size := 50; priority := 1 |}.

(** One provider with 20 units of CPU and four cameras on it. *)
Definition crowded : EdgeComputingSystem.t :=
  {| EdgeComputingSystem.network :=
       (let g := fold_left nx.add_node [0; 1; 2; 3; 4]%Z nx.empty in
        fold_left (fun g d => nx.add_edge g d 0 1.0) [1; 2; 3; 4]%Z g);
     EdgeComputingSystem.nodes := [EdgeNode.init 0 20 32];
     EdgeComputingSystem.devices :=
       [IoTDevice.init 1 "camera"; IoTDevice.init 2 "camera";
        IoTDevice.init 3 "camera"; IoTDevice.init 4 "camera"] |}.

End Scenario.

(* ========================================================================= *)
(** * Properties                                                              *)
(* ========================================================================= *)

(* ------------------------------------------------------------------------- *)
(** ** Floats and the [py] monad                                              *)
(* ------------------------------------------------------------------------- *)

Module FloatFacts.

Lemma ltb_lt x y : Float.ltb x y = true <-> x < y.
Proof.
  unfold Float.ltb. rewrite negb_true_iff, <- not_true_iff_false, Qle_bool_iff.
  split; [apply Qnot_le_lt | apply Qlt_not_le].
Qed.

Lemma ltb_ge x y : Float.ltb x y = false <-> y <= x.
Proof.
  unfold Float.ltb. rewrite negb_false_iff. apply Qle_bool_iff.
Qed.

Lemma eqb_eq x y : Float.eqb x y = true <-> x == y.
Proof. apply Qeq_bool_iff. Qed.

Lemma eqb_neq x y : Float.eqb x y = false <-> ~ x == y.
Proof. rewrite <- not_true_iff_false, eqb_eq. tauto. Qed.

End FloatFacts.

Module PyFacts.

Lemma for_each_app {A S} (body : S -> A -> py S) l1 l2 s :
  for_each body (l1 ++ l2) s = (s' <- for_each body l1 s ;; for_each body l2 s').
Proof.
  revert s. induction l1 as [|x l1 IH]; intros s; simpl; [reflexivity|].
  destruct (body s x); simpl; [apply IH | reflexivity].
Qed.

Lemma bind_Ret_inv {A B} (c : py A) (k : A -> py B) b :
  bind c k = Ret b -> exists a, c = Ret a /\ k a = Ret b.
Proof. destruct c; simpl; [eauto | discriminate]. Qed.

(** A loop that appends one element per iteration builds a [map]. *)
Lemma for_each_map {A B} (body : list B -> A -> py (list B)) (f : A -> B) l :
  (forall acc x, In x l -> body acc x = Ret (acc ++ [f x])) ->
  forall acc, for_each body l acc = Ret (acc ++ List.map f l).
Proof.
  induction l as [|x l IH]; intros H acc; simpl.
  - now rewrite app_nil_r.
  - rewrite H by now left. simpl.
    rewrite IH by (intros; apply H; now right).
    now rewrite <- app_assoc.
Qed.

End PyFacts.

(* ------------------------------------------------------------------------- *)
(** ** The Jain fairness index                                                *)
(* ------------------------------------------------------------------------- *)

Module Fairness.
Import EdgeComputingSystem.

(** The sum and the sum of squares, by recursion on the list. *)
Fixpoint total (l : list Q) : Q :=
  match l with [] => 0 | x :: l' => x + total l' end.

Fixpoint squares (l : list Q) : Q :=
  match l with [] => 0 | x :: l' => x ^ 2 + squares l' end.

(** The sum of the squared distances of the entries to [x]. *)
Fixpoint spread (x : Q) (l : list Q) : Q :=
  match l with [] => 0 | y :: l' => (y - x) ^ 2 + spread x l' end.

Definition size (l : list Q) : Q := inject_Z (Z.of_nat (length l)).

(** [n * sum of squares - (sum)^2], the gap in the Cauchy-Schwarz inequality. *)
Definition gap (l : list Q) : Q := size l * squares l - total l ^ 2.

Definition all_equal (l : list Q) : Prop :=
  forall x y, In x l -> In y l -> x == y.

Lemma fold_plus_shift l a : fold_left Qplus l a == a + fold_left Qplus l 0.
Proof.
  revert a. induction l as [|x l IH]; intros a; simpl.
  - ring.
  - rewrite (IH (a + x)), (IH (0 + x)). ring.
Qed.

Lemma Qsum_total l : Qsum l == total l.
Proof.
  unfold Qsum. induction l as [|x l IH]; simpl; [reflexivity|].
  rewrite fold_plus_shift, IH. ring.
Qed.

Lemma Qsum_squares l : Qsum (List.map (fun v => v ^ 2) l) == squares l.
Proof.
  rewrite Qsum_total. induction l as [|x l IH]; simpl; [reflexivity|].
  rewrite IH. reflexivity.
Qed.

Lemma size_cons x l : size (x :: l) == size l + 1.
Proof.
  unfold size. cbn [length]. rewrite Nat2Z.inj_succ, <- Z.add_1_r.
  rewrite inject_Z_plus. reflexivity.
Qed.

Lemma size_nonneg l : 0 <= size l.
Proof.
  unfold size. change 0 with (inject_Z 0). rewrite <- Zle_Qle. lia.
Qed.

Lemma size_pos x l : 0 < size (x :: l).
Proof. rewrite size_cons. pose proof (size_nonneg l). lra. Qed.

Lemma sq_nonneg (x : Q) : 0 <= x ^ 2.
Proof. nra. Qed.

Lemma sq_zero (x : Q) : x ^ 2 == 0 -> x == 0.
Proof. intros H. nra. Qed.

Lemma squares_nonneg l : 0 <= squares l.
Proof.
  induction l as [|x l IH]; simpl; [lra|]. pose proof (sq_nonneg x). lra.
Qed.

Lemma spread_nonneg x l : 0 <= spread x l.
Proof.
  induction l as [|y l IH]; simpl; [lra|]. pose proof (sq_nonneg (y - x)). lra.
Qed.

Lemma spread_expand x l :
  spread x l == squares l - 2 * x * total l + size l * x ^ 2.
Proof.
  induction l as [|y l IH].
  - unfold size; simpl. ring.
  - rewrite size_cons. simpl. rewrite IH. ring.
Qed.

Lemma spread_zero x l : spread x l == 0 <-> forall y, In y l -> y == x.
Proof.
  induction l as [|y l IH]; simpl.
  - split; [intros _ z [] | reflexivity].
  - pose proof (sq_nonneg (y - x)) as Hy. pose proof (spread_nonneg x l) as Hs.
    split.
    + intros H z [<-|Hz].
      * assert (Hy0 : (y - x) ^ 2 == 0) by lra. apply sq_zero in Hy0. lra.
      * apply IH; [lra | exact Hz].
    + intros H.
      assert (Hyx : y == x) by (apply H; now left).
      assert (Hl : spread x l == 0) by (apply IH; intros z Hz; apply H; now right).
      rewrite Hl, Hyx. ring.
Qed.

Lemma gap_cons x l : gap (x :: l) == gap l + spread x l.
Proof.
  unfold gap. rewrite size_cons, spread_expand. simpl. ring.
Qed.

(** Cauchy-Schwarz: [(sum v)^2 <= n * sum v^2]. *)
Lemma gap_nonneg l : 0 <= gap l.
Proof.
  induction l as [|x l IH].
  - unfold gap, size; simpl. lra.
  - rewrite gap_cons. pose proof (spread_nonneg x l). lra.
Qed.

(** ... with equality exactly when all the entries are equal. *)
Lemma gap_zero l : gap l == 0 <-> all_equal l.
Proof.
  induction l as [|x l IH].
  - split; [intros _ a b [] | intros _; unfold gap, size; simpl; ring].
  - rewrite gap_cons.
    pose proof (gap_nonneg l) as Hg. pose proof (spread_nonneg x l) as Hs.
    split.
    + intros H.
      assert (Hl : all_equal l) by (apply IH; lra).
      assert (Hx : forall y, In y l -> y == x) by (apply spread_zero; lra).
      intros a b [<-|Ha] [<-|Hb].
      * reflexivity.
      * symmetry. now apply Hx.
      * now apply Hx.
      * now apply Hl.
    + intros H.
      assert (Hl : gap l == 0).
      { apply IH. intros a b Ha Hb. apply H; now right. }
      assert (Hx : spread x l == 0).
      { apply spread_zero. intros y Hy. apply H; [now right | now left]. }
      rewrite Hl, Hx. ring.
Qed.

Lemma total_nonneg l : Forall (Qle 0) l -> 0 <= total l.
Proof.
  induction 1 as [|x l Hx _ IH]; simpl; lra.
Qed.

(** A non-negative vector with a non-zero sum of squares has a positive sum. *)
Lemma total_pos l : Forall (Qle 0) l -> ~ squares l == 0 -> 0 < total l.
Proof.
  induction 1 as [|x l Hx Hl IH]; simpl; intros Hsq.
  - exfalso. apply Hsq. reflexivity.
  - pose proof (total_nonneg l Hl) as Ht.
    destruct (Qlt_le_dec 0 x) as [Hpos|Hle]; [lra|].
    assert (Hx0 : x == 0) by lra.
    assert (0 < total l); [|lra].
    apply IH. intros Hz. apply Hsq. rewrite Hz, Hx0. ring.
Qed.

(** What [jain_index] computes, case by case. *)
Lemma jain_index_nil : jain_index [] = Ret 1.0.
Proof. reflexivity. Qed.

Lemma jain_index_zero_squares x l :
  squares (x :: l) == 0 -> jain_index (x :: l) = Ret 1.0.
Proof.
  intros H. unfold jain_index. cbn [length Nat.eqb].
  rewrite <- Qsum_squares in H. apply FloatFacts.eqb_eq in H. now rewrite H.
Qed.

Lemma jain_index_ratio x l :
  ~ squares (x :: l) == 0 ->
  exists j, jain_index (x :: l) = Ret j
            /\ j == total (x :: l) ^ 2 / (size (x :: l) * squares (x :: l)).
Proof.
  intros H. unfold jain_index. cbn [length Nat.eqb].
  assert (Hsq : ~ Qsum (List.map (fun v => v ^ 2) (x :: l)) == 0)
    by now rewrite Qsum_squares.
  apply FloatFacts.eqb_neq in Hsq. rewrite Hsq.
  unfold py_div.
  assert (Hden : ~ inject_Z (Z.of_nat (S (length l)))
                   * Qsum (List.map (fun v => v ^ 2) (x :: l)) == 0).
  { rewrite Qsum_squares.
    pose proof (size_pos x l) as Hn. pose proof (squares_nonneg (x :: l)) as Hs.
    assert (Hs' : 0 < squares (x :: l)).
    { destruct (Qlt_le_dec 0 (squares (x :: l))) as [Hp|Hq]; [exact Hp|].
      exfalso. apply H. lra. }
    pose proof (Qmult_lt_0_compat _ _ Hn Hs') as Hp. unfold size in Hp.
    cbn [length] in Hp. intros Hz. rewrite Hz in Hp. lra. }
  apply FloatFacts.eqb_neq in Hden. rewrite Hden.
  eexists; split; [reflexivity|].
  rewrite Qsum_total, Qsum_squares. reflexivity.
Qed.

Lemma squares_zero l : squares l == 0 -> forall y, In y l -> y == 0.
Proof.
  induction l as [|x l IH]; simpl; intros H y Hy; [destruct Hy|].
  pose proof (sq_nonneg x) as Hx. pose proof (squares_nonneg l) as Hl.
  destruct Hy as [<-|Hy].
  - apply sq_zero. lra.
  - apply IH; [lra | exact Hy].
Qed.

(** The characterisation of [Jain(v) = 1] by the non-zero entries alone. *)
Definition nonzero_entries_equal (v : list Q) : Prop :=
  forall x y, In x v -> In y v -> ~ x == 0 -> ~ y == 0 -> x == y.

Definition unit_iff_nonzero_entries_equal (v : list Q) : Prop :=
  forall j, jain_index v = Ret j -> (j == 1 <-> nonzero_entries_equal v).

(** C4, as stated, fails: one device served once and one not served.  The
    only non-zero entry is trivially equal to itself, but the index is [1/2]. *)
Lemma jain_index_one_zero :
  Forall (Qle 0) [1; 0] /\ ~ unit_iff_nonzero_entries_equal [1; 0].
Proof.
  split.
  - repeat constructor; discriminate.
  - intros H. specialize (H (1 # 2) eq_refl). destruct H as [_ H].
    assert (Hone : (1 # 2) == 1); [|discriminate Hone].
    apply H. intros x y [<-|[<-|[]]] [<-|[<-|[]]] Hx Hy;
      solve [reflexivity | exfalso; apply Hx; reflexivity
             | exfalso; apply Hy; reflexivity].
Qed.

(** C4 (amended): on a non-negative vector [jain_index] returns (it never
    raises) a value in (0, 1]; the value is 1 exactly when ALL the entries
    are equal, zeros included; it is the constant 1.0 on the empty vector
    and on a vector whose sum of squares is zero, and
    [(sum v)^2 / (n * sum v^2)] otherwise. *)
Theorem jain_index_bounds (v : list Q) :
  Forall (Qle 0) v ->
  exists j, jain_index v = Ret j
    /\ 0 < j /\ j <= 1
    /\ (j == 1 <-> all_equal v)
    /\ (v = [] \/ Qsum (List.map (fun x => x ^ 2) v) == 0 -> j = 1.0)
    /\ (v <> [] -> ~ Qsum (List.map (fun x => x ^ 2) v) == 0 ->
        j == Qsum v ^ 2
             / (inject_Z (Z.of_nat (length v)) * Qsum (List.map (fun x => x ^ 2) v))).
Proof.
  intros Hv. destruct v as [|x l].
  - exists 1.0. split; [reflexivity|]. split; [reflexivity|].
    split; [discriminate|]. split; [|split].
    + split; [intros _ a b [] | reflexivity].
    + reflexivity.
    + intros H; now contradiction H.
  - destruct (Qeq_dec (squares (x :: l)) 0) as [Hz|Hnz].
    + exists 1.0. rewrite (jain_index_zero_squares _ _ Hz).
      split; [reflexivity|]. split; [reflexivity|].
      split; [discriminate|]. split; [|split].
      * split; [|reflexivity]. intros _ a b Ha Hb.
        rewrite (squares_zero _ Hz a Ha), (squares_zero _ Hz b Hb). reflexivity.
      * reflexivity.
      * intros _ H. exfalso. apply H. now rewrite Qsum_squares.
    + destruct (jain_index_ratio _ _ Hnz) as (j & Hj & Hval).
      exists j. split; [exact Hj|].
      set (v := x :: l) in *.
      pose proof (size_pos x l) as Hn. fold v in Hn.
      pose proof (squares_nonneg v) as Hs.
      pose proof (total_pos v Hv Hnz) as Ht.
      pose proof (gap_nonneg v) as Hg.
      pose proof (gap_zero v) as Hgz.
      unfold gap in Hg, Hgz.
      assert (Hs' : 0 < squares v).
      { destruct (Qlt_le_dec 0 (squares v)) as [Hp|Hq]; [exact Hp|].
        exfalso. apply Hnz. lra. }
      assert (Hden : 0 < size v * squares v) by now apply Qmult_lt_0_compat.
      assert (Hmul : j * (size v * squares v) == total v ^ 2).
      { rewrite Hval. field. split; intros Hz; rewrite Hz in Hden; lra. }
      assert (Hsq : 0 < total v ^ 2) by nra.
      split; [nra|]. split; [nra|]. split; [|split].
      * split.
        -- intros Hone. apply Hgz. rewrite Hone in Hmul. lra.
        -- intros Heq. apply Hgz in Heq. nra.
      * intros [Hnil|Hz]; [discriminate|]. exfalso. apply Hnz.
        now rewrite <- Qsum_squares.
      * intros _ _. rewrite Hval, Qsum_total, Qsum_squares. reflexivity.
Qed.

Lemma jain_index_bounds_witness :
  exists j, jain_index [2; 1; 1] = Ret j /\ 0 < j /\ j <= 1.
Proof.
  destruct (jain_index_bounds [2; 1; 1]) as (j & Hj & Hpos & Hle & _).
  - repeat constructor; discriminate.
  - exists j. auto.
Defined.

End Fairness.

(* ------------------------------------------------------------------------- *)
(** ** The provider's cost function                                           *)
(* ------------------------------------------------------------------------- *)

Module CostFacts.
Import EdgeNode.

(** What [__init__] and the topology construction establish for a provider:
    a non-zero CPU capacity and a node of its own in the graph. *)
Definition well_formed (network : nx.Graph) (p : EdgeNode.t) : Prop :=
  ~ r_cpu (capacity p) == 0 /\ nx.has_node network (id p) = true.

(** The provider at position [i] bids [c] on [req]. *)
Definition bids_on (providers : list EdgeNode.t) (network : nx.Graph)
    (req : ResourceRequest) (i : nat) (c : Q) : Prop :=
  exists p, providers !! i = Some p /\ cost_for_request p req network = Ret (Some c).

Lemma weight_has_edge g u v :
  nx.has_edge g u v = true -> exists w, nx.weight g u v = Ret w /\ nx.find_edge g u v = Some w.
Proof.
  unfold nx.has_edge, nx.weight. destruct (nx.find_edge g u v); [eauto | discriminate].
Qed.

(** A well-formed provider answers every request: a cost or a refusal. *)
Lemma cost_for_request_returns g p req :
  well_formed g p -> exists o, cost_for_request p req g = Ret o.
Proof.
  intros [Hcap Hnode]. unfold cost_for_request.
  destruct (_ || _); [eauto|].
  unfold py_div. apply FloatFacts.eqb_neq in Hcap. rewrite Hcap. simpl.
  destruct (nx.has_edge g (id p) (device_id req)) eqn:He.
  - destruct (weight_has_edge _ _ _ He) as (w & -> & _). simpl. eauto.
  - unfold nx.shortest_path_length. rewrite Hnode. simpl.
    destruct (nx.walk_dist _ _ _ _); eauto.
Qed.

(** The cost does not read [bid_value]. *)
Lemma cost_for_request_bid_value g p r1 r2 :
  device_id r1 = device_id r2 -> task r1 = task r2 ->
  cost_for_request p r1 g = cost_for_request p r2 g.
Proof. intros Hd Ht. unfold cost_for_request. now rewrite Hd, Ht. Qed.

End CostFacts.

(* ------------------------------------------------------------------------- *)
(** ** The auction                                                            *)
(* ------------------------------------------------------------------------- *)

Module AuctionFacts.
Import Auctioneer CostFacts.

(** *** Sorting the bids *)

Fixpoint ascending (l : list Bid) : Prop :=
  match l with
  | [] => True
  | b :: l' => (forall b', In b' l' -> snd b <= snd b') /\ ascending l'
  end.

Lemma insert_perm b l : Permutation (insert b l) (b :: l).
Proof.
  induction l as [|b' l IH]; simpl; [reflexivity|].
  destruct (Float.ltb (snd b') (snd b)); [|reflexivity].
  rewrite IH. apply perm_swap.
Qed.

Lemma sort_by_cost_perm l : Permutation (sort_by_cost l) l.
Proof.
  induction l as [|b l IH]; simpl; [reflexivity|].
  rewrite insert_perm. now constructor.
Qed.

Lemma insert_ascending b l : ascending l -> ascending (insert b l).
Proof.
  induction l as [|b' l IH]; simpl; intros Hl.
  - split; [intros ? [] | exact I].
  - destruct Hl as [Hb' Hl].
    destruct (Float.ltb (snd b') (snd b)) eqn:Hlt; simpl.
    + apply FloatFacts.ltb_lt in Hlt. split; [|now apply IH].
      intros x Hx. apply (Permutation_in _ (insert_perm b l)) in Hx.
      destruct Hx as [<-|Hx]; [lra | now apply Hb'].
    + apply FloatFacts.ltb_ge in Hlt. split; [|split; assumption].
      intros x [<-|Hx]; [exact Hlt|]. specialize (Hb' x Hx). lra.
Qed.

Lemma sort_by_cost_ascending l : ascending (sort_by_cost l).
Proof.
  induction l as [|b l IH]; simpl; [exact I | now apply insert_ascending].
Qed.

Lemma sort_by_cost_nil l : sort_by_cost l = [] -> l = [].
Proof.
  intros H. pose proof (sort_by_cost_perm l) as Hp. rewrite H in Hp.
  now apply Permutation_nil.
Qed.

(** *** The clearing rule, as a function of the bids *)

(** The winner and the price [run] computes from a non-empty list of bids. *)
Definition clearing (bids : list Bid) : option (nat * Q) :=
  match sort_by_cost bids with
  | [] => None
  | (winner, win_cost) :: rest =>
      Some (winner, match rest with (_, c) :: _ => c | [] => win_cost end)
  end.

(** The bids collected from the providers [l], the first of them being at
    position [k]. *)
Fixpoint bids_from (req : ResourceRequest) (network : nx.Graph) (k : nat)
    (l : list EdgeNode.t) : list Bid :=
  match l with
  | [] => []
  | p :: l' =>
      match EdgeNode.cost_for_request p req network with
      | Ret (Some c) => (k, c) :: bids_from req network (S k) l'
      | _ => bids_from req network (S k) l'
      end
  end.

Definition allocation_of (providers : list EdgeNode.t) (network : nx.Graph)
    (req : ResourceRequest) : list Allocation :=
  match clearing (bids_from req network 0 providers) with
  | Some (winner, price) => [(req, winner, price)]
  | None => []
  end.

Definition rejection_of (providers : list EdgeNode.t) (network : nx.Graph)
    (req : ResourceRequest) : list Rejection :=
  match bids_from req network 0 providers with
  | [] => [(req, "no provider"%string)]
  | _ :: _ => []
  end.

Lemma collect_bids_from req g l :
  Forall (well_formed g) l ->
  forall k acc,
    for_each
      (fun bids ip =>
         cost <- EdgeNode.cost_for_request (snd ip) req g ;;
         match cost with
         | Some c => Ret (bids ++ [(fst ip, c)])
         | None => Ret bids
         end)
      (combine (seq k (length l)) l) acc
    = Ret (acc ++ bids_from req g k l).
Proof.
  induction 1 as [|p l Hp _ IH]; intros k acc; simpl.
  - now rewrite app_nil_r.
  - destruct (cost_for_request_returns g p req Hp) as [o Ho].
    cbn [length seq combine for_each fst snd]. rewrite Ho. cbn [bind].
    destruct o as [c|]; cbn [bind]; rewrite IH; [|reflexivity].
    now rewrite <- app_assoc.
Qed.

Lemma collect_bids_spec req g providers :
  Forall (well_formed g) providers ->
  collect_bids req providers g = Ret (bids_from req g 0 providers).
Proof.
  intros H. unfold collect_bids, enumerate. now rewrite collect_bids_from.
Qed.

Lemma In_bids_from req g l : forall k i c,
  In (i, c) (bids_from req g k l) <->
  (k <= i)%nat /\ exists p, l !! (i - k)%nat = Some p
                    /\ EdgeNode.cost_for_request p req g = Ret (Some c).
Proof.
  induction l as [|p l IH]; intros k i c; simpl.
  - split; [intros [] | intros (_ & q & Hq & _); discriminate].
  - assert (Hrec : In (i, c) (bids_from req g (S k) l) <->
                   (k < i)%nat /\ exists q, (p :: l) !! (i - k)%nat = Some q
                     /\ EdgeNode.cost_for_request q req g = Ret (Some c)).
    { rewrite IH. split.
      - intros (Hk & q & Hq & Hc). split; [lia|]. exists q. split; [|exact Hc].
        replace (i - k)%nat with (S (i - S k)) by lia. exact Hq.
      - intros (Hk & q & Hq & Hc). split; [lia|]. exists q. split; [|exact Hc].
        replace (i - k)%nat with (S (i - S k)) in Hq by lia. exact Hq. }
    assert (Hhere : forall c0, EdgeNode.cost_for_request p req g = Ret (Some c0) ->
              ((i, c) = (k, c0) <->
               i = k /\ exists q, (p :: l) !! (i - k)%nat = Some q
                 /\ EdgeNode.cost_for_request q req g = Ret (Some c))).
    { intros c0 Hc0. split.
      - intros [= -> ->]. split; [reflexivity|]. exists p.
        rewrite Nat.sub_diag. split; [reflexivity | exact Hc0].
      - intros (-> & q & Hq & Hc). rewrite Nat.sub_diag in Hq.
        injection Hq as <-. rewrite Hc0 in Hc. now injection Hc as ->. }
    destruct (EdgeNode.cost_for_request p req g) as [[c0|]|e] eqn:Hp.
    + simpl. rewrite Hrec. specialize (Hhere c0 eq_refl).
      split.
      * intros [Heq|Hin]; [symmetry in Heq; apply Hhere in Heq|].
        -- destruct Heq as [-> Hq]. split; [lia | exact Hq].
        -- destruct Hin as [Hlt Hq]. split; [lia | exact Hq].
      * intros (Hk & Hq). destruct (Nat.eq_dec i k) as [->|Hne].
        -- left. symmetry. apply Hhere. auto.
        -- right. split; [lia | exact Hq].
    + rewrite Hrec. split.
      * intros [Hlt Hq]. split; [lia | exact Hq].
      * intros (Hk & q & Hq & Hc). destruct (Nat.eq_dec i k) as [->|Hne].
        -- rewrite Nat.sub_diag in Hq. injection Hq as <-. congruence.
        -- split; [lia|]. eauto.
    + rewrite Hrec. split.
      * intros [Hlt Hq]. split; [lia | exact Hq].
      * intros (Hk & q & Hq & Hc). destruct (Nat.eq_dec i k) as [->|Hne].
        -- rewrite Nat.sub_diag in Hq. injection Hq as <-. congruence.
        -- split; [lia|]. eauto.
Qed.

(** The collected bids are exactly the bids of the providers. *)
Lemma In_bids req g providers i c :
  In (i, c) (bids_from req g 0 providers) <-> bids_on providers g req i c.
Proof.
  rewrite In_bids_from. unfold bids_on. rewrite Nat.sub_0_r.
  split; [intros [_ H]; exact H | intros H; split; [lia | exact H]].
Qed.

(** Each provider bids at most once. *)
Lemma bids_from_NoDup req g l :
  forall k, List.NoDup (List.map fst (bids_from req g k l)).
Proof.
  induction l as [|p l IH]; intros k; simpl; [constructor|].
  destruct (EdgeNode.cost_for_request p req g) as [[c|]|e]; try apply IH.
  simpl. constructor; [|apply IH].
  intros Hin. apply in_map_iff in Hin. destruct Hin as ([i c'] & Hi & Hin).
  simpl in Hi. subst i. apply In_bids_from in Hin. lia.
Qed.

(** Without any assumption on the providers: if the inner loop returns, it
    returns the bids of the providers. *)
Lemma collect_bids_from_inv req g l : forall k acc bids,
  for_each
    (fun bids ip =>
       cost <- EdgeNode.cost_for_request (snd ip) req g ;;
       match cost with
       | Some c => Ret (bids ++ [(fst ip, c)])
       | None => Ret bids
       end)
    (combine (seq k (length l)) l) acc
  = Ret bids -> bids = acc ++ bids_from req g k l.
Proof.
  induction l as [|p l IH]; intros k acc bids; simpl.
  - intros [= <-]. now rewrite app_nil_r.
  - destruct (EdgeNode.cost_for_request p req g) as [[c|]|e]; simpl; intros H.
    + apply IH in H. now rewrite <- app_assoc in H.
    + now apply IH in H.
    + discriminate.
Qed.

Lemma collect_bids_inv req g providers bids :
  collect_bids req providers g = Ret bids -> bids = bids_from req g 0 providers.
Proof. intros H. now apply collect_bids_from_inv in H. Qed.

(** One iteration, once the bids are known. *)
Lemma run_body_bids providers g allocations rejections req :
  collect_bids req providers g = Ret (bids_from req g 0 providers) ->
  run_body providers g (allocations, rejections) req
  = Ret (allocations ++ allocation_of providers g req,
         rejections ++ rejection_of providers g req).
Proof.
  intros Hb. unfold run_body, allocation_of, rejection_of, clearing.
  rewrite Hb. cbn [bind].
  destruct (bids_from req g 0 providers) as [|b bids] eqn:Hbids.
  - simpl. now rewrite app_nil_r.
  - cbn [length Nat.ltb Nat.leb].
    destruct (sort_by_cost (b :: bids)) as [|[w c] rest] eqn:Hs.
    + apply sort_by_cost_nil in Hs. discriminate.
    + now rewrite app_nil_r.
Qed.

Lemma run_from_spec providers g requests :
  Forall (well_formed g) providers ->
  forall allocations rejections,
    for_each (run_body providers g) requests (allocations, rejections)
    = Ret (allocations ++ flat_map (allocation_of providers g) requests,
           rejections ++ flat_map (rejection_of providers g) requests).
Proof.
  intros Hwf. induction requests as [|req requests IH]; intros A R.
  - simpl. now rewrite !app_nil_r.
  - cbn [for_each flat_map].
    rewrite (run_body_bids _ _ _ _ _ (collect_bids_spec req g providers Hwf)).
    cbn [bind]. rewrite IH, <- !app_assoc. reflexivity.
Qed.

(** [run] on well-formed providers returns, and what it returns. *)
Lemma run_spec requests providers g :
  Forall (well_formed g) providers ->
  run requests providers g
  = Ret (flat_map (allocation_of providers g) requests,
         flat_map (rejection_of providers g) requests).
Proof. intros Hwf. unfold run. now rewrite run_from_spec. Qed.

Lemma run_from_inv providers g requests : forall allocations rejections out,
  for_each (run_body providers g) requests (allocations, rejections) = Ret out ->
  out = (allocations ++ flat_map (allocation_of providers g) requests,
         rejections ++ flat_map (rejection_of providers g) requests).
Proof.
  induction requests as [|req requests IH]; intros A R out H.
  - simpl in H. injection H as <-. now rewrite !app_nil_r.
  - cbn [for_each] in H. apply PyFacts.bind_Ret_inv in H.
    destruct H as ([A1 R1] & Hbody & Hrest).
    assert (Hb : collect_bids req providers g = Ret (bids_from req g 0 providers)).
    { unfold run_body in Hbody. apply PyFacts.bind_Ret_inv in Hbody.
      destruct Hbody as (bids & Hbids & _).
      now rewrite Hbids, (collect_bids_inv _ _ _ _ Hbids). }
    rewrite (run_body_bids _ _ _ _ _ Hb) in Hbody. injection Hbody as <- <-.
    apply IH in Hrest. rewrite Hrest. cbn [flat_map]. now rewrite <- !app_assoc.
Qed.

(** Whenever [run] returns, this is what it returns. *)
Lemma run_inv requests providers g allocations rejections :
  run requests providers g = Ret (allocations, rejections) ->
  allocations = flat_map (allocation_of providers g) requests
  /\ rejections = flat_map (rejection_of providers g) requests.
Proof.
  unfold run. intros H. apply run_from_inv in H. now injection H.
Qed.

(** A provider has one bid only. *)
Lemma bid_unique (bids : list Bid) i c c' :
  List.NoDup (List.map fst bids) -> In (i, c) bids -> In (i, c') bids -> c = c'.
Proof.
  induction bids as [|[j d] bids IH]; simpl; intros Hnd Hc Hc'; [destruct Hc|].
  inversion Hnd as [|? ? Hj Hnd']; subst.
  destruct Hc as [Hc|Hc], Hc' as [Hc'|Hc'].
  - congruence.
  - injection Hc as -> ->. exfalso. apply Hj. apply in_map_iff. now exists (i, c').
  - injection Hc' as -> ->. exfalso. apply Hj. apply in_map_iff. now exists (i, c).
  - now apply IH.
Qed.

(** What the sorted list says about the winner and the price. *)
Lemma clearing_spec (bids : list Bid) winner price :
  List.NoDup (List.map fst bids) ->
  clearing bids = Some (winner, price) ->
  exists win_cost,
    In (winner, win_cost) bids
    /\ (forall i c, In (i, c) bids -> win_cost <= c)
    /\ win_cost <= price
    /\ ((forall i c, In (i, c) bids -> i = winner) -> price = win_cost)
    /\ ((exists i c, i <> winner /\ In (i, c) bids) ->
        (exists i, i <> winner /\ In (i, price) bids)
        /\ (forall i c, i <> winner -> In (i, c) bids -> price <= c)).
Proof.
  intros Hnd. unfold clearing.
  pose proof (sort_by_cost_perm bids) as Hperm.
  pose proof (sort_by_cost_ascending bids) as Hasc.
  destruct (sort_by_cost bids) as [|[w cw] rest] eqn:Hs; [discriminate|].
  assert (Hin : forall b, In b bids <-> b = (w, cw) \/ In b rest).
  { intros b. split; intros H.
    - apply (Permutation_in _ (Permutation_sym Hperm)) in H.
      destruct H as [<-|H]; auto.
    - apply (Permutation_in _ Hperm). destruct H as [->|H]; [now left | now right]. }
  assert (Hnd' : List.NoDup (List.map fst ((w, cw) :: rest))).
  { eapply Permutation_NoDup; [|exact Hnd].
    apply Permutation_map. now apply Permutation_sym. }
  simpl in Hnd'. inversion Hnd' as [|? ? Hw Hrest]; subst.
  destruct Hasc as [Hmin Hasc].
  assert (Hother : forall i c, i <> w -> In (i, c) bids -> In (i, c) rest).
  { intros i c Hne H. apply Hin in H. destruct H as [[= -> ->]|H]; [now contradiction Hne | exact H]. }
  intros [= -> <-]. exists cw. split; [apply Hin; now left|].
  split.
  { intros i c H. apply Hin in H. destruct H as [[= -> ->]|H]; [lra|].
    now apply (Hmin (i, c)). }
  destruct rest as [|[i2 c2] rest'].
  - split; [lra|]. split; [reflexivity|].
    intros (i & c & Hne & H). now apply Hother in H.
  - assert (Hi2 : i2 <> winner).
    { intros ->. apply Hw. now left. }
    split; [apply (Hmin (i2, c2)); now left|].
    split.
    { intros Hall. exfalso. apply Hi2. apply (Hall i2 c2). apply Hin. right. now left. }
    intros _. split.
    + exists i2. split; [exact Hi2|]. apply Hin. right. now left.
    + intros i c Hne H. apply Hother in H; [|exact Hne].
      destruct Hasc as [Hmin2 _].
      destruct H as [[= -> ->]|H]; [lra|]. now apply (Hmin2 (i, c)).
Qed.

Definition has_bid (providers : list EdgeNode.t) (network : nx.Graph)
    (req : ResourceRequest) : Prop :=
  exists i c, bids_on providers network req i c.

(** [i] is a lowest bidder on [req], at cost [c]. *)
Definition lowest (providers : list EdgeNode.t) (network : nx.Graph)
    (req : ResourceRequest) (i : nat) (c : Q) : Prop :=
  bids_on providers network req i c
  /\ forall j c', bids_on providers network req j c' -> c <= c'.

(** [price] is the least cost among the bids of the providers other than [w]. *)
Definition lowest_but (providers : list EdgeNode.t) (network : nx.Graph)
    (req : ResourceRequest) (w : nat) (price : Q) : Prop :=
  (exists i c, i <> w /\ bids_on providers network req i c /\ c == price)
  /\ forall i c, i <> w -> bids_on providers network req i c -> price <= c.

Lemma allocation_of_inv providers g req a :
  In a (allocation_of providers g req) ->
  exists winner price,
    a = (req, winner, price)
    /\ clearing (bids_from req g 0 providers) = Some (winner, price).
Proof.
  unfold allocation_of.
  destruct (clearing _) as [[w p]|]; [|intros []].
  intros [<-|[]]. eauto.
Qed.

Lemma clearing_some (bids : list Bid) :
  bids <> [] -> exists winner price, clearing bids = Some (winner, price).
Proof.
  intros Hne. unfold clearing.
  destruct (sort_by_cost bids) as [|[w c] rest] eqn:Hs; [|eauto].
  apply sort_by_cost_nil in Hs. contradiction.
Qed.

(** C3: on well-formed providers [run] returns, and for every request of the
    batch that at least one provider bids on, the allocations contain an
    Allocation of that request whose winner is a lowest bidder; the price is
    the winner's own cost when it is the only bidder, and otherwise the
    least cost among the other bidders, the same whichever lowest bidder is
    taken for the winner (so independent of the order of ties). *)
Theorem second_price_clearing requests providers network :
  Forall (well_formed network) providers ->
  exists allocations rejections,
    run requests providers network = Ret (allocations, rejections)
    /\ forall req, In req requests -> has_bid providers network req ->
       exists winner win_cost price,
         In (req, winner, price) allocations
         /\ lowest providers network req winner win_cost
         /\ ((forall i c, bids_on providers network req i c -> i = winner) ->
             price = win_cost)
         /\ ((exists i c, i <> winner /\ bids_on providers network req i c) ->
             lowest_but providers network req winner price
             /\ forall w' c', lowest providers network req w' c' ->
                  lowest_but providers network req w' price).
Proof.
  intros Hwf. rewrite (run_spec _ _ _ Hwf). do 2 eexists. split; [reflexivity|].
  intros req Hreq (i0 & c0 & Hbid0).
  set (bids := bids_from req network 0 providers).
  assert (Hne : bids <> []).
  { apply In_bids in Hbid0. fold bids in Hbid0. intros E. now rewrite E in Hbid0. }
  destruct (clearing_some bids Hne) as (winner & price & Hclear).
  pose proof (bids_from_NoDup req network providers 0) as Hnd. fold bids in Hnd.
  destruct (clearing_spec bids winner price Hnd Hclear)
    as (win_cost & Hwin & Hmin & Hle & Hsingle & Hmany).
  exists winner, win_cost, price.
  assert (Hiff : forall i c, In (i, c) bids <-> bids_on providers network req i c)
    by (intros; apply In_bids).
  split.
  { apply in_flat_map. exists req. split; [exact Hreq|].
    unfold allocation_of. fold bids. rewrite Hclear. now left. }
  split.
  { split; [now apply Hiff|]. intros j c' Hj. apply Hmin with j. now apply Hiff. }
  split.
  { intros Hall. apply Hsingle. intros i c Hi. apply Hall with c. now apply Hiff. }
  intros (i & c & Hne' & Hi).
  destruct Hmany as [(i2 & Hi2 & Hin2) Hlow].
  { exists i, c. split; [exact Hne'|]. now apply Hiff. }
  assert (Hbut : lowest_but providers network req winner price).
  { split.
    - exists i2, price. split; [exact Hi2|]. split; [now apply Hiff | reflexivity].
    - intros j cj Hj Hbj. apply Hlow with j; [exact Hj | now apply Hiff]. }
  split; [exact Hbut|].
  intros w' c' [Hw' Hmin'].
  destruct (Nat.eq_dec w' winner) as [->|Hdiff]; [exact Hbut|].
  (* another lowest bidder: its cost, the winner's and the price coincide *)
  assert (Hc' : c' == win_cost).
  { apply Qle_antisym.
    - apply Hmin' with winner. now apply Hiff.
    - apply Hmin with w'. now apply Hiff. }
  assert (Hp : price == win_cost).
  { apply Qle_antisym; [|exact Hle].
    rewrite <- Hc'. apply Hlow with w'; [exact Hdiff | now apply Hiff]. }
  split.
  - exists winner, win_cost. split; [auto|]. split; [now apply Hiff | now symmetry].
  - intros j cj _ Hbj. rewrite Hp, <- Hc'. now apply Hmin' with j.
Qed.

(** C10: whenever [run] returns, the price of every Allocation it emits is
    at least the cost the winning provider bid on that request. *)
Theorem payment_covers_cost requests providers network allocations rejections
    req winner price :
  run requests providers network = Ret (allocations, rejections) ->
  In (req, winner, price) allocations ->
  exists win_cost,
    bids_on providers network req winner win_cost /\ win_cost <= price.
Proof.
  intros Hrun Hin. apply run_inv in Hrun. destruct Hrun as [-> _].
  apply in_flat_map in Hin. destruct Hin as (req' & _ & Hin).
  apply allocation_of_inv in Hin. destruct Hin as (w & p & [= <- <- <-] & Hclear).
  pose proof (bids_from_NoDup req network providers 0) as Hnd.
  destruct (clearing_spec _ _ _ Hnd Hclear) as (win_cost & Hwin & _ & Hle & _).
  exists win_cost. split; [now apply In_bids | exact Hle].
Qed.


(** The request of an Allocation has a bid. *)
Lemma allocation_has_bid providers g req a :
  In a (allocation_of providers g req) -> bids_from req g 0 providers <> [].
Proof.
  intros Hin E. unfold allocation_of, clearing in Hin. rewrite E in Hin.
  simpl in Hin. exact Hin.
Qed.

Lemma scenario_well_formed :
  Forall (well_formed Scenario.topology) Scenario.providers.
Proof.
  repeat constructor; try reflexivity; intros H; vm_compute in H; discriminate H.
Qed.

Lemma second_price_clearing_witness :
  exists allocations rejections,
    run [Scenario.request3; Scenario.huge_request] Scenario.providers Scenario.topology
    = Ret (allocations, rejections)
    /\ exists winner win_cost price,
         In (Scenario.request3, winner, price) allocations
         /\ lowest Scenario.providers Scenario.topology Scenario.request3 winner win_cost.
Proof.
  destruct (second_price_clearing [Scenario.request3; Scenario.huge_request]
              Scenario.providers Scenario.topology)
    as (allocations & rejections & Hrun & H).
  - exact scenario_well_formed.
  - exists allocations, rejections. split; [exact Hrun|].
    destruct (H Scenario.request3) as (w & c & p & Hin & Hlow & _).
    + now left.
    + exists 0%nat. eexists. eexists. split; reflexivity.
    + exists w, c, p. split; assumption.
Defined.

Lemma payment_covers_cost_witness :
  exists win_cost,
    bids_on Scenario.providers Scenario.topology Scenario.request3 1 win_cost
    /\ win_cost <= 29600000000 # 40000000000.
Proof.
  apply (payment_covers_cost [Scenario.request3; Scenario.huge_request]
           Scenario.providers Scenario.topology
           [(Scenario.request3, 1%nat, 29600000000 # 40000000000)]
           [(Scenario.huge_request, "no provider"%string)]).
  - vm_compute. reflexivity.
  - left. reflexivity.
Defined.

End AuctionFacts.

(* ------------------------------------------------------------------------- *)
(** ** The consumer's bid                                                     *)
(* ------------------------------------------------------------------------- *)

Module BidFacts.
Import IoTDevice.

(** The weights of the edges from [self] to the providers it has an edge to. *)
Definition latencies (self : IoTDevice.t) (network : nx.Graph)
    (providers : list EdgeNode.t) : list Q :=
  flat_map (fun p => match nx.find_edge network (id self) (EdgeNode.id p) with
                     | Some w => [w]
                     | None => []
                     end) providers.

(** The generator under [min] never raises. *)
Lemma direct_latencies_spec self g providers :
  direct_latencies self g providers = Ret (latencies self g providers).
Proof.
  unfold direct_latencies, latencies.
  induction providers as [|p l IH]; simpl; [reflexivity|].
  unfold nx.has_edge, nx.weight. unfold nx.has_edge, nx.weight in IH.
  destruct (nx.find_edge g (id self) (EdgeNode.id p)) as [w|] eqn:He; simpl.
  - rewrite He. simpl. now rewrite IH.
  - exact IH.
Qed.

Lemma In_latencies self g providers w :
  In w (latencies self g providers) <->
  exists p, In p providers /\ nx.find_edge g (id self) (EdgeNode.id p) = Some w.
Proof.
  unfold latencies. rewrite in_flat_map. split.
  - intros (p & Hp & Hw). exists p. split; [exact Hp|].
    destruct (nx.find_edge _ _ _) as [w'|]; [|destruct Hw].
    destruct Hw as [->|[]]. reflexivity.
  - intros (p & Hp & Hw). exists p. split; [exact Hp|]. rewrite Hw. now left.
Qed.

Lemma fold_min_spec l : forall x,
  let m := fold_left (fun m y => if Float.ltb y m then y else m) l x in
  In m (x :: l) /\ forall y, In y (x :: l) -> m <= y.
Proof.
  induction l as [|z l IH]; intros x; simpl.
  - split; [now left|]. intros y [<-|[]]. lra.
  - destruct (Float.ltb z x) eqn:Hlt.
    + apply FloatFacts.ltb_lt in Hlt.
      destruct (IH z) as [Hin Hmin]. simpl in Hin, Hmin. split.
      * right. exact Hin.
      * intros y [<-|Hy]; [|now apply Hmin].
        specialize (Hmin z (or_introl eq_refl)). lra.
    + apply FloatFacts.ltb_ge in Hlt.
      destruct (IH x) as [Hin Hmin]. simpl in Hin, Hmin. split.
      * destruct Hin as [Hin|Hin]; [now left | right; now right].
      * intros y [<-|[<-|Hy]].
        -- apply Hmin. now left.
        -- specialize (Hmin x (or_introl eq_refl)). lra.
        -- apply Hmin. now right.
Qed.

(** [min] of a non-empty sequence returns one of its least elements. *)
Lemma py_min_spec l :
  l <> [] -> exists m, py_min l = Ret m /\ In m l /\ forall y, In y l -> m <= y.
Proof.
  destruct l as [|x l]; [congruence|]. intros _. eexists. split; [reflexivity|].
  apply fold_min_spec.
Qed.

Section WithExp.

Variable exp : Q -> Q.

(** The body of the loop of [build_requests], once [min] has returned. *)
Definition bid_value_of (best_latency : Q) (t : IoTTask) : Q :=
  inject_Z (priority t) * (cpu t + memory t)
  * exp (- (best_latency + cpu t / 10) / deadline t)
  - best_latency * 0.1.

Definition request_of (self : IoTDevice.t) (best_latency : Q) (t : IoTTask)
    : ResourceRequest :=
  {| device_id := id self; task := t; bid_value := bid_value_of best_latency t |}.

Lemma utility_for_task_spec self t expected_completion energy_cost :
  ~ deadline t == 0 ->
  utility_for_task exp self t expected_completion energy_cost
  = Ret (inject_Z (priority t) * (cpu t + memory t)
         * exp (- expected_completion / deadline t) - energy_cost).
Proof.
  intros Ht. unfold utility_for_task, py_div.
  apply FloatFacts.eqb_neq in Ht. now rewrite Ht.
Qed.

Lemma build_requests_loop self g providers best tasks :
  py_min (latencies self g providers) = Ret best ->
  (forall t, In t tasks -> ~ deadline t == 0) ->
  forall acc,
    for_each
      (fun requests task =>
         lats <- direct_latencies self g providers ;;
         best_latency <- py_min lats ;;
         let expected_completion := best_latency + cpu task / 10 in
         let energy_cost := best_latency * 0.1 in
         utility <- utility_for_task exp self task expected_completion energy_cost ;;
         Ret (requests ++ [{| device_id := id self; task := task;
                              bid_value := utility |}]))
      tasks acc
    = Ret (acc ++ List.map (request_of self best) tasks).
Proof.
  intros Hmin Hd acc. apply PyFacts.for_each_map.
  intros requests t Ht.
  rewrite direct_latencies_spec. cbn [bind]. rewrite Hmin. cbn [bind].
  rewrite utility_for_task_spec by now apply Hd.
  reflexivity.
Qed.

(** Without a provider at the other end of an edge, the first pending task
    already makes [min] raise. *)
Lemma build_requests_isolated self g providers :
  latencies self g providers = [] -> pending_tasks self <> [] ->
  build_requests exp self g providers = Raise ValueError.
Proof.
  intros Hl Hp. unfold build_requests.
  destruct (pending_tasks self) as [|t l]; [congruence|].
  simpl. rewrite direct_latencies_spec, Hl. reflexivity.
Qed.

(** C8: for a device with an edge to at least one provider (and tasks whose
    deadline is not zero), [build_requests] returns one request per pending
    task, in order; its bid value is
    [priority * (cpu + memory) * exp (-(best_latency + cpu/10) / deadline)
     - best_latency * 0.1],
    where [best_latency] is the least weight among the edges between the
    device and the providers: providers without such an edge do not count,
    and no path through other nodes does. *)
Theorem bid_value_formula (self : IoTDevice.t) (network : nx.Graph)
    (providers : list EdgeNode.t) :
  (exists p, In p providers /\ nx.has_edge network (id self) (EdgeNode.id p) = true) ->
  (forall t, In t (pending_tasks self) -> ~ deadline t == 0) ->
  exists best_latency,
    (exists p, In p providers
               /\ nx.find_edge network (id self) (EdgeNode.id p) = Some best_latency)
    /\ (forall p w, In p providers ->
          nx.find_edge network (id self) (EdgeNode.id p) = Some w -> best_latency <= w)
    /\ build_requests exp self network providers
       = Ret (List.map
                (fun t =>
                   {| device_id := id self; task := t;
                      bid_value :=
                        inject_Z (priority t) * (cpu t + memory t)
                        * exp (- (best_latency + cpu t / 10) / deadline t)
                        - best_latency * 0.1 |})
                (pending_tasks self)).
Proof.
  intros (p & Hp & He) Hd.
  assert (Hne : latencies self network providers <> []).
  { unfold nx.has_edge in He.
    destruct (nx.find_edge network (id self) (EdgeNode.id p)) as [w|] eqn:Hw;
      [|discriminate].
    intros E. assert (Hin : In w (latencies self network providers))
      by (apply In_latencies; eauto).
    now rewrite E in Hin. }
  destruct (py_min_spec _ Hne) as (best & Hmin & Hin & Hleast).
  exists best. split; [now apply In_latencies|]. split.
  - intros q w Hq Hw. apply Hleast. apply In_latencies. eauto.
  - unfold build_requests. now rewrite (build_requests_loop _ _ _ _ _ Hmin Hd).
Qed.

End WithExp.

(** The exponential does not matter for the shape of the result: here it is
    replaced by the constant 1. *)
Lemma bid_value_formula_witness :
  exists best_latency,
    build_requests (fun _ => 1) Scenario.device3 Scenario.topology Scenario.providers
    = Ret [{| device_id := 3; task := Scenario.small_task;
              bid_value := inject_Z 3 * (2 + 4) * 1 - best_latency * 0.1 |}].
Proof.
  destruct (bid_value_formula (fun _ => 1) Scenario.device3 Scenario.topology
              Scenario.providers) as (best & _ & _ & H).
  - exists (EdgeNode.init 0 20 32). split; [now left | reflexivity].
  - intros t [<-|[]]. discriminate.
  - exists best. exact H.
Defined.

Lemma latencies_nil self g providers :
  (forall p, In p providers -> nx.has_edge g (id self) (EdgeNode.id p) = false) ->
  latencies self g providers = [].
Proof.
  unfold latencies. induction providers as [|p l IH]; intros H; simpl; [reflexivity|].
  pose proof (H p (or_introl eq_refl)) as Hp. unfold nx.has_edge in Hp.
  destruct (nx.find_edge g (id self) (EdgeNode.id p)); [discriminate|].
  apply IH. intros q Hq. apply H. now right.
Qed.

(** C2 (the behaviour of the code): for a device that has a pending task and
    no edge to any of the providers, [build_requests] does not return an
    empty list of requests: [min] is taken over an empty sequence and the
    [ValueError] leaves [build_requests]. *)
Theorem build_requests_isolated_raises (exp : Q -> Q) (self : IoTDevice.t)
    (network : nx.Graph) (providers : list EdgeNode.t) :
  (forall p, In p providers ->
     nx.has_edge network (id self) (EdgeNode.id p) = false) ->
  pending_tasks self <> [] ->
  build_requests exp self network providers = Raise ValueError.
Proof.
  intros Hisolated Hpending. apply build_requests_isolated; [|exact Hpending].
  now apply latencies_nil.
Qed.

(** Device 5 of the scenario: a pending task, and not a single edge. *)
Lemma build_requests_isolated_raises_witness :
  build_requests Scenario.exp2 Scenario.device5 Scenario.topology Scenario.providers
  = Raise ValueError.
Proof.
  apply build_requests_isolated_raises.
  - intros p [<-|[<-|[<-|[]]]]; reflexivity.
  - discriminate.
Defined.

End BidFacts.

(* ------------------------------------------------------------------------- *)
(** ** Applying allocations                                                   *)
(* ------------------------------------------------------------------------- *)

Module SystemFacts.
Import EdgeComputingSystem CostFacts AuctionFacts.

(** [0 <= available <= capacity], componentwise. *)
Definition capacity_invariant (p : EdgeNode.t) : Prop :=
  0 <= r_cpu (EdgeNode.available p) <= r_cpu (EdgeNode.capacity p)
  /\ 0 <= r_memory (EdgeNode.available p) <= r_memory (EdgeNode.capacity p).

(** [l] is [before ++ x :: after] where [x] is the first element equal to [t]. *)
Definition first_equal (t : IoTTask) (l before : list IoTTask) (x : IoTTask)
    (after : list IoTTask) : Prop :=
  l = before ++ x :: after
  /\ task_eqb x t = true
  /\ Forall (fun y => task_eqb y t = false) before.

Lemma list_remove_spec t l before x after :
  first_equal t l before x after -> list_remove t l = Ret (before ++ after).
Proof.
  intros (-> & Hx & Hb). induction Hb as [|y before Hy _ IH]; simpl.
  - now rewrite Hx.
  - now rewrite Hy, IH.
Qed.

Lemma list_remove_inv t l l' :
  list_remove t l = Ret l' ->
  exists before x after, first_equal t l before x after /\ l' = before ++ after.
Proof.
  revert l'. induction l as [|y l IH]; simpl; intros l' H; [discriminate|].
  destruct (task_eqb y t) eqn:Hy.
  - injection H as <-. exists [], y, l. repeat split; auto.
  - apply PyFacts.bind_Ret_inv in H. destruct H as (r & Hr & [= <-]).
    destruct (IH _ Hr) as (before & x & after & (-> & Hx & Hb) & ->).
    exists (y :: before), x, after. repeat split; auto.
Qed.

(** Removing [t] keeps every task that is not equal to [t]. *)
Lemma list_remove_keeps t l l' u :
  list_remove t l = Ret l' -> In u l -> task_eqb u t = false -> In u l'.
Proof.
  intros H Hu Hne.
  destruct (list_remove_inv _ _ _ H) as (before & x & after & (-> & Hx & _) & ->).
  apply in_app_or in Hu. apply in_or_app.
  destruct Hu as [Hu|[<-|Hu]]; [now left | congruence | now right].
Qed.

(** What one application does, whenever it returns. *)
Lemma apply_allocation_inv st req winner price st' :
  apply_allocation st (req, winner, price) = Ret st' ->
  exists count i dev pending1,
    Dict.get (device_id req) (per_device_allocated st) = Ret count
    /\ list_find (fun d => IoTDevice.id d = device_id req) (a_devices st) = Some (i, dev)
    /\ list_remove (task req) (IoTDevice.pending_tasks dev) = Ret pending1
    /\ st' = {| a_nodes := alter (fun p => EdgeNode.allocate p req) winner (a_nodes st);
                a_devices := <[i := IoTDevice.set_pending dev pending1]> (a_devices st);
                welfare := welfare st + (bid_value req - price);
                per_device_allocated :=
                  Dict.set (device_id req) (count + 1)%Z (per_device_allocated st) |}.
Proof.
  unfold apply_allocation. intros H.
  apply PyFacts.bind_Ret_inv in H. destruct H as (count & Hc & H).
  destruct (list_find _ _) as [[i dev]|]; [|discriminate].
  apply PyFacts.bind_Ret_inv in H. destruct H as (pending1 & Hp & [= <-]).
  exists count, i, dev, pending1. auto.
Qed.

(** C7: applying one allocation, whose winner is the provider [p] at
    position [winner] and whose task is found in the queue of [dev], the
    first device with the identity of the request.  The application returns;
    the winner's available CPU and memory decrease by exactly the demands of
    the task and nothing else of the winner changes; the providers at the
    other positions are untouched; the queue of [dev] loses exactly the first
    task equal to the allocated one, everything else of [dev] and every other
    device is untouched. *)
Theorem allocation_conservation (st : applied) (req : ResourceRequest)
    (winner : nat) (price : Q) (p : EdgeNode.t) (count : Z) (i : nat)
    (dev : IoTDevice.t) (before after : list IoTTask) (x : IoTTask) :
  a_nodes st !! winner = Some p ->
  Dict.get (device_id req) (per_device_allocated st) = Ret count ->
  list_find (fun d => IoTDevice.id d = device_id req) (a_devices st) = Some (i, dev) ->
  first_equal (task req) (IoTDevice.pending_tasks dev) before x after ->
  exists st' p',
    apply_allocation st (req, winner, price) = Ret st'
    (* the winner *)
    /\ a_nodes st' !! winner = Some p'
    /\ r_cpu (EdgeNode.available p') = r_cpu (EdgeNode.available p) - cpu (task req)
    /\ r_memory (EdgeNode.available p')
       = r_memory (EdgeNode.available p) - memory (task req)
    /\ EdgeNode.id p' = EdgeNode.id p
    /\ EdgeNode.capacity p' = EdgeNode.capacity p
    /\ EdgeNode.base_price p' = EdgeNode.base_price p
    /\ EdgeNode.energy_price p' = EdgeNode.energy_price p
    /\ EdgeNode.power_per_cpu p' = EdgeNode.power_per_cpu p
    (* the other providers *)
    /\ length (a_nodes st') = length (a_nodes st)
    /\ (forall j, j <> winner -> a_nodes st' !! j = a_nodes st !! j)
    (* the owning device *)
    /\ a_devices st' !! i
       = Some {| IoTDevice.id := IoTDevice.id dev;
                 IoTDevice.type := IoTDevice.type dev;
                 IoTDevice.energy_budget := IoTDevice.energy_budget dev;
                 IoTDevice.pending_tasks := before ++ after |}
    (* the other devices *)
    /\ length (a_devices st') = length (a_devices st)
    /\ (forall j, j <> i -> a_devices st' !! j = a_devices st !! j).
Proof.
  intros Hp Hc Hfind Hfirst.
  unfold apply_allocation. rewrite Hc. cbn [bind]. rewrite Hfind.
  rewrite (list_remove_spec _ _ _ _ _ Hfirst). cbn [bind].
  apply list_find_Some in Hfind. destruct Hfind as (Hi & _ & _).
  eexists. exists (EdgeNode.allocate p req).
  split; [reflexivity|]. cbn [a_nodes a_devices].
  split; [now rewrite list_lookup_alter_eq, Hp|].
  do 7 (split; [reflexivity|]).
  split; [apply length_alter|].
  split; [intros j Hj; now apply list_lookup_alter_ne|].
  split.
  { rewrite list_lookup_insert_eq; [reflexivity|]. now apply lookup_lt_Some in Hi. }
  split; [apply length_insert|].
  intros j Hj. now apply list_lookup_insert_ne.
Qed.

Lemma allocation_conservation_witness :
  exists st',
    apply_allocation
      {| a_nodes := Scenario.providers; a_devices := [Scenario.device3];
         welfare := 0; per_device_allocated := [(3, 0)]%Z |}
      (Scenario.request3, 1%nat, 0.74)
    = Ret st'
    /\ a_devices st' !! 0%nat = Some (IoTDevice.init 3 "generic").
Proof.
  destruct (allocation_conservation
              {| a_nodes := Scenario.providers; a_devices := [Scenario.device3];
                 welfare := 0; per_device_allocated := [(3, 0)]%Z |}
              Scenario.request3 1 0.74 (EdgeNode.init 1 20 32) 0 0
              Scenario.device3 [] [] Scenario.small_task)
    as (st' & p' & Happ & _ & _ & _ & _ & _ & _ & _ & _ & _ & _ & Hdev & _).
  - reflexivity.
  - reflexivity.
  - reflexivity.
  - split; [reflexivity|]. split; [reflexivity | constructor].
  - exists st'. split; [exact Happ | exact Hdev].
Defined.

(** *** The capacity invariant *)

(** One application keeps the invariant of the winner when the demands of
    the task are non-negative and within what the winner still has. *)
Lemma allocate_preserves_invariant p req :
  capacity_invariant p ->
  0 <= cpu (task req) <= r_cpu (EdgeNode.available p) ->
  0 <= memory (task req) <= r_memory (EdgeNode.available p) ->
  capacity_invariant (EdgeNode.allocate p req).
Proof.
  unfold capacity_invariant. simpl. intros [[? ?] [? ?]] [? ?] [? ?].
  repeat split; lra.
Qed.

(** C1 (the behaviour of the code): one provider with 20 units of CPU and
    four devices whose tasks need 6 units each.  All four requests are costed
    against the availability at the start of the round, all four are awarded
    to the provider and none is rejected, and the loop applies them without
    a second look: the round ends with [available.cpu = -4].  (The
    exponential only enters the bid values, so its quadratic approximation
    serves.) *)
Theorem crowded_round_overdraws :
  Forall capacity_invariant (nodes Scenario.crowded)
  /\ exists devices1 requests allocations sys' m p,
       collect_requests Scenario.exp2 (network Scenario.crowded)
         (nodes Scenario.crowded) (devices Scenario.crowded) Scenario.camera_task
       = Ret (devices1, requests)
       /\ Auctioneer.run requests (nodes Scenario.crowded) (network Scenario.crowded)
          = Ret (allocations, [])
       /\ List.map (fun a : Allocation => snd (fst a)) allocations
          = [0; 0; 0; 0]%nat
       /\ round Scenario.exp2 Scenario.crowded Scenario.camera_task = Ret (sys', m)
       /\ nodes sys' = [p]
       /\ r_cpu (EdgeNode.available p) == -4
       /\ ~ capacity_invariant p.
Proof.
  split.
  - constructor; [|constructor]. vm_compute. repeat split; discriminate.
  - do 6 eexists. split; [vm_compute; reflexivity|].
    split; [vm_compute; reflexivity|]. split; [reflexivity|].
    split; [vm_compute; reflexivity|].
    split; [reflexivity|]. split; [reflexivity|].
    intros [[H _] _]. vm_compute in H. now apply H.
Qed.

End SystemFacts.

(* ------------------------------------------------------------------------- *)
(** ** The stages of a round                                                  *)
(* ------------------------------------------------------------------------- *)

Module RoundFacts.
Import EdgeComputingSystem CostFacts AuctionFacts SystemFacts.





(** The devices after step 1 of a round: each with its new task appended. *)
Definition generated (devices : list IoTDevice.t) (draw : nat -> IoTTask)
    (k : nat) : list IoTDevice.t :=
  List.map (fun idev => fst (IoTDevice.generate_task (snd idev) (draw (fst idev))))
           (combine (seq k (length devices)) devices).

Lemma generated_lookup devices draw : forall k i d,
  devices !! i = Some d ->
  generated devices draw k !! i
  = Some (fst (IoTDevice.generate_task d (draw (k + i)%nat))).
Proof.
  unfold generated. induction devices as [|d0 l IH]; intros k i d Hi; [discriminate|].
  destruct i as [|i]; cbn [length seq combine List.map].
  - injection Hi as ->. now rewrite Nat.add_0_r.
  - cbn in Hi. rewrite lookup_cons_ne_0 by lia. cbn [Nat.pred].
    rewrite (IH (S k) i d Hi).
    now replace (S k + i)%nat with (k + S i)%nat by lia.
Qed.

Lemma collect_requests_from exp g providers draw l : forall k devs reqs out,
  for_each
    (fun st idev =>
       let '(devs, all_requests) := st in
       let dev := fst (IoTDevice.generate_task (snd idev) (draw (fst idev))) in
       reqs <- IoTDevice.build_requests exp dev g providers ;;
       Ret (devs ++ [dev], all_requests ++ reqs))
    (combine (seq k (length l)) l) (devs, reqs) = Ret out ->
  fst out = devs ++ generated l draw k.
Proof.
  induction l as [|d l IH]; intros k devs reqs out H.
  - injection H as <-. unfold generated. simpl. now rewrite app_nil_r.
  - cbn [length seq combine for_each] in H.
    apply PyFacts.bind_Ret_inv in H. destruct H as ([devs1 reqs1] & Hstep & Hrest).
    cbn [fst snd] in Hstep.
    apply PyFacts.bind_Ret_inv in Hstep. destruct Hstep as (rs & _ & [= <- <-]).
    apply IH in Hrest. rewrite Hrest, <- app_assoc. reflexivity.
Qed.

Lemma collect_requests_inv exp g providers devices draw devices1 all_requests :
  collect_requests exp g providers devices draw = Ret (devices1, all_requests) ->
  devices1 = generated devices draw 0.
Proof.
  unfold collect_requests, Auctioneer.enumerate. intros H.
  now apply collect_requests_from in H.
Qed.

(** The stages of a round that returns. *)
Lemma round_inv exp sys draw sys' m :
  round exp sys draw = Ret (sys', m) ->
  exists all_requests allocations rejections st,
    Auctioneer.run all_requests (nodes sys) (network sys) = Ret (allocations, rejections)
    /\ for_each apply_allocation allocations
         {| a_nodes := nodes sys;
            a_devices := generated (devices sys) draw 0;
            welfare := 0.0;
            per_device_allocated :=
              fold_left (fun d dev => Dict.set (IoTDevice.id dev) 0%Z d)
                        (generated (devices sys) draw 0) [] |}
       = Ret st
    /\ sys' = {| network := network sys; nodes := a_nodes st; devices := a_devices st |}
    /\ social_welfare m = welfare st.
Proof.
  unfold round. intros H.
  apply PyFacts.bind_Ret_inv in H. destruct H as ([devices1 all_requests] & Hc & H).
  apply collect_requests_inv in Hc. subst devices1.
  apply PyFacts.bind_Ret_inv in H. destruct H as ([allocations rejections] & Hrun & H).
  apply PyFacts.bind_Ret_inv in H. destruct H as (st & Happ & H).
  apply PyFacts.bind_Ret_inv in H. destruct H as (counts & _ & H).
  apply PyFacts.bind_Ret_inv in H. destruct H as (eff & _ & H).
  apply PyFacts.bind_Ret_inv in H. destruct H as (fair & _ & [= <- <-]).
  exists all_requests, allocations, rejections, st. auto.
Qed.

(** Whenever [build_requests] returns, it returns one request per pending
    task, in order. *)
Lemma build_requests_inv exp self g providers reqs :
  IoTDevice.build_requests exp self g providers = Ret reqs ->
  List.map task reqs = IoTDevice.pending_tasks self
  /\ Forall (fun r => device_id r = IoTDevice.id self) reqs.
Proof.
  unfold IoTDevice.build_requests.
  assert (Hgen : forall l acc out,
    for_each
      (fun requests task =>
         latencies <- IoTDevice.direct_latencies self g providers ;;
         best_latency <- py_min latencies ;;
         let expected_completion := best_latency + cpu task / 10 in
         let energy_cost := best_latency * 0.1 in
         utility <- IoTDevice.utility_for_task exp self task expected_completion
                                               energy_cost ;;
         Ret (requests ++ [{| device_id := IoTDevice.id self; task := task;
                              bid_value := utility |}]))
      l acc = Ret out ->
    Forall (fun r => device_id r = IoTDevice.id self) acc ->
    List.map task out = List.map task acc ++ l
    /\ Forall (fun r => device_id r = IoTDevice.id self) out).
  { induction l as [|t l IH]; intros acc out H Hacc.
    - injection H as <-. now rewrite app_nil_r.
    - cbn [for_each] in H. apply PyFacts.bind_Ret_inv in H.
      destruct H as (acc1 & Hstep & Hrest).
      apply PyFacts.bind_Ret_inv in Hstep. destruct Hstep as (lats & _ & Hstep).
      apply PyFacts.bind_Ret_inv in Hstep. destruct Hstep as (best & _ & Hstep).
      apply PyFacts.bind_Ret_inv in Hstep. destruct Hstep as (u & _ & [= <-]).
      apply IH in Hrest.
      + destruct Hrest as [Hmap Hall]. split; [|exact Hall].
        rewrite Hmap, List.map_app, <- app_assoc. reflexivity.
      + apply Forall_app. split; [exact Hacc|]. now repeat constructor. }
  intros H. apply Hgen in H; [|constructor]. exact H.
Qed.

End RoundFacts.

(* ------------------------------------------------------------------------- *)
(** ** What the bid value can influence                                       *)
(* ------------------------------------------------------------------------- *)

Module Noninterference.
Import EdgeComputingSystem CostFacts AuctionFacts SystemFacts.

(** Two computations agree: both return, with related results, or both
    raise the same exception. *)
Definition py_rel {A} (R : A -> A -> Prop) (c1 c2 : py A) : Prop :=
  match c1, c2 with
  | Ret a1, Ret a2 => R a1 a2
  | Raise e1, Raise e2 => e1 = e2
  | _, _ => False
  end.

(** Two requests that differ at most in [bid_value]. *)
Definition same_but_bid_value (r1 r2 : ResourceRequest) : Prop :=
  device_id r1 = device_id r2 /\ task r1 = task r2.

Definition same_allocation (a1 a2 : Allocation) : Prop :=
  same_but_bid_value (fst (fst a1)) (fst (fst a2))
  /\ snd (fst a1) = snd (fst a2)      (* the winner *)
  /\ snd a1 = snd a2.                 (* the clearing price *)

Definition same_rejection (j1 j2 : Rejection) : Prop :=
  same_but_bid_value (fst j1) (fst j2) /\ snd j1 = snd j2.

Definition same_outcome (o1 o2 : list Allocation * list Rejection) : Prop :=
  Forall2 same_allocation (fst o1) (fst o2)
  /\ Forall2 same_rejection (snd o1) (snd o2).

(** Two states of the application loop that differ at most in [welfare]. *)
Definition same_but_welfare (s1 s2 : applied) : Prop :=
  a_nodes s1 = a_nodes s2
  /\ a_devices s1 = a_devices s2
  /\ per_device_allocated s1 = per_device_allocated s2.

Lemma for_each_rel {A S} (RA : A -> A -> Prop) (RS : S -> S -> Prop)
    (body1 body2 : S -> A -> py S) :
  (forall s1 s2 x1 x2, RS s1 s2 -> RA x1 x2 ->
     py_rel RS (body1 s1 x1) (body2 s2 x2)) ->
  forall l1 l2, Forall2 RA l1 l2 ->
  forall s1 s2, RS s1 s2 -> py_rel RS (for_each body1 l1 s1) (for_each body2 l2 s2).
Proof.
  intros Hbody l1 l2 Hl. induction Hl as [|x1 x2 l1 l2 Hx _ IH]; intros s1 s2 Hs.
  - exact Hs.
  - cbn [for_each]. specialize (Hbody s1 s2 x1 x2 Hs Hx).
    destruct (body1 s1 x1), (body2 s2 x2); cbn in *; try contradiction.
    + now apply IH.
    + exact Hbody.
Qed.

Lemma for_each_ext {A S} (body1 body2 : S -> A -> py S) l :
  (forall s x, body1 s x = body2 s x) ->
  forall s, for_each body1 l s = for_each body2 l s.
Proof.
  intros H. induction l as [|x l IH]; intros s; simpl; [reflexivity|].
  rewrite H. destruct (body2 s x); simpl; [apply IH | reflexivity].
Qed.

Lemma collect_bids_bid_value r1 r2 providers g :
  same_but_bid_value r1 r2 ->
  Auctioneer.collect_bids r1 providers g = Auctioneer.collect_bids r2 providers g.
Proof.
  intros [Hd Ht]. unfold Auctioneer.collect_bids. apply for_each_ext.
  intros bids ip. now rewrite (cost_for_request_bid_value g (snd ip) r1 r2 Hd Ht).
Qed.

Lemma Forall2_snoc {A} (R : A -> A -> Prop) l1 l2 x1 x2 :
  Forall2 R l1 l2 -> R x1 x2 -> Forall2 R (l1 ++ [x1]) (l2 ++ [x2]).
Proof. intros Hl Hx. apply Forall2_app; [exact Hl | now constructor]. Qed.

Lemma run_body_bid_value providers g o1 o2 r1 r2 :
  same_outcome o1 o2 -> same_but_bid_value r1 r2 ->
  py_rel same_outcome (Auctioneer.run_body providers g o1 r1)
                      (Auctioneer.run_body providers g o2 r2).
Proof.
  intros [Ha Hr] Hreq. destruct o1 as [A1 R1], o2 as [A2 R2]. cbn [fst snd] in *.
  unfold Auctioneer.run_body. rewrite (collect_bids_bid_value _ _ _ _ Hreq).
  destruct (Auctioneer.collect_bids r2 providers g) as [bids|e]; cbn [bind py_rel];
    [|reflexivity].
  destruct (length bids <? 1)%nat.
  - split; [exact Ha|]. apply Forall2_snoc; [exact Hr|].
    split; [exact Hreq | reflexivity].
  - destruct (Auctioneer.sort_by_cost bids) as [|[w c] rest]; [reflexivity|].
    split; [|exact Hr]. apply Forall2_snoc; [exact Ha|].
    split; [exact Hreq | split; reflexivity].
Qed.

Lemma apply_allocation_bid_value s1 s2 a1 a2 :
  same_but_welfare s1 s2 -> same_allocation a1 a2 ->
  py_rel same_but_welfare (apply_allocation s1 a1) (apply_allocation s2 a2).
Proof.
  destruct a1 as [[r1 w1] p1], a2 as [[r2 w2] p2].
  intros (Hn & Hd & Hp) ([Hid Ht] & Hw & _). cbn [fst snd] in *. subst w2.
  unfold apply_allocation. rewrite Hn, Hd, Hp, Hid, Ht.
  destruct (Dict.get (device_id r2) (per_device_allocated s2)) as [count|e];
    cbn [bind py_rel]; [|reflexivity].
  destruct (list_find _ _) as [[i dev]|]; [|reflexivity].
  destruct (list_remove (task r2) (IoTDevice.pending_tasks dev)) as [pending1|e];
    cbn [bind py_rel]; [|reflexivity].
  repeat split; cbn. apply list_alter_ext; [|reflexivity].
  intros p _. unfold EdgeNode.allocate. now rewrite Ht.
Qed.

(** The welfare of a round is the sum of [bid_value - clearing_price] over
    the allocations. *)
Lemma welfare_additive allocations : forall st st',
  for_each apply_allocation allocations st = Ret st' ->
  welfare st' == welfare st
                 + Qsum (List.map (fun a : Allocation =>
                                     bid_value (fst (fst a)) - snd a) allocations).
Proof.
  induction allocations as [|[[r w] p] l IH]; intros st st' H.
  - injection H as <-. unfold Qsum. simpl. ring.
  - cbn [for_each] in H. apply PyFacts.bind_Ret_inv in H.
    destruct H as (st1 & Hstep & Hrest).
    apply apply_allocation_inv in Hstep.
    destruct Hstep as (? & ? & ? & ? & _ & _ & _ & ->).
    rewrite (IH _ _ Hrest). cbn [welfare List.map fst snd].
    unfold Qsum. cbn [fold_left].
    rewrite (Fairness.fold_plus_shift _ (0 + _)). ring.
Qed.

(** C9: two batches that differ at most in the bid values are cleared alike
    (the same winners, prices and rejections, or the same exception); the
    application of two such lists of allocations leaves the same providers,
    devices and per-device counts (or raises the same exception); and
    the bid values enter the welfare, which is the sum of
    [bid_value - clearing_price] over the applied allocations. *)
Theorem bid_value_noninterference (requests1 requests2 : list ResourceRequest)
    (providers : list EdgeNode.t) (network : nx.Graph) :
  Forall2 same_but_bid_value requests1 requests2 ->
  py_rel same_outcome (Auctioneer.run requests1 providers network)
                      (Auctioneer.run requests2 providers network)
  /\ (forall allocations1 allocations2 st1 st2,
        Forall2 same_allocation allocations1 allocations2 ->
        same_but_welfare st1 st2 ->
        py_rel same_but_welfare
          (for_each apply_allocation allocations1 st1)
          (for_each apply_allocation allocations2 st2))
  /\ (forall allocations st st',
        for_each apply_allocation allocations st = Ret st' ->
        welfare st' == welfare st
                       + Qsum (List.map (fun a : Allocation =>
                                           bid_value (fst (fst a)) - snd a)
                                        allocations)).
Proof.
  intros Hreqs. split; [|split].
  - unfold Auctioneer.run.
    apply (for_each_rel same_but_bid_value same_outcome); [|exact Hreqs|].
    + intros; now apply run_body_bid_value.
    + split; constructor.
  - intros A1 A2 st1 st2 HA Hst.
    apply (for_each_rel same_allocation same_but_welfare); [|exact HA|exact Hst].
    intros; now apply apply_allocation_bid_value.
  - apply welfare_additive.
Qed.

Lemma bid_value_noninterference_witness :
  py_rel same_outcome
    (Auctioneer.run [Scenario.request3] Scenario.providers Scenario.topology)
    (Auctioneer.run [{| device_id := 3; task := Scenario.small_task; bid_value := 0 |}]
                    Scenario.providers Scenario.topology).
Proof.
  refine (proj1 (bid_value_noninterference
                   [Scenario.request3]
                   [{| device_id := 3; task := Scenario.small_task; bid_value := 0 |}]
                   Scenario.providers Scenario.topology _)).
  constructor; [|constructor]. split; reflexivity.
Defined.

End Noninterference.

(* ------------------------------------------------------------------------- *)
(** ** Paths in the topology                                                  *)
(* ------------------------------------------------------------------------- *)

Module GraphFacts.
Import nx.

(** [walk g u p v d]: following the edges of [g] from [u] through the nodes
    of [p], in order, ends in [v]; the weights of the edges add up to [d]. *)
Inductive walk (g : Graph) : Z -> list Z -> Z -> Q -> Prop :=
| walk_here u : walk g u [] u 0
| walk_step u x p v w d :
    find_edge g u x = Some w -> walk g x p v d -> walk g u (x :: p) v (w + d).

Definition connected (g : Graph) (u v : Z) : Prop :=
  exists p d, walk g u p v d.

Definition nonneg_weights (g : Graph) : Prop :=
  Forall (fun e : Z * Z * Q => 0 <= snd e) (edges g).

Lemma find_edge_In g u v w :
  find_edge g u v = Some w ->
  exists a b, In (a, b, w) (edges g) /\ joins u v (a, b, w) = true.
Proof.
  unfold find_edge. destruct (List.find (joins u v) (edges g)) as [[[a b] w']|] eqn:Hf;
    [|discriminate].
  intros [= ->]. apply find_some in Hf. exists a, b. exact Hf.
Qed.

Lemma find_edge_nonneg g u v w :
  nonneg_weights g -> find_edge g u v = Some w -> 0 <= w.
Proof.
  intros Hnn He. apply find_edge_In in He. destruct He as (a & b & Hin & _).
  unfold nonneg_weights in Hnn. rewrite List.Forall_forall in Hnn.
  exact (Hnn _ Hin).
Qed.

Lemma In_node_list g n :
  In n (node_list g) <->
  In n (nodes g) \/ exists a b w, In (a, b, w) (edges g) /\ (n = a \/ n = b).
Proof.
  unfold node_list. rewrite nodup_In, in_app_iff, in_flat_map. split.
  - intros [H|([[a b] w] & Hin & Hn)]; [now left|]. right. exists a, b, w.
    split; [exact Hin|]. destruct Hn as [<-|[<-|[]]]; auto.
  - intros [H|(a & b & w & Hin & Hn)]; [now left|]. right. exists (a, b, w).
    split; [exact Hin|]. destruct Hn as [ -> | -> ]; [now left | right; now left].
Qed.

(** The two ends of an edge are nodes of the graph. *)
Lemma find_edge_nodes g u v w :
  find_edge g u v = Some w -> In u (node_list g) /\ In v (node_list g).
Proof.
  intros He. apply find_edge_In in He. destruct He as (a & b & Hin & Hj).
  unfold joins in Hj. rewrite orb_true_iff, !andb_true_iff, !Z.eqb_eq in Hj.
  split; apply In_node_list; right; exists a, b, w; split; auto;
    destruct Hj as [ [ -> -> ] | [ -> -> ] ]; auto.
Qed.

Lemma has_node_In g n : has_node g n = true <-> In n (node_list g).
Proof.
  unfold has_node. rewrite existsb_exists. split.
  - intros (x & Hx & Heq). apply Z.eqb_eq in Heq. now subst.
  - intros H. exists n. split; [exact H | apply Z.eqb_refl].
Qed.

Lemma In_adj g u x w :
  In (x, w) (adj g u) <-> In x (node_list g) /\ find_edge g u x = Some w.
Proof.
  unfold adj. rewrite in_flat_map. split.
  - intros (y & Hy & Hin). destruct (find_edge g u y) as [w'|] eqn:He; [|destruct Hin].
    destruct Hin as [[= <- <-]|[]]. auto.
  - intros [Hx He]. exists x. split; [exact Hx|]. rewrite He. now left.
Qed.

(** *** The least of a list of optional distances *)

Lemma opt_min_fold_None here cands :
  fold_right opt_min here cands = None <->
  here = None /\ forall c, In c cands -> c = None.
Proof.
  induction cands as [|c cands IH]; simpl.
  - split; [intros ->; split; [reflexivity | intros ? []] | now intros [-> _]].
  - destruct c as [x|]; simpl.
    + split.
      * destruct (fold_right opt_min here cands); discriminate.
      * intros [_ H]. specialize (H (Some x) (or_introl eq_refl)). discriminate.
    + rewrite IH. split.
      * intros [-> H]. split; [reflexivity|]. intros c [<-|Hc]; auto.
      * intros [-> H]. split; [reflexivity|]. intros c Hc. apply H. now right.
Qed.

Lemma opt_min_fold_Some here cands m :
  fold_right opt_min here cands = Some m ->
  (here = Some m \/ In (Some m) cands)
  /\ forall d, here = Some d \/ In (Some d) cands -> m <= d.
Proof.
  revert m. induction cands as [|c cands IH]; simpl; intros m H.
  - split; [now left|]. intros d [Hd|[]]. rewrite H in Hd. injection Hd as <-. lra.
  - destruct (fold_right opt_min here cands) as [y|] eqn:Hrest.
    + destruct (IH y eq_refl) as [Hin Hmin].
      destruct c as [x|]; simpl in H.
      * destruct (Float.ltb y x) eqn:Hlt; injection H as <-.
        -- apply FloatFacts.ltb_lt in Hlt. split.
           ++ destruct Hin; auto.
           ++ intros d [Hd|[[= <-]|Hd]]; [apply Hmin; auto | lra | apply Hmin; auto].
        -- apply FloatFacts.ltb_ge in Hlt. split; [right; now left|].
           intros d [Hd|[[= <-]|Hd]].
           ++ specialize (Hmin d (or_introl Hd)). lra.
           ++ lra.
           ++ specialize (Hmin d (or_intror Hd)). lra.
      * injection H as <-. split.
        -- destruct Hin; auto.
        -- intros d [Hd|[Hd|Hd]]; [apply Hmin; auto | discriminate | apply Hmin; auto].
    + apply opt_min_fold_None in Hrest. destruct Hrest as [-> Hnone].
      destruct c as [x|]; simpl in H; [|discriminate]. injection H as <-.
      split; [right; now left|].
      intros d [Hd|[[= <-]|Hd]]; [discriminate | lra |].
      apply Hnone in Hd. discriminate.
Qed.

(** *** [walk_dist] is the least weight of a walk of bounded length *)

Lemma walk_dist_here g k u : exists d, walk_dist g k u u = Some d.
Proof.
  destruct k; simpl; rewrite Z.eqb_refl; [eauto|].
  destruct (fold_right opt_min (Some 0) _) as [d|] eqn:H; [eauto|].
  apply opt_min_fold_None in H. destruct H. discriminate.
Qed.

Lemma walk_dist_sound g k : forall u v d,
  walk_dist g k u v = Some d -> exists p, walk g u p v d /\ (length p <= k)%nat.
Proof.
  induction k as [|k IH]; intros u v d H.
  - simpl in H. destruct (Z.eqb_spec u v) as [->|]; [|discriminate].
    injection H as <-. exists []. split; [constructor | reflexivity].
  - cbn [walk_dist] in H. apply opt_min_fold_Some in H. destruct H as [[H|H] _].
    + destruct (Z.eqb_spec u v) as [->|]; [|discriminate].
      injection H as <-. exists []. split; [constructor | simpl; lia].
    + apply in_map_iff in H. destruct H as ([x w] & Hd & Hin). cbn [fst snd] in Hd.
      apply In_adj in Hin. destruct Hin as [_ He].
      destruct (walk_dist g k x v) as [d'|] eqn:Hk; [|discriminate].
      injection Hd as <-. destruct (IH _ _ _ Hk) as (p & Hp & Hlen).
      exists (x :: p). split; [now constructor | simpl; lia].
Qed.

Lemma walk_dist_complete g u p v d :
  walk g u p v d ->
  forall k, (length p <= k)%nat -> exists d0, walk_dist g k u v = Some d0 /\ d0 <= d.
Proof.
  induction 1 as [u|u x p v w d He Hw IH]; intros k Hk.
  - destruct k; simpl; rewrite Z.eqb_refl.
    + exists 0. split; [reflexivity | lra].
    + destruct (fold_right opt_min (Some 0) _) as [m|] eqn:Hm.
      * exists m. split; [reflexivity|].
        apply opt_min_fold_Some in Hm. apply Hm. now left.
      * apply opt_min_fold_None in Hm. destruct Hm. discriminate.
  - destruct k as [|k]; [simpl in Hk; lia|].
    destruct (IH k) as (d1 & Hd1 & Hle); [simpl in Hk; lia|].
    assert (Hcand : In (Some (w + d1))
              (List.map (fun xw => option_map (Qplus (snd xw))
                                     (walk_dist g k (fst xw) v)) (adj g u))).
    { apply in_map_iff. exists (x, w). cbn [fst snd]. rewrite Hd1. split; [reflexivity|].
      apply In_adj. split; [|exact He]. now apply find_edge_nodes in He. }
    cbn [walk_dist].
    destruct (fold_right opt_min _ _) as [m|] eqn:Hm.
    + exists m. split; [reflexivity|].
      apply opt_min_fold_Some in Hm. destruct Hm as [_ Hmin].
      specialize (Hmin (w + d1) (or_intror Hcand)). lra.
    + apply opt_min_fold_None in Hm. destruct Hm as [_ Hnone].
      apply Hnone in Hcand. discriminate.
Qed.

(** *** Walks that visit no node twice *)

Lemma walk_weight_nonneg g u p v d :
  nonneg_weights g -> walk g u p v d -> 0 <= d.
Proof.
  intros Hnn. induction 1 as [|u x p v w d He _ IH]; [lra|].
  pose proof (find_edge_nonneg _ _ _ _ Hnn He). lra.
Qed.

Lemma walk_nodes g u p v d :
  walk g u p v d -> p <> [] -> forall y, In y (u :: p) -> In y (node_list g).
Proof.
  induction 1 as [|u x p v w d He Hw IH]; intros Hne y Hy; [congruence|].
  destruct (find_edge_nodes _ _ _ _ He) as [Hu Hx].
  destruct Hy as [<-|Hy]; [exact Hu|].
  destruct p as [|x' p].
  - destruct Hy as [<-|[]]. exact Hx.
  - apply IH; [discriminate | exact Hy].
Qed.

(** From any node on a walk, the rest of the walk. *)
Lemma walk_suffix g u p v d y :
  walk g u p v d -> In y p ->
  exists q e, walk g y q v e /\ (length q < length p)%nat /\ incl q p
              /\ (nonneg_weights g -> e <= d).
Proof.
  induction 1 as [|u x p v w d He Hw IH]; intros Hy; [destruct Hy|].
  destruct (Z.eq_dec y x) as [->|Hne].
  - exists p, d. split; [exact Hw|]. split; [simpl; lia|].
    split; [apply incl_tl, incl_refl|].
    intros Hnn. pose proof (find_edge_nonneg _ _ _ _ Hnn He). lra.
  - destruct Hy as [Hy|Hy]; [congruence|].
    destruct (IH Hy) as (q & e & Hq & Hlen & Hincl & Hle).
    exists q, e. split; [exact Hq|]. split; [simpl; lia|].
    split; [now apply incl_tl|].
    intros Hnn. specialize (Hle Hnn).
    pose proof (find_edge_nonneg _ _ _ _ Hnn He). lra.
Qed.

(** Cutting the loops out of a walk: the result is not heavier when no
    weight is negative. *)
Lemma walk_simple g : forall n u p v d,
  (length p <= n)%nat -> walk g u p v d ->
  exists q e, walk g u q v e /\ List.NoDup (u :: q) /\ incl q p
              /\ (nonneg_weights g -> e <= d).
Proof.
  induction n as [|n IH]; intros u p v d Hlen Hw.
  - destruct Hw as [u|u x p v w d He Hw]; [|simpl in Hlen; lia].
    exists [], 0. split; [constructor|]. split; [repeat constructor; intros []|].
    split; [apply incl_refl | intros; lra].
  - destruct (in_dec Z.eq_dec u p) as [Hin|Hnotin].
    + destruct (walk_suffix _ _ _ _ _ _ Hw Hin) as (q & e & Hq & Hlt & Hincl & Hle).
      destruct (IH u q v e) as (q' & e' & Hq' & Hnd & Hincl' & Hle'); [lia | exact Hq |].
      exists q', e'. split; [exact Hq'|]. split; [exact Hnd|].
      split; [eapply incl_tran; eassumption|].
      intros Hnn. specialize (Hle Hnn). specialize (Hle' Hnn). lra.
    + destruct Hw as [u|u x p v w d He Hw].
      * exists [], 0. split; [constructor|]. split; [repeat constructor; intros []|].
        split; [apply incl_refl | intros; lra].
      * destruct (IH x p v d) as (q & e & Hq & Hnd & Hincl & Hle);
          [simpl in Hlen; lia | exact Hw |].
        exists (x :: q), (w + e). split; [now constructor|].
        split.
        { constructor; [|exact Hnd]. intros [<-|Hu].
          - apply Hnotin. now left.
          - apply Hnotin. right. now apply Hincl. }
        split.
        { intros y [<-|Hy]; [now left | right; now apply Hincl]. }
        intros Hnn. specialize (Hle Hnn). lra.
Qed.

(** A walk without repetition has fewer nodes than the graph. *)
Lemma simple_walk_short g u q v e :
  walk g u q v e -> List.NoDup (u :: q) -> (length q <= length (node_list g))%nat.
Proof.
  intros Hw Hnd. destruct q as [|x q]; [simpl; lia|].
  assert (Hincl : incl (u :: x :: q) (node_list g)).
  { intros y Hy. eapply walk_nodes; [exact Hw | discriminate | exact Hy]. }
  pose proof (List.NoDup_incl_length Hnd Hincl) as Hlen. simpl in Hlen |- *. lia.
Qed.

(** *** The query *)

(** [shortest_path_length] for a source in the graph: it raises
    [NetworkXNoPath] exactly when no walk joins the two nodes, and otherwise
    returns the weight of a walk, which no walk undercuts when no weight is
    negative. *)
Lemma shortest_path_length_spec g u v :
  has_node g u = true ->
  (shortest_path_length g u v = Raise NetworkXNoPath <-> ~ connected g u v)
  /\ (connected g u v ->
      exists dist, shortest_path_length g u v = Ret dist
        /\ (exists p, walk g u p v dist)
        /\ (nonneg_weights g -> forall p d, walk g u p v d -> dist <= d)).
Proof.
  intros Hnode. unfold shortest_path_length. rewrite Hnode. cbn [negb].
  assert (Hcomplete : forall p d, walk g u p v d ->
            exists d0, walk_dist g (length (node_list g)) u v = Some d0
                       /\ (nonneg_weights g -> d0 <= d)).
  { intros p d Hw.
    destruct (walk_simple g (length p) u p v d (le_n _) Hw)
      as (q & e & Hq & Hnd & _ & Hle).
    pose proof (simple_walk_short _ _ _ _ _ Hq Hnd) as Hlen.
    destruct (walk_dist_complete _ _ _ _ _ Hq _ Hlen) as (d0 & Hd0 & Hle0).
    exists d0. split; [exact Hd0|]. intros Hnn. specialize (Hle Hnn). lra. }
  split.
  - split.
    + intros H (p & d & Hw). destruct (Hcomplete p d Hw) as (d0 & Hd0 & _).
      rewrite Hd0 in H. discriminate.
    + intros Hnc. destruct (walk_dist g _ u v) as [d|] eqn:Hd; [|reflexivity].
      exfalso. apply Hnc. apply walk_dist_sound in Hd. destruct Hd as (p & Hp & _).
      now exists p, d.
  - intros (p & d & Hw). destruct (Hcomplete p d Hw) as (d0 & Hd0 & _).
    rewrite Hd0. exists d0. split; [reflexivity|]. split.
    + apply walk_dist_sound in Hd0. destruct Hd0 as (q & Hq & _). now exists q.
    + intros Hnn p' d' Hw'. destruct (Hcomplete p' d' Hw') as (d1 & Hd1 & Hle).
      rewrite Hd0 in Hd1. injection Hd1 as <-. now apply Hle.
Qed.

End GraphFacts.

(* ------------------------------------------------------------------------- *)
(** ** The cost model                                                         *)
(* ------------------------------------------------------------------------- *)

Module CostModel.
Import EdgeNode CostFacts GraphFacts.

(** The communication distance of the cost model: the weight of the direct
    edge when there is one, else the least weight of a path. *)
Definition distance_between (g : nx.Graph) (u v : Z) (dist : Q) : Prop :=
  match nx.find_edge g u v with
  | Some w => dist = w
  | None => (exists p, walk g u p v dist)
            /\ forall p d, walk g u p v d -> dist <= d
  end.

Definition nonneg_prices (p : EdgeNode.t) : Prop :=
  0 <= r_cpu (base_price p) /\ 0 <= r_memory (base_price p)
  /\ 0 <= energy_price p /\ 0 <= power_per_cpu p.

(** The cost as the specification writes it. *)
Definition cost_formula (p : EdgeNode.t) (req : ResourceRequest) (distance : Q) : Q :=
  let base := cpu (task req) * r_cpu (base_price p)
              + memory (task req) * r_memory (base_price p) in
  let load := 1 - r_cpu (available p) / r_cpu (capacity p) in
  base * (1 + load ^ 2)
  + cpu (task req) * power_per_cpu p * energy_price p
  + distance * 0.1.

(** The three ways out of [cost_for_request] on a well-formed provider. *)
Lemma cost_for_request_cases g p req :
  well_formed g p ->
  cost_for_request p req g =
  if Float.ltb (r_cpu (available p)) (cpu (task req))
     || Float.ltb (r_memory (available p)) (memory (task req))
  then Ret None
  else match nx.find_edge g (id p) (device_id req) with
       | Some w => Ret (Some (cost_formula p req w))
       | None =>
           match nx.walk_dist g (length (nx.node_list g)) (id p) (device_id req) with
           | Some d => Ret (Some (cost_formula p req d))
           | None => Ret None
           end
       end.
Proof.
  intros [Hcap Hnode]. unfold cost_for_request.
  destruct (_ || _); [reflexivity|].
  unfold py_div. apply FloatFacts.eqb_neq in Hcap. rewrite Hcap. cbn [bind].
  unfold nx.has_edge, nx.weight, nx.shortest_path_length. rewrite Hnode. cbn [negb].
  destruct (nx.find_edge g (id p) (device_id req)); [reflexivity|].
  destruct (nx.walk_dist _ _ _ _); reflexivity.
Qed.

Lemma direct_edge_connected g u v w :
  nx.find_edge g u v = Some w -> connected g u v.
Proof.
  intros He. exists [v], (w + 0). constructor; [exact He | constructor].
Qed.

(** C5: a well-formed provider in a topology without negative weights.
    [cost_for_request] refuses exactly when the CPU demand exceeds the
    available CPU, or the memory demand the available memory, or no path
    joins the provider and the device; otherwise it returns
    [base * (1 + load^2) + cpu * power_per_cpu * energy_price + distance * 0.1],
    the distance being the weight of the direct edge when there is one and
    the least weight of a path otherwise; and with positive demands (and the
    non-negative prices every provider is created with) the cost is never
    negative. *)
Theorem cost_model (p : EdgeNode.t) (req : ResourceRequest) (g : nx.Graph) :
  well_formed g p ->
  nonneg_weights g ->
  let refuses :=
    r_cpu (available p) < cpu (task req)
    \/ r_memory (available p) < memory (task req)
    \/ ~ connected g (id p) (device_id req) in
  (cost_for_request p req g = Ret None <-> refuses)
  /\ (~ refuses ->
      exists distance,
        distance_between g (id p) (device_id req) distance
        /\ cost_for_request p req g = Ret (Some (cost_formula p req distance)))
  /\ (0 < cpu (task req) -> 0 < memory (task req) -> nonneg_prices p ->
      forall c, cost_for_request p req g = Ret (Some c) -> 0 <= c).
Proof.
  intros Hwf Hnn refuses. subst refuses.
  rewrite (cost_for_request_cases g p req Hwf).
  destruct Hwf as [_ Hnode].
  destruct (shortest_path_length_spec g (id p) (device_id req) Hnode) as [Hno Hyes].
  unfold nx.shortest_path_length in Hno, Hyes. rewrite Hnode in Hno, Hyes.
  cbn [negb] in Hno, Hyes.
  assert (Hpos : forall d, 0 <= d -> 0 < cpu (task req) -> 0 < memory (task req) ->
                 nonneg_prices p -> 0 <= cost_formula p req d).
  { intros d Hd Hc Hm (Hbc & Hbm & He & Hpw). unfold cost_formula.
    set (load := 1 - _ / _).
    assert (0 <= load ^ 2) by apply Fairness.sq_nonneg.
    assert (0 <= cpu (task req) * r_cpu (base_price p)) by nra.
    assert (0 <= memory (task req) * r_memory (base_price p)) by nra.
    assert (0 <= cpu (task req) * power_per_cpu p) by nra.
    assert (0 <= cpu (task req) * power_per_cpu p * energy_price p) by nra.
    assert (0 <= (cpu (task req) * r_cpu (base_price p)
                  + memory (task req) * r_memory (base_price p)) * (1 + load ^ 2))
      by nra.
    lra. }
  destruct (Float.ltb (r_cpu (available p)) (cpu (task req))) eqn:Hc;
    [|destruct (Float.ltb (r_memory (available p)) (memory (task req))) eqn:Hm];
    cbn [orb].
  - apply FloatFacts.ltb_lt in Hc. split; [|split].
    + split; [intros _; now left | reflexivity].
    + intros H. exfalso. apply H. now left.
    + intros _ _ _ c [=].
  - apply FloatFacts.ltb_lt in Hm. split; [|split].
    + split; [intros _; right; now left | reflexivity].
    + intros H. exfalso. apply H. right. now left.
    + intros _ _ _ c [=].
  - apply FloatFacts.ltb_ge in Hc, Hm.
    destruct (nx.find_edge g (id p) (device_id req)) as [w|] eqn:He.
    + pose proof (direct_edge_connected _ _ _ _ He) as Hconn.
      split; [|split].
      * split; [discriminate|]. intros [H|[H|H]]; [lra | lra | contradiction].
      * intros _. exists w. split; [|reflexivity].
        unfold distance_between. now rewrite He.
      * intros Hcp Hmp Hpr c [= <-]. apply Hpos; auto.
        now apply (find_edge_nonneg g (id p) (device_id req)).
    + destruct (nx.walk_dist g _ (id p) (device_id req)) as [d|] eqn:Hd.
      * assert (Hconn : connected g (id p) (device_id req)).
        { apply walk_dist_sound in Hd. destruct Hd as (q & Hq & _). now exists q, d. }
        split; [|split].
        -- split; [discriminate|]. intros [H|[H|H]]; [lra | lra | contradiction].
        -- intros _. destruct (Hyes Hconn) as (dist & [= <-] & Hwalk & Hleast).
           exists d. split; [|reflexivity].
           unfold distance_between. rewrite He. split; [exact Hwalk | now apply Hleast].
        -- intros Hcp Hmp Hpr c [= <-]. apply Hpos; auto.
           destruct (Hyes Hconn) as (dist & [= <-] & (q & Hq) & _).
           now apply (walk_weight_nonneg g _ _ _ _ Hnn Hq).
      * assert (Hnc : ~ connected g (id p) (device_id req)) by now apply Hno.
        split; [|split].
        -- split; [intros _; right; now right | reflexivity].
        -- intros H. exfalso. apply H. right. now right.
        -- intros _ _ _ c [=].
Qed.

Lemma cost_model_witness :
  exists distance,
    distance_between Scenario.topology 2 3 distance
    /\ cost_for_request (EdgeNode.init 2 20 32) Scenario.request3 Scenario.topology
       = Ret (Some (cost_formula (EdgeNode.init 2 20 32) Scenario.request3 distance)).
Proof.
  destruct (cost_model (EdgeNode.init 2 20 32) Scenario.request3 Scenario.topology)
    as (_ & H & _).
  - split; [intros E; vm_compute in E; discriminate E | reflexivity].
  - repeat constructor; vm_compute; intros E; discriminate E.
  - apply H. intros [E|[E|E]].
    + vm_compute in E. discriminate E.
    + vm_compute in E. discriminate E.
    + apply E. exists [1; 3]%Z, (2.0 + (0.5 + 0)).
      apply walk_step; [reflexivity|]. apply walk_step; [reflexivity|]. constructor.
Defined.

End CostModel.

(* ------------------------------------------------------------------------- *)
(** ** A round on a well-formed system returns                                *)
(* ------------------------------------------------------------------------- *)

Module Liveness.
Import EdgeComputingSystem CostFacts AuctionFacts SystemFacts RoundFacts.

(** No task of the list is equal to a later one. *)
Fixpoint distinct_tasks (l : list IoTTask) : Prop :=
  match l with
  | [] => True
  | t :: l' => (forall t', In t' l' -> task_eqb t' t = false) /\ distinct_tasks l'
  end.

(** The device and the task of a request. *)
Definition key (r : ResourceRequest) : Z * IoTTask := (device_id r, task r).

(** No two entries for the same device carry equal tasks. *)
Fixpoint distinct_keys (l : list (Z * IoTTask)) : Prop :=
  match l with
  | [] => True
  | (z, t) :: l' => (forall t', In (z, t') l' -> task_eqb t' t = false)
                    /\ distinct_keys l'
  end.

Lemma task_eqb_refl t : task_eqb t t = true.
Proof.
  unfold task_eqb. rewrite String.eqb_refl, Z.eqb_refl, !andb_true_r.
  rewrite !andb_true_iff. repeat split; apply FloatFacts.eqb_eq; reflexivity.
Qed.

(** [remove] finds a task that is in the list. *)
Lemma list_remove_In t l : In t l -> exists l', list_remove t l = Ret l'.
Proof.
  induction l as [|x l IH]; intros Hin; [destruct Hin|]. simpl.
  destruct (task_eqb x t) eqn:Hx; [eauto|].
  destruct Hin as [->|Hin]; [rewrite task_eqb_refl in Hx; discriminate|].
  destruct (IH Hin) as [l' ->]. simpl. eauto.
Qed.

Lemma dict_get_set z k v d :
  (exists c, Dict.get z d = Ret c) -> exists c, Dict.get z (Dict.set k v d) = Ret c.
Proof.
  induction d as [|[k' v'] d IH]; simpl; intros [c Hc]; [discriminate|].
  destruct (Z.eqb_spec k' k) as [->|Hne]; simpl.
  - destruct (Z.eqb_spec k z); eauto.
  - destruct (Z.eqb_spec k' z); eauto.
Qed.

(** The state of the application loop and the allocations still to apply. *)
Record ready (st : applied) (todo : list Allocation) : Prop := {
  ready_ids : NoDup (IoTDevice.id <$> a_devices st);
  ready_counts : forall d, d ∈ a_devices st ->
                   exists c, Dict.get (IoTDevice.id d) (per_device_allocated st) = Ret c;
  ready_pending : forall a, In a todo ->
                    exists i d, a_devices st !! i = Some d
                                /\ IoTDevice.id d = device_id (fst (fst a))
                                /\ In (task (fst (fst a))) (IoTDevice.pending_tasks d);
  ready_distinct : distinct_keys (List.map (fun a : Allocation => key (fst (fst a))) todo)
}.

Lemma apply_allocation_ready st a todo :
  ready st (a :: todo) -> exists st', apply_allocation st a = Ret st' /\ ready st' todo.
Proof.
  intros [Hids Hcounts Hpending Hdistinct]. destruct a as [[r w] price].
  destruct (Hpending _ (or_introl eq_refl)) as (i & d & Hi & Hid & Hin).
  cbn [fst] in Hid, Hin.
  assert (Hd : d ∈ a_devices st) by (eapply list_elem_of_lookup_2; exact Hi).
  destruct (Hcounts d Hd) as [count Hcount]. rewrite Hid in Hcount.
  destruct (list_find_elem_of (fun d => IoTDevice.id d = device_id r) _ d Hd Hid)
    as [[j dev] Hfind].
  pose proof Hfind as Hfind'. apply list_find_Some in Hfind'.
  destruct Hfind' as (Hj & Hjid & _).
  assert (j = i).
  { apply (NoDup_lookup _ j i (device_id r) Hids); rewrite list_lookup_fmap.
    - now rewrite Hj, <- Hjid.
    - now rewrite Hi, <- Hid. }
  subst j. rewrite Hi in Hj. injection Hj as <-.
  destruct (list_remove_In _ _ Hin) as [pending1 Hrem].
  unfold apply_allocation. rewrite Hcount. cbn [bind]. rewrite Hfind, Hrem. cbn [bind].
  eexists. split; [reflexivity|].
  cbn in Hdistinct. destruct Hdistinct as [Hhead Htail].
  constructor; cbn [a_nodes a_devices per_device_allocated].
  - rewrite list_fmap_insert. cbn. rewrite list_insert_id; [exact Hids|].
    now rewrite list_lookup_fmap, Hi.
  - intros d' Hd'. apply dict_get_set.
    apply list_elem_of_lookup in Hd'. destruct Hd' as [k Hk].
    destruct (Nat.eq_dec k i) as [->|Hne].
    + rewrite list_lookup_insert_eq in Hk by now apply lookup_lt_Some in Hi.
      injection Hk as <-. cbn. now apply Hcounts.
    + rewrite list_lookup_insert_ne in Hk by congruence.
      apply Hcounts. eapply list_elem_of_lookup_2; exact Hk.
  - intros a' Ha'. destruct (Hpending a' (or_intror Ha')) as (k & d' & Hk & Hkid & Hkin).
    destruct (Nat.eq_dec k i) as [->|Hne].
    + rewrite Hi in Hk. injection Hk as <-.
      exists i. eexists. split.
      * apply list_lookup_insert_eq. now apply lookup_lt_Some in Hi.
      * cbn. split; [exact Hkid|].
        apply (list_remove_keeps _ _ _ _ Hrem Hkin).
        apply Hhead. apply in_map_iff. exists a'. split; [|exact Ha'].
        unfold key. now rewrite <- Hkid, Hid.
    + exists k, d'. split; [|split; assumption].
      rewrite list_lookup_insert_ne by congruence. exact Hk.
  - exact Htail.
Qed.

(** The application loop returns, and the per-device counts remain defined. *)
Lemma apply_allocations_ready todo : forall st,
  ready st todo -> exists st', for_each apply_allocation todo st = Ret st' /\ ready st' [].
Proof.
  induction todo as [|a todo IH]; intros st Hr.
  - exists st. split; [reflexivity | exact Hr].
  - destruct (apply_allocation_ready _ _ _ Hr) as (st1 & Hstep & Hr1).
    cbn [for_each]. rewrite Hstep. cbn [bind]. now apply IH.
Qed.

(** *** The requests of a round *)

Definition has_direct_provider (g : nx.Graph) (providers : list EdgeNode.t)
    (d : IoTDevice.t) : Prop :=
  exists p, In p providers /\ nx.has_edge g (IoTDevice.id d) (EdgeNode.id p) = true.

(** The keys of the requests a list of devices builds: one per pending task. *)
Definition keys_of (devices : list IoTDevice.t) : list (Z * IoTTask) :=
  flat_map (fun d => List.map (pair (IoTDevice.id d)) (IoTDevice.pending_tasks d))
           devices.

Lemma build_requests_returns exp self g providers :
  has_direct_provider g providers self ->
  (forall t, In t (IoTDevice.pending_tasks self) -> ~ deadline t == 0) ->
  exists reqs, IoTDevice.build_requests exp self g providers = Ret reqs.
Proof.
  intros (p & Hp & He) Hd.
  assert (Hne : BidFacts.latencies self g providers <> []).
  { unfold nx.has_edge in He.
    destruct (nx.find_edge g (IoTDevice.id self) (EdgeNode.id p)) as [w|] eqn:Hw;
      [|discriminate].
    intros E. assert (Hin : In w (BidFacts.latencies self g providers))
      by (apply BidFacts.In_latencies; eauto).
    now rewrite E in Hin. }
  destruct (BidFacts.py_min_spec _ Hne) as (best & Hmin & _).
  unfold IoTDevice.build_requests.
  rewrite (BidFacts.build_requests_loop exp _ _ _ _ _ Hmin Hd). eauto.
Qed.

Lemma build_requests_keys exp self g providers reqs :
  IoTDevice.build_requests exp self g providers = Ret reqs ->
  List.map key reqs
  = List.map (pair (IoTDevice.id self)) (IoTDevice.pending_tasks self).
Proof.
  intros H. apply build_requests_inv in H. destruct H as [Hmap Hall].
  rewrite <- Hmap. clear Hmap. induction Hall as [|r l Hr _ IH]; [reflexivity|].
  cbn [List.map]. rewrite IH. unfold key. now rewrite Hr.
Qed.

Lemma collect_requests_returns_from exp g providers draw l : forall k devs reqs,
  (forall i d, l !! i = Some d ->
     exists rs, IoTDevice.build_requests exp
                  (fst (IoTDevice.generate_task d (draw (k + i)%nat))) g providers
                = Ret rs) ->
  exists more,
    for_each
      (fun st idev =>
         let '(devs, all_requests) := st in
         let dev := fst (IoTDevice.generate_task (snd idev) (draw (fst idev))) in
         reqs <- IoTDevice.build_requests exp dev g providers ;;
         Ret (devs ++ [dev], all_requests ++ reqs))
      (combine (seq k (length l)) l) (devs, reqs)
    = Ret (devs ++ generated l draw k, reqs ++ more)
    /\ List.map key more = keys_of (generated l draw k).
Proof.
  induction l as [|d l IH]; intros k devs reqs Hret.
  - exists []. split; [|reflexivity]. unfold generated. simpl. now rewrite !app_nil_r.
  - destruct (Hret 0%nat d eq_refl) as [rs Hrs]. rewrite Nat.add_0_r in Hrs.
    destruct (IH (S k) (devs ++ [fst (IoTDevice.generate_task d (draw k))])
                 (reqs ++ rs)) as (more & Hmore & Hkeys).
    { intros i d' Hi. destruct (Hret (S i) d' Hi) as [rs' Hrs'].
      exists rs'. now replace (S k + i)%nat with (k + S i)%nat by lia. }
    exists (rs ++ more). split.
    + set (body := fun (st : list IoTDevice.t * list ResourceRequest)
                       (idev : nat * IoTDevice.t) => _) in *.
      assert (Hhead : body (devs, reqs) (k, d)
                      = Ret (devs ++ [fst (IoTDevice.generate_task d (draw k))],
                             reqs ++ rs)).
      { subst body. cbn [fst snd]. now rewrite Hrs. }
      change (combine (seq k (length (d :: l))) (d :: l))
        with ((k, d) :: combine (seq (S k) (length l)) l).
      change (for_each body ((k, d) :: combine (seq (S k) (length l)) l) (devs, reqs))
        with (s' <- body (devs, reqs) (k, d) ;;
              for_each body (combine (seq (S k) (length l)) l) s').
      rewrite Hhead. cbn [bind]. rewrite Hmore.
      unfold generated. cbn [length seq combine List.map fst snd].
      now rewrite <- !app_assoc.
    + rewrite List.map_app, Hkeys, (build_requests_keys _ _ _ _ _ Hrs).
      unfold generated, keys_of. reflexivity.
Qed.

Lemma collect_requests_returns exp g providers devices draw :
  (forall i d, devices !! i = Some d ->
     exists rs, IoTDevice.build_requests exp
                  (fst (IoTDevice.generate_task d (draw i))) g providers = Ret rs) ->
  exists all_requests,
    collect_requests exp g providers devices draw
    = Ret (generated devices draw 0, all_requests)
    /\ List.map key all_requests = keys_of (generated devices draw 0).
Proof.
  intros H. unfold collect_requests, Auctioneer.enumerate.
  destruct (collect_requests_returns_from exp g providers draw devices 0 [] [] H)
    as (more & Hmore & Hkeys).
  exists more. split; [exact Hmore | exact Hkeys].
Qed.

Lemma generated_lookup_inv devices draw : forall k i d1,
  generated devices draw k !! i = Some d1 ->
  exists d, devices !! i = Some d
            /\ d1 = fst (IoTDevice.generate_task d (draw (k + i)%nat)).
Proof.
  unfold generated. induction devices as [|d0 l IH]; intros k i d1 Hi; [discriminate|].
  cbn [length seq combine List.map fst snd] in Hi. destruct i as [|i].
  - injection Hi as <-. exists d0. now rewrite Nat.add_0_r.
  - rewrite lookup_cons_ne_0 in Hi by lia. cbn [Nat.pred] in Hi.
    destruct (IH (S k) i d1 Hi) as (d & Hd & ->). exists d. split; [exact Hd|].
    now replace (S k + i)%nat with (k + S i)%nat by lia.
Qed.

Lemma generated_ids devices draw : forall k,
  IoTDevice.id <$> generated devices draw k = IoTDevice.id <$> devices.
Proof.
  unfold generated. induction devices as [|d l IH]; intros k; [reflexivity|].
  cbn [length seq combine List.map fst snd fmap list_fmap].
  f_equal. apply IH.
Qed.

(** *** Distinct keys *)

Lemma In_keys_of z t devices :
  In (z, t) (keys_of devices) <->
  exists d, In d devices /\ IoTDevice.id d = z /\ In t (IoTDevice.pending_tasks d).
Proof.
  unfold keys_of. rewrite in_flat_map. split.
  - intros (d & Hd & Hin). apply in_map_iff in Hin.
    destruct Hin as (t' & [= <- <-] & Ht). eauto.
  - intros (d & Hd & <- & Ht). exists d. split; [exact Hd|]. now apply in_map.
Qed.

Lemma distinct_keys_app l1 l2 :
  distinct_keys l1 -> distinct_keys l2 ->
  (forall z t t', In (z, t) l1 -> In (z, t') l2 -> task_eqb t' t = false) ->
  distinct_keys (l1 ++ l2).
Proof.
  induction l1 as [|[z t] l1 IH]; intros H1 H2 Hcross; [exact H2|].
  destruct H1 as [Hhead H1]. cbn. split.
  - intros t' Hin. apply in_app_or in Hin. destruct Hin as [Hin|Hin].
    + now apply Hhead.
    + apply (Hcross z t t'); [now left | exact Hin].
  - apply IH; [exact H1 | exact H2 |].
    intros z0 t0 t' Hin1 Hin2. apply (Hcross z0 t0 t'); [now right | exact Hin2].
Qed.

Lemma distinct_keys_block z l :
  distinct_tasks l -> distinct_keys (List.map (pair z) l).
Proof.
  induction l as [|t l IH]; intros H; [exact I|]. destruct H as [Hhead H]. cbn. split.
  - intros t' Hin. apply in_map_iff in Hin. destruct Hin as (t0 & [= <-] & Ht0).
    now apply Hhead.
  - now apply IH.
Qed.

Lemma distinct_keys_of devices :
  NoDup (IoTDevice.id <$> devices) ->
  (forall d, In d devices -> distinct_tasks (IoTDevice.pending_tasks d)) ->
  distinct_keys (keys_of devices).
Proof.
  induction devices as [|d l IH]; intros Hnd Hdist; [exact I|].
  cbn [fmap list_fmap] in Hnd. apply NoDup_cons in Hnd. destruct Hnd as [Hd Hnd].
  change (keys_of (d :: l))
    with (List.map (pair (IoTDevice.id d)) (IoTDevice.pending_tasks d) ++ keys_of l).
  apply distinct_keys_app.
  - apply distinct_keys_block. apply Hdist. now left.
  - apply IH; [exact Hnd|]. intros d' Hd'. apply Hdist. now right.
  - intros z t t' Hin1 Hin2. exfalso. apply Hd.
    apply in_map_iff in Hin1. destruct Hin1 as (t0 & [= <- _] & _).
    apply In_keys_of in Hin2. destruct Hin2 as (d' & Hd' & Hid & _).
    rewrite <- Hid. apply list_elem_of_fmap_2. now apply list_elem_of_In.
Qed.

(** The allocations keep the order of the requests and take each at most
    once. *)
Lemma In_allocation_keys providers g reqs a :
  In a (flat_map (allocation_of providers g) reqs) ->
  In (key (fst (fst a))) (List.map key reqs).
Proof.
  intros Hin. apply in_flat_map in Hin. destruct Hin as (r & Hr & Hin).
  apply allocation_of_inv in Hin. destruct Hin as (w & p & -> & _).
  cbn [fst]. now apply in_map.
Qed.

Lemma distinct_allocation_keys providers g reqs :
  distinct_keys (List.map key reqs) ->
  distinct_keys (List.map (fun a : Allocation => key (fst (fst a)))
                          (flat_map (allocation_of providers g) reqs)).
Proof.
  induction reqs as [|r reqs IH]; intros H; [exact I|].
  cbn [List.map] in H. unfold key at 1 in H. destruct H as [Hhead H].
  cbn [flat_map]. rewrite List.map_app. apply distinct_keys_app.
  - unfold allocation_of. destruct (clearing _) as [[w p]|]; [|exact I].
    cbn. split; [intros ? []|exact I].
  - now apply IH.
  - intros z t t' Hin1 Hin2.
    apply in_map_iff in Hin1. destruct Hin1 as (a & Ha & Hin1).
    apply allocation_of_inv in Hin1. destruct Hin1 as (w & p & -> & _).
    cbn [fst] in Ha. unfold key in Ha. injection Ha as <- <-.
    apply Hhead. apply in_map_iff in Hin2. destruct Hin2 as (a' & Ha' & Hin2).
    rewrite <- Ha'. now apply (In_allocation_keys providers g).
Qed.

(** *** The counts and the metrics *)

Lemma dict_get_set_same k v d : Dict.get k (Dict.set k v d) = Ret v.
Proof.
  induction d as [|[k' v'] d IH]; simpl; [now rewrite Z.eqb_refl|].
  destruct (Z.eqb_spec k' k) as [->|Hne]; simpl.
  - now rewrite Z.eqb_refl.
  - destruct (Z.eqb_spec k' k); [contradiction | exact IH].
Qed.

(** [{d.id: 0 for d in self.devices}] has every device for a key. *)
Lemma initial_counts devices : forall acc d,
  In d devices \/ (exists c, Dict.get (IoTDevice.id d) acc = Ret c) ->
  exists c, Dict.get (IoTDevice.id d)
              (fold_left (fun dict dev => Dict.set (IoTDevice.id dev) 0%Z dict)
                         devices acc) = Ret c.
Proof.
  induction devices as [|d0 l IH]; intros acc d H; cbn [fold_left].
  - destruct H as [[]|H]. exact H.
  - apply IH. destruct H as [[->|H]|H].
    + right. rewrite dict_get_set_same. eauto.
    + now left.
    + right. now apply dict_get_set.
Qed.

Lemma map_py_returns {A B} (f : A -> py B) l :
  (forall x, In x l -> exists y, f x = Ret y) -> exists ys, map_py f l = Ret ys.
Proof.
  induction l as [|x l IH]; intros H; [simpl; eauto|].
  destruct (H x (or_introl eq_refl)) as [y Hy].
  destruct IH as [ys Hys]; [intros; apply H; now right|].
  simpl. rewrite Hy. simpl. rewrite Hys. simpl. eauto.
Qed.

Lemma jain_index_returns v : exists j, jain_index v = Ret j.
Proof.
  destruct v as [|x l]; [simpl; eauto|].
  destruct (Qeq_dec (Fairness.squares (x :: l)) 0) as [Hz|Hnz].
  - rewrite (Fairness.jain_index_zero_squares _ _ Hz). eauto.
  - destruct (Fairness.jain_index_ratio _ _ Hnz) as (j & Hj & _). eauto.
Qed.

Lemma allocation_eff_returns (served total : Z) :
  exists e, (if (total =? 0)%Z then Ret 1.0
             else py_div (inject_Z served) (inject_Z total)) = Ret e.
Proof.
  destruct (Z.eqb_spec total 0) as [|Hne]; [eauto|].
  unfold py_div.
  assert (H : ~ inject_Z total == 0).
  { unfold Qeq. simpl. lia. }
  apply FloatFacts.eqb_neq in H. rewrite H. eauto.
Qed.

(** *** The round *)

(** What the constructor of the system and the task generation establish:
    providers that can be costed, devices with identities of their own, each
    with an edge to a provider, deadlines that are not zero, and tasks that
    differ from one another. *)
Definition well_formed_system (sys : EdgeComputingSystem.t) (draw : nat -> IoTTask)
    : Prop :=
  Forall (well_formed (network sys)) (nodes sys)
  /\ NoDup (IoTDevice.id <$> devices sys)
  /\ forall i d, devices sys !! i = Some d ->
       has_direct_provider (network sys) (nodes sys) d
       /\ (forall t, In t (IoTDevice.pending_tasks d ++ [draw i]) -> ~ deadline t == 0)
       /\ distinct_tasks (IoTDevice.pending_tasks d ++ [draw i]).

(** A round on a well-formed system returns. *)
Lemma round_returns exp sys draw :
  well_formed_system sys draw -> exists sys' m, round exp sys draw = Ret (sys', m).
Proof.
  intros (Hwf & Hids & Hdev). unfold round.
  (* 1. the requests *)
  destruct (collect_requests_returns exp (network sys) (nodes sys) (devices sys) draw)
    as (all_requests & Hcollect & Hkeys).
  { intros i d Hi. destruct (Hdev i d Hi) as (Hp & Hd & _).
    apply build_requests_returns; [exact Hp | exact Hd]. }
  rewrite Hcollect. cbn [bind].
  (* 2. the auction *)
  rewrite (run_spec _ _ _ Hwf). cbn [bind].
  (* 3. the application *)
  set (devices1 := generated (devices sys) draw 0) in *.
  set (allocations := flat_map (allocation_of (nodes sys) (network sys)) all_requests).
  set (st0 := {| a_nodes := nodes sys; a_devices := devices1; welfare := 0.0;
                 per_device_allocated :=
                   fold_left (fun d dev => Dict.set (IoTDevice.id dev) 0%Z d)
                             devices1 [] |}).
  assert (Hgen : forall d1, In d1 devices1 ->
            exists i d, devices1 !! i = Some d1 /\ devices sys !! i = Some d
                        /\ d1 = fst (IoTDevice.generate_task d (draw i))).
  { intros d1 Hd1. apply list_elem_of_In, list_elem_of_lookup in Hd1.
    destruct Hd1 as [i Hi]. destruct (generated_lookup_inv _ _ _ _ _ Hi) as (d & Hd & E).
    exists i, d. auto. }
  assert (Hready : ready st0 allocations).
  { constructor; cbn [a_devices per_device_allocated st0].
    - unfold devices1. now rewrite generated_ids.
    - intros d Hd. apply initial_counts. left. now apply list_elem_of_In.
    - intros a Ha. apply In_allocation_keys in Ha. rewrite Hkeys in Ha.
      unfold key in Ha. apply In_keys_of in Ha. destruct Ha as (d1 & Hd1 & Hid & Hin).
      destruct (Hgen d1 Hd1) as (i & d & Hi & _ & _). exists i, d1. auto.
    - apply distinct_allocation_keys. rewrite Hkeys. apply distinct_keys_of.
      + unfold devices1. now rewrite generated_ids.
      + intros d1 Hd1. destruct (Hgen d1 Hd1) as (i & d & _ & Hi & ->).
        cbn. now apply Hdev. }
  destruct (apply_allocations_ready _ _ Hready) as (st & Happ & Hst).
  rewrite Happ. cbn [bind].
  (* 4. the metrics *)
  destruct (map_py_returns
              (fun d => c <- Dict.get (IoTDevice.id d) (per_device_allocated st) ;;
                        Ret (Z.of_nat (length (IoTDevice.pending_tasks d)) + c)%Z)
              (a_devices st)) as [counts Hcounts].
  { intros d Hd. destruct (ready_counts _ _ Hst d) as [c Hc];
      [now apply list_elem_of_In|]. rewrite Hc. cbn. eauto. }
  rewrite Hcounts. cbn [bind].
  destruct (allocation_eff_returns (Zsum (Dict.values (per_device_allocated st)))
              (Zsum counts)) as [eff Heff].
  rewrite Heff. cbn [bind].
  destruct (jain_index_returns
              (List.map inject_Z (Dict.values (per_device_allocated st)))) as [j Hj].
  rewrite Hj. cbn [bind]. eauto.
Qed.

(** *** The batch of a round *)

Lemma collect_requests_keys_from exp g providers draw l : forall k devs reqs out,
  for_each
    (fun st idev =>
       let '(devs, all_requests) := st in
       let dev := fst (IoTDevice.generate_task (snd idev) (draw (fst idev))) in
       reqs <- IoTDevice.build_requests exp dev g providers ;;
       Ret (devs ++ [dev], all_requests ++ reqs))
    (combine (seq k (length l)) l) (devs, reqs) = Ret out ->
  exists more, snd out = reqs ++ more
               /\ List.map key more = keys_of (generated l draw k).
Proof.
  induction l as [|d l IH]; intros k devs reqs out H.
  - injection H as <-. exists []. split; [cbn; now rewrite app_nil_r | reflexivity].
  - cbn [length seq combine for_each] in H.
    apply PyFacts.bind_Ret_inv in H. destruct H as ([devs1 reqs1] & Hstep & Hrest).
    cbn [fst snd] in Hstep.
    apply PyFacts.bind_Ret_inv in Hstep. destruct Hstep as (rs & Hrs & [= <- <-]).
    apply IH in Hrest. destruct Hrest as (more & Hout & Hkeys).
    exists (rs ++ more). split; [now rewrite Hout, <- app_assoc|].
    rewrite List.map_app, Hkeys, (build_requests_keys _ _ _ _ _ Hrs).
    reflexivity.
Qed.

(** Whenever step 1 of a round returns, its requests are those of the
    pending tasks of the devices, device after device. *)
Lemma collect_requests_keys exp g providers devices draw devices1 all_requests :
  collect_requests exp g providers devices draw = Ret (devices1, all_requests) ->
  List.map key all_requests = keys_of (generated devices draw 0).
Proof.
  unfold collect_requests, Auctioneer.enumerate. intros H.
  apply collect_requests_keys_from in H. destruct H as (more & Hout & Hkeys).
  cbn in Hout. now subst.
Qed.

(** The stages of a round that returns, with the requests of step 1. *)
Lemma round_stages exp sys draw sys' m :
  round exp sys draw = Ret (sys', m) ->
  exists all_requests allocations rejections st,
    collect_requests exp (network sys) (nodes sys) (devices sys) draw
    = Ret (generated (devices sys) draw 0, all_requests)
    /\ List.map key all_requests = keys_of (generated (devices sys) draw 0)
    /\ Auctioneer.run all_requests (nodes sys) (network sys)
       = Ret (allocations, rejections)
    /\ for_each apply_allocation allocations
         {| a_nodes := nodes sys;
            a_devices := generated (devices sys) draw 0;
            welfare := 0.0;
            per_device_allocated :=
              fold_left (fun d dev => Dict.set (IoTDevice.id dev) 0%Z d)
                        (generated (devices sys) draw 0) [] |}
       = Ret st
    /\ sys' = {| network := network sys; nodes := a_nodes st; devices := a_devices st |}
    /\ (exists counts,
          map_py (fun d => c <- Dict.get (IoTDevice.id d) (per_device_allocated st) ;;
                           Ret (Z.of_nat (length (IoTDevice.pending_tasks d)) + c)%Z)
                 (a_devices st) = Ret counts
          /\ (if (Zsum counts =? 0)%Z then Ret 1.0
              else py_div (inject_Z (Zsum (Dict.values (per_device_allocated st))))
                          (inject_Z (Zsum counts)))
             = Ret (allocation_eff m))
    /\ jain_index (List.map inject_Z (Dict.values (per_device_allocated st)))
       = Ret (fairness m)
    /\ social_welfare m = welfare st.
Proof.
  unfold round. intros H.
  apply PyFacts.bind_Ret_inv in H. destruct H as ([devices1 all_requests] & Hc & H).
  pose proof (collect_requests_keys _ _ _ _ _ _ _ Hc) as Hkeys.
  pose proof (collect_requests_inv _ _ _ _ _ _ _ Hc) as ->.
  apply PyFacts.bind_Ret_inv in H. destruct H as ([allocations rejections] & Hrun & H).
  apply PyFacts.bind_Ret_inv in H. destruct H as (st & Happ & H).
  apply PyFacts.bind_Ret_inv in H. destruct H as (counts & Hcounts & H).
  apply PyFacts.bind_Ret_inv in H. destruct H as (eff & Heff & H).
  apply PyFacts.bind_Ret_inv in H. destruct H as (fair & Hfair & [= <- <-]).
  exists all_requests, allocations, rejections, st. split; [exact Hc|]. cbn.
  repeat (split; [assumption || reflexivity|]).
  split; [|split; [exact Hfair | reflexivity]].
  exists counts. split; assumption.
Qed.


(** [round_batch exp sys draw sys' requests allocations rejections]: the
    round on [sys] collects [requests] in step 1 and hands them to the
    auction of step 2, which returns [allocations] and [rejections], and
    applying [allocations] in step 3 leaves the system [sys']. *)
Definition round_batch (exp : Q -> Q) (sys : EdgeComputingSystem.t)
    (draw : nat -> IoTTask) (sys' : EdgeComputingSystem.t)
    (requests : list ResourceRequest) (allocations : list Allocation)
    (rejections : list Rejection) : Prop :=
  collect_requests exp (network sys) (nodes sys) (devices sys) draw
  = Ret (generated (devices sys) draw 0, requests)
  /\ Auctioneer.run requests (nodes sys) (network sys) = Ret (allocations, rejections)
  /\ exists st,
       for_each apply_allocation allocations
         {| a_nodes := nodes sys;
            a_devices := generated (devices sys) draw 0;
            welfare := 0.0;
            per_device_allocated :=
              fold_left (fun d dev => Dict.set (IoTDevice.id dev) 0%Z d)
                        (generated (devices sys) draw 0) [] |}
       = Ret st
       /\ sys' = {| network := network sys; nodes := a_nodes st;
                    devices := a_devices st |}.

(** A round that returns has a batch, and one only. *)
Lemma round_has_batch exp sys draw sys' m :
  round exp sys draw = Ret (sys', m) ->
  exists requests allocations rejections,
    round_batch exp sys draw sys' requests allocations rejections.
Proof.
  intros Hround. apply round_stages in Hround.
  destruct Hround as (requests & allocations & rejections & st & Hc & _ & Hrun
                      & Happ & Hsys & _).
  exists requests, allocations, rejections.
  split; [exact Hc|]. split; [exact Hrun|]. exists st. split; assumption.
Qed.

Lemma round_batch_unique exp sys draw sys1 sys2 requests1 requests2
    allocations1 allocations2 rejections1 rejections2 :
  round_batch exp sys draw sys1 requests1 allocations1 rejections1 ->
  round_batch exp sys draw sys2 requests2 allocations2 rejections2 ->
  requests1 = requests2 /\ allocations1 = allocations2
  /\ rejections1 = rejections2 /\ sys1 = sys2.
Proof.
  intros (Hc1 & Hrun1 & st1 & Happ1 & ->) (Hc2 & Hrun2 & st2 & Happ2 & ->).
  rewrite Hc1 in Hc2. injection Hc2 as <-.
  rewrite Hrun1 in Hrun2. injection Hrun2 as <- <-.
  rewrite Happ1 in Happ2. injection Happ2 as <-. auto.
Qed.

(** *** The data model *)

(** The tasks of the data model: positive demands, deadline and size, and a
    priority from 1 to 5.  [generate_task] draws no other. *)
Definition data_model_task (t : IoTTask) : Prop :=
  0 < cpu t /\ 0 < memory t /\ 0 < deadline t /\ 0 < data_size t
  /\ (1 <= priority t <= 5)%Z.

(** A provider with no more CPU available than its capacity: with a task
    that it has the CPU for, its load is a number between 0 and 1. *)
Definition within_capacity (p : EdgeNode.t) : Prop :=
  r_cpu (EdgeNode.available p) <= r_cpu (EdgeNode.capacity p).


End Liveness.

(* ------------------------------------------------------------------------- *)
(** ** The request nobody bids on                                             *)
(* ------------------------------------------------------------------------- *)

Module NoBid.
Import EdgeComputingSystem CostFacts AuctionFacts SystemFacts RoundFacts Liveness.



End NoBid.

(* ========================================================================= *)
(** * Further properties                                                      *)
(* ========================================================================= *)

(* ------------------------------------------------------------------------- *)
(** ** The auction: what becomes of a batch                                   *)
(* ------------------------------------------------------------------------- *)

Module BatchFacts.
Import Auctioneer CostFacts AuctionFacts.

(** A request ends in one list or in the other. *)
Lemma outcome_cases providers g req :
  (bids_from req g 0 providers = []
   /\ allocation_of providers g req = []
   /\ rejection_of providers g req = [(req, "no provider"%string)])
  \/ (bids_from req g 0 providers <> []
      /\ (exists winner price, allocation_of providers g req = [(req, winner, price)])
      /\ rejection_of providers g req = []).
Proof.
  unfold allocation_of, rejection_of.
  destruct (bids_from req g 0 providers) as [|b bids] eqn:Hb.
  - left. auto.
  - right. split; [discriminate|]. split; [|reflexivity].
    destruct (clearing_some (b :: bids)) as (w & p & ->); [discriminate|]. eauto.
Qed.

(** X1: whenever [run] returns, every request of the batch has ended in
    exactly one of the two lists: the requests of the allocations and those
    of the rejections are two sub-sequences of the batch (the order is kept),
    together they are the batch, no request is in both, and the only reason
    of a rejection is "no provider". *)
Theorem run_partitions_batch (requests : list ResourceRequest)
    (providers : list EdgeNode.t) (network : nx.Graph)
    (allocations : list Allocation) (rejections : list Rejection) :
  run requests providers network = Ret (allocations, rejections) ->
  let allocated := List.map (fun a : Allocation => fst (fst a)) allocations in
  let rejected := List.map fst rejections in
  (length allocations + length rejections = length requests)%nat
  /\ Permutation (allocated ++ rejected) requests
  /\ sublist allocated requests
  /\ sublist rejected requests
  /\ (forall r, In r rejected -> ~ In r allocated)
  /\ Forall (fun j : Rejection => snd j = "no provider"%string) rejections.
Proof.
  intros Hrun. apply run_inv in Hrun. destruct Hrun as [-> ->]. cbn zeta.
  induction requests as [|r requests IH].
  - cbn. repeat split; try constructor. intros r [].
  - destruct IH as (Hlen & Hperm & Hsa & Hsr & Hdisj & Hreason).
    cbn [flat_map]. rewrite !List.map_app, !length_app.
    destruct (outcome_cases providers network r)
      as [(Hb & -> & ->)|(Hb & (w & p & ->) & ->)]; cbn [List.map length app fst snd].
    + split; [lia|]. split.
      { apply Permutation_sym, Permutation_cons_app, Permutation_sym, Hperm. }
      split; [now apply sublist_cons|]. split; [now apply sublist_skip|].
      split.
      { intros r' [<-|Hr'] Hin; [|now apply (Hdisj r')].
        apply in_map_iff in Hin. destruct Hin as (a & <- & Hin).
        apply in_flat_map in Hin. destruct Hin as (r0 & _ & Hin).
        pose proof (allocation_has_bid _ _ _ _ Hin) as Hbid.
        apply allocation_of_inv in Hin. destruct Hin as (? & ? & -> & _).
        now apply Hbid. }
      constructor; [reflexivity | exact Hreason].
    + split; [lia|]. split; [now constructor|].
      split; [now apply sublist_skip|]. split; [now apply sublist_cons|].
      split; [|exact Hreason].
      intros r' Hr' [<-|Hin]; [|now apply (Hdisj r')].
      apply in_map_iff in Hr'. destruct Hr' as (j & <- & Hin).
      apply in_flat_map in Hin. destruct Hin as (r0 & _ & Hin).
      unfold rejection_of in Hin.
      destruct (bids_from r0 network 0 providers) eqn:E; [|destruct Hin].
      destruct Hin as [<-|[]]. cbn in Hb. contradiction.
Qed.

Lemma run_partitions_batch_witness :
  exists allocations rejections,
    run [Scenario.request3; Scenario.huge_request] Scenario.providers Scenario.topology
    = Ret (allocations, rejections)
    /\ (length allocations + length rejections = 2)%nat.
Proof.
  exists [(Scenario.request3, 1%nat, 29600000000 # 40000000000)],
         [(Scenario.huge_request, "no provider"%string)].
  assert (H : run [Scenario.request3; Scenario.huge_request] Scenario.providers
                Scenario.topology
              = Ret ([(Scenario.request3, 1%nat, 29600000000 # 40000000000)],
                     [(Scenario.huge_request, "no provider"%string)]))
    by (vm_compute; reflexivity).
  split; [exact H|]. exact (proj1 (run_partitions_batch _ _ _ _ _ H)).
Defined.

(** A bid means that the provider has the capacity and a path to the device. *)
Lemma bid_means_feasible p req g c :
  EdgeNode.cost_for_request p req g = Ret (Some c) ->
  cpu (task req) <= r_cpu (EdgeNode.available p)
  /\ memory (task req) <= r_memory (EdgeNode.available p)
  /\ GraphFacts.connected g (EdgeNode.id p) (device_id req).
Proof.
  unfold EdgeNode.cost_for_request.
  destruct (Float.ltb (r_cpu (EdgeNode.available p)) (cpu (task req))) eqn:Hc;
    [discriminate|].
  destruct (Float.ltb (r_memory (EdgeNode.available p)) (memory (task req))) eqn:Hm;
    [discriminate|].
  apply FloatFacts.ltb_ge in Hc, Hm. cbn [orb]. intros H.
  split; [exact Hc|]. split; [exact Hm|].
  destruct (py_div _ _); [|discriminate]. cbn [bind] in H.
  destruct (nx.has_edge g (EdgeNode.id p) (device_id req)) eqn:He.
  - destruct (weight_has_edge _ _ _ He) as (w & _ & Hw).
    now apply (CostModel.direct_edge_connected g _ _ w).
  - unfold nx.shortest_path_length in H.
    destruct (negb _); [discriminate|].
    destruct (nx.walk_dist g _ _ _) as [d|] eqn:Hd; [|discriminate].
    apply GraphFacts.walk_dist_sound in Hd. destruct Hd as (q & Hq & _).
    now exists q, d.
Qed.

(** X2: whenever [run] returns, the winner of every Allocation is one of the
    providers of the call, and one that could serve the request when it was
    costed: the demands of the task are within its available CPU and memory,
    and a path joins it to the device. *)
Theorem winner_can_serve (requests : list ResourceRequest)
    (providers : list EdgeNode.t) (network : nx.Graph)
    (allocations : list Allocation) (rejections : list Rejection)
    (req : ResourceRequest) (winner : nat) (price : Q) :
  run requests providers network = Ret (allocations, rejections) ->
  In (req, winner, price) allocations ->
  In req requests
  /\ exists p, providers !! winner = Some p
       /\ cpu (task req) <= r_cpu (EdgeNode.available p)
       /\ memory (task req) <= r_memory (EdgeNode.available p)
       /\ GraphFacts.connected network (EdgeNode.id p) (device_id req).
Proof.
  intros Hrun Hin. apply run_inv in Hrun. destruct Hrun as [-> _].
  apply in_flat_map in Hin. destruct Hin as (r & Hr & Hin).
  apply allocation_of_inv in Hin. destruct Hin as (w & pr & [= <- <- <-] & Hclear).
  split; [exact Hr|].
  pose proof (bids_from_NoDup req network providers 0) as Hnd.
  destruct (clearing_spec _ _ _ Hnd Hclear) as (c & Hwin & _).
  apply In_bids in Hwin. destruct Hwin as (p & Hp & Hcost).
  exists p. split; [exact Hp|]. now apply (bid_means_feasible p req network c).
Qed.

Lemma winner_can_serve_witness :
  In Scenario.request3 [Scenario.request3; Scenario.huge_request]
  /\ exists p, Scenario.providers !! 1%nat = Some p
       /\ cpu (task Scenario.request3) <= r_cpu (EdgeNode.available p)
       /\ memory (task Scenario.request3) <= r_memory (EdgeNode.available p)
       /\ GraphFacts.connected Scenario.topology (EdgeNode.id p)
            (device_id Scenario.request3).
Proof.
  apply (winner_can_serve [Scenario.request3; Scenario.huge_request]
           Scenario.providers Scenario.topology
           [(Scenario.request3, 1%nat, 29600000000 # 40000000000)]
           [(Scenario.huge_request, "no provider"%string)]
           Scenario.request3 1 (29600000000 # 40000000000)).
  - vm_compute. reflexivity.
  - left. reflexivity.
Defined.

(** *** Ties *)

(** The sort is stable: what comes out first had only dearer bids before it. *)
Lemma sort_head_stable (l : list Bid) b rest :
  sort_by_cost l = b :: rest ->
  exists l1 l2, l = l1 ++ b :: l2 /\ forall b', In b' l1 -> snd b < snd b'.
Proof.
  revert b rest. induction l as [|a l IH]; intros b rest H; [discriminate|].
  cbn [sort_by_cost fold_right] in H. fold (sort_by_cost l) in H.
  destruct (sort_by_cost l) as [|b0 rest0] eqn:Hs.
  - apply sort_by_cost_nil in Hs. subst l. cbn in H. injection H as <- <-.
    exists [], []. split; [reflexivity | intros ? []].
  - cbn [insert] in H. destruct (Float.ltb (snd b0) (snd a)) eqn:Hlt.
    + injection H as <- <-. apply FloatFacts.ltb_lt in Hlt.
      destruct (IH b0 rest0 eq_refl) as (l1 & l2 & -> & Hl1).
      exists (a :: l1), l2. split; [reflexivity|].
      intros b' [<-|Hb']; [exact Hlt | now apply Hl1].
    + injection H as <- <-. exists [], l. split; [reflexivity | intros ? []].
Qed.

(** The bids are collected in the order of the providers. *)
Lemma bids_from_before req g l : forall k l1 w c l2,
  bids_from req g k l = l1 ++ (w, c) :: l2 ->
  (forall i c', In (i, c') l1 -> (i < w)%nat)
  /\ (forall i c', In (i, c') l2 -> (w < i)%nat).
Proof.
  induction l as [|p l IH]; intros k l1 w c l2 H.
  - destruct l1; discriminate.
  - cbn [bids_from] in H.
    assert (Hrec : forall l1', bids_from req g (S k) l = l1' ++ (w, c) :: l2 ->
              (S k <= w)%nat
              /\ (forall i c', In (i, c') l1' -> (i < w)%nat)
              /\ (forall i c', In (i, c') l2 -> (w < i)%nat)).
    { intros l1' H'. split; [|now apply (IH (S k) l1' w c l2)].
      assert (Hin : In (w, c) (bids_from req g (S k) l))
        by (rewrite H'; apply in_or_app; right; now left).
      now apply In_bids_from in Hin. }
    destruct (EdgeNode.cost_for_request p req g) as [[c0|]|e].
    + destruct l1 as [|b l1].
      * injection H as <- <- H. split; [intros ? ? []|].
        intros i c' Hin. rewrite <- H in Hin. apply In_bids_from in Hin. lia.
      * injection H as <- H. destruct (Hrec l1 H) as (Hk & Hl1 & Hl2).
        split; [|exact Hl2]. intros i c' [[= <- <-]|Hin]; [lia | now apply (Hl1 i c')].
    + now apply (Hrec l1).
    + now apply (Hrec l1).
Qed.

(** X3: ties go to the provider that stands first in the list.  Whenever
    [run] returns, no provider that stands before the winner of an Allocation
    bid as little as the winner did: the winner is the first of the lowest
    bidders. *)
Theorem first_lowest_bidder_wins (requests : list ResourceRequest)
    (providers : list EdgeNode.t) (network : nx.Graph)
    (allocations : list Allocation) (rejections : list Rejection)
    (req : ResourceRequest) (winner : nat) (price : Q) :
  run requests providers network = Ret (allocations, rejections) ->
  In (req, winner, price) allocations ->
  exists win_cost,
    bids_on providers network req winner win_cost
    /\ forall i c, bids_on providers network req i c ->
         (i < winner)%nat -> win_cost < c.
Proof.
  intros Hrun Hin. apply run_inv in Hrun. destruct Hrun as [-> _].
  apply in_flat_map in Hin. destruct Hin as (r & _ & Hin).
  apply allocation_of_inv in Hin. destruct Hin as (w & pr & [= <- <- <-] & Hclear).
  unfold clearing in Hclear.
  destruct (sort_by_cost (bids_from req network 0 providers)) as [|[w0 c0] rest] eqn:Hs;
    [discriminate|].
  injection Hclear as <- _.
  destruct (sort_head_stable _ _ _ Hs) as (l1 & l2 & Hsplit & Hl1).
  destruct (bids_from_before _ _ _ _ _ _ _ _ Hsplit) as [Hbefore Hafter].
  exists c0. split.
  - apply In_bids. rewrite Hsplit. apply in_or_app. right. now left.
  - intros i c Hi Hlt. apply In_bids in Hi. rewrite Hsplit in Hi.
    apply in_app_or in Hi. destruct Hi as [Hi|[[= -> ->]|Hi]].
    + exact (Hl1 _ Hi).
    + lia.
    + apply Hafter in Hi. lia.
Qed.

Lemma first_lowest_bidder_wins_witness :
  exists win_cost,
    bids_on Scenario.providers Scenario.topology Scenario.request3 1 win_cost
    /\ forall i c, bids_on Scenario.providers Scenario.topology Scenario.request3 i c ->
         (i < 1)%nat -> win_cost < c.
Proof.
  apply (first_lowest_bidder_wins [Scenario.request3; Scenario.huge_request]
           Scenario.providers Scenario.topology
           [(Scenario.request3, 1%nat, 29600000000 # 40000000000)]
           [(Scenario.huge_request, "no provider"%string)]
           Scenario.request3 1 (29600000000 # 40000000000)).
  - vm_compute. reflexivity.
  - left. reflexivity.
Defined.

End BatchFacts.

(* ------------------------------------------------------------------------- *)
(** ** The price of a busy provider                                           *)
(* ------------------------------------------------------------------------- *)

Module LoadFacts.
Import EdgeNode CostFacts CostModel.

Lemma allocate_well_formed g p r : well_formed g p -> well_formed g (allocate p r).
Proof. intros [Hc Hn]. split; [exact Hc | exact Hn]. Qed.

(** With less CPU left the same request with the same distance costs more. *)
Lemma cost_formula_load p p' req d :
  0 < r_cpu (capacity p) ->
  capacity p' = capacity p -> base_price p' = base_price p ->
  energy_price p' = energy_price p -> power_per_cpu p' = power_per_cpu p ->
  0 <= r_cpu (available p') -> r_cpu (available p') <= r_cpu (available p) ->
  r_cpu (available p) <= r_cpu (capacity p) ->
  0 <= cpu (task req) -> 0 <= memory (task req) ->
  0 <= r_cpu (base_price p) -> 0 <= r_memory (base_price p) ->
  cost_formula p req d <= cost_formula p' req d.
Proof.
  intros Hcap Ec Eb Ee Ep Hpos Hle Hinv Hc Hm Hbc Hbm.
  unfold cost_formula. rewrite Ec, Eb, Ee, Ep.
  set (cap := r_cpu (capacity p)) in *.
  set (a := r_cpu (available p)) in *. set (a' := r_cpu (available p')) in *.
  set (base := cpu (task req) * r_cpu (base_price p)
               + memory (task req) * r_memory (base_price p)).
  assert (Hbase : 0 <= base) by (unfold base; nra).
  assert (Hq : a' / cap <= a / cap).
  { unfold Qdiv. apply Qmult_le_compat_r; [exact Hle|].
    apply Qlt_le_weak, Qinv_lt_0_compat, Hcap. }
  assert (Hq1 : a / cap <= 1).
  { apply Qle_shift_div_r; [exact Hcap | lra]. }
  assert (Hload : (1 - a / cap) ^ 2 <= (1 - a' / cap) ^ 2) by nra.
  nra.
Qed.

(** X4: serving a task never makes a provider cheaper.  For a provider within
    its capacity invariant and a served task within what is available, any
    request the provider bids on before and after the allocation is bid on
    at least as dearly afterwards. *)
Theorem serving_never_lowers_the_price (p : EdgeNode.t) (served req : ResourceRequest)
    (g : nx.Graph) (c c' : Q) :
  well_formed g p ->
  0 < r_cpu (capacity p) ->
  r_cpu (available p) <= r_cpu (capacity p) ->
  0 <= cpu (task served) <= r_cpu (available p) ->
  0 <= cpu (task req) -> 0 <= memory (task req) ->
  0 <= r_cpu (base_price p) -> 0 <= r_memory (base_price p) ->
  cost_for_request p req g = Ret (Some c) ->
  cost_for_request (allocate p served) req g = Ret (Some c') ->
  c <= c'.
Proof.
  intros Hwf Hcap Hinv [Hs0 Hs1] Hc Hm Hbc Hbm H H'.
  rewrite (cost_for_request_cases g p req Hwf) in H.
  rewrite (cost_for_request_cases g _ req (allocate_well_formed g p served Hwf)) in H'.
  cbn [allocate id] in H'.
  assert (Hmono : forall d, cost_formula p req d <= cost_formula (allocate p served) req d).
  { intros d. apply cost_formula_load; try reflexivity; try assumption; cbn; lra. }
  destruct (_ || _); [discriminate|]. destruct (_ || _); [discriminate|].
  destruct (nx.find_edge g (id p) (device_id req)).
  - injection H as <-. injection H' as <-. apply Hmono.
  - destruct (nx.walk_dist _ _ _ _); [|discriminate].
    injection H as <-. injection H' as <-. apply Hmono.
Qed.

Lemma serving_never_lowers_the_price_witness :
  exists c c',
    cost_for_request (EdgeNode.init 1 20 32) Scenario.request3 Scenario.topology
    = Ret (Some c)
    /\ cost_for_request (allocate (EdgeNode.init 1 20 32) Scenario.request3)
         Scenario.request3 Scenario.topology = Ret (Some c')
    /\ c <= c'.
Proof.
  do 2 eexists. split; [vm_compute; reflexivity|]. split; [vm_compute; reflexivity|].
  apply (serving_never_lowers_the_price (EdgeNode.init 1 20 32) Scenario.request3
           Scenario.request3 Scenario.topology);
    try (vm_compute; reflexivity); try (vm_compute; discriminate).
  - split; [intros E; vm_compute in E; discriminate E | reflexivity].
  - split; vm_compute; discriminate.
Defined.

End LoadFacts.

(* ------------------------------------------------------------------------- *)
(** ** What a round does to the providers and to the queues                   *)
(* ------------------------------------------------------------------------- *)

Module RoundAccounts.
Import EdgeComputingSystem CostFacts AuctionFacts SystemFacts RoundFacts Liveness.

(** Everything of a provider but what is available. *)
Definition same_static (p p' : EdgeNode.t) : Prop :=
  EdgeNode.id p' = EdgeNode.id p
  /\ EdgeNode.capacity p' = EdgeNode.capacity p
  /\ EdgeNode.base_price p' = EdgeNode.base_price p
  /\ EdgeNode.energy_price p' = EdgeNode.energy_price p
  /\ EdgeNode.power_per_cpu p' = EdgeNode.power_per_cpu p.

(** The CPU and the memory of the tasks that the provider at position [i]
    has won in a list of allocations. *)
Fixpoint won_cpu (i : nat) (allocations : list Allocation) : Q :=
  match allocations with
  | [] => 0
  | (req, w, _) :: l => (if (w =? i)%nat then cpu (task req) else 0) + won_cpu i l
  end.

Fixpoint won_memory (i : nat) (allocations : list Allocation) : Q :=
  match allocations with
  | [] => 0
  | (req, w, _) :: l => (if (w =? i)%nat then memory (task req) else 0) + won_memory i l
  end.

(** Everything of a device but its queue. *)
Definition same_device (d d' : IoTDevice.t) : Prop :=
  IoTDevice.id d' = IoTDevice.id d
  /\ IoTDevice.type d' = IoTDevice.type d
  /\ IoTDevice.energy_budget d' = IoTDevice.energy_budget d.

(** The providers after the application loop. *)
Lemma applied_nodes allocations : forall st st' i p,
  for_each apply_allocation allocations st = Ret st' ->
  a_nodes st !! i = Some p ->
  exists p', a_nodes st' !! i = Some p'
    /\ same_static p p'
    /\ r_cpu (EdgeNode.available p')
       == r_cpu (EdgeNode.available p) - won_cpu i allocations
    /\ r_memory (EdgeNode.available p')
       == r_memory (EdgeNode.available p) - won_memory i allocations.
Proof.
  induction allocations as [|[[r w] price] l IH]; intros st st' i p Hrun Hi.
  - injection Hrun as <-. exists p. split; [exact Hi|].
    split; [now repeat split|]. cbn. split; ring.
  - cbn [for_each] in Hrun. apply PyFacts.bind_Ret_inv in Hrun.
    destruct Hrun as (st1 & Hstep & Hrest).
    apply apply_allocation_inv in Hstep.
    destruct Hstep as (? & ? & ? & ? & _ & _ & _ & ->).
    cbn [won_cpu won_memory]. destruct (Nat.eqb_spec w i) as [->|Hne].
    + destruct (IH _ st' i (EdgeNode.allocate p r) Hrest)
        as (p' & Hp' & Hstatic & Hc & Hm).
      { cbn [a_nodes]. now rewrite list_lookup_alter_eq, Hi. }
      exists p'. split; [exact Hp'|]. split; [exact Hstatic|].
      cbn in Hc, Hm. split; [rewrite Hc | rewrite Hm]; ring.
    + destruct (IH _ st' i p Hrest) as (p' & Hp' & Hstatic & Hc & Hm).
      { cbn [a_nodes]. now rewrite list_lookup_alter_ne. }
      exists p'. split; [exact Hp'|]. split; [exact Hstatic|].
      split; [rewrite Hc | rewrite Hm]; ring.
Qed.

Lemma applied_nodes_length allocations : forall st st',
  for_each apply_allocation allocations st = Ret st' ->
  length (a_nodes st') = length (a_nodes st).
Proof.
  induction allocations as [|[[r w] price] l IH]; intros st st' Hrun.
  - now injection Hrun as <-.
  - cbn [for_each] in Hrun. apply PyFacts.bind_Ret_inv in Hrun.
    destruct Hrun as (st1 & Hstep & Hrest).
    apply apply_allocation_inv in Hstep.
    destruct Hstep as (? & ? & ? & ? & _ & _ & _ & ->).
    rewrite (IH _ _ Hrest). cbn [a_nodes]. apply length_alter.
Qed.

(** The queues after the application loop: what is left of the queues
    before, in the same order. *)
Lemma applied_devices allocations : forall st st' i d,
  for_each apply_allocation allocations st = Ret st' ->
  a_devices st !! i = Some d ->
  exists d', a_devices st' !! i = Some d'
    /\ same_device d d'
    /\ sublist (IoTDevice.pending_tasks d') (IoTDevice.pending_tasks d).
Proof.
  induction allocations as [|[[r w] price] l IH]; intros st st' i d Hrun Hi.
  - injection Hrun as <-. exists d. split; [exact Hi|]. split; [now repeat split|].
    reflexivity.
  - cbn [for_each] in Hrun. apply PyFacts.bind_Ret_inv in Hrun.
    destruct Hrun as (st1 & Hstep & Hrest).
    apply apply_allocation_inv in Hstep.
    destruct Hstep as (count & j & dev & pending1 & _ & Hfind & Hrem & ->).
    apply list_find_Some in Hfind. destruct Hfind as (Hj & _ & _).
    destruct (Nat.eq_dec j i) as [->|Hne].
    + rewrite Hi in Hj. injection Hj as <-.
      destruct (IH _ st' i (IoTDevice.set_pending d pending1) Hrest)
        as (d' & Hd' & Hsame & Hsub).
      { cbn [a_devices]. apply list_lookup_insert_eq. now apply lookup_lt_Some in Hi. }
      exists d'. split; [exact Hd'|]. split; [exact Hsame|].
      etransitivity; [exact Hsub|]. cbn.
      apply list_remove_inv in Hrem.
      destruct Hrem as (before & x & after & (-> & _ & _) & ->).
      apply sublist_app; [reflexivity | now apply sublist_cons].
    + apply (IH _ st' i d Hrest). cbn [a_devices].
      now rewrite list_lookup_insert_ne.
Qed.

Lemma applied_devices_length allocations : forall st st',
  for_each apply_allocation allocations st = Ret st' ->
  length (a_devices st') = length (a_devices st).
Proof.
  induction allocations as [|[[r w] price] l IH]; intros st st' Hrun.
  - now injection Hrun as <-.
  - cbn [for_each] in Hrun. apply PyFacts.bind_Ret_inv in Hrun.
    destruct Hrun as (st1 & Hstep & Hrest).
    apply apply_allocation_inv in Hstep.
    destruct Hstep as (? & ? & ? & ? & _ & _ & _ & ->).
    rewrite (IH _ _ Hrest). cbn [a_devices]. apply length_insert.
Qed.

(** X5: what a round that returns has done to the providers.  The round
    has one batch: the requests that [collect_requests] builds from the
    devices, the allocations and rejections that [Auctioneer.run] returns on
    exactly these requests, and the system that applying these allocations
    leaves.  The graph is the one before; there are as many providers as
    before; and of the provider at each position only what is available has
    changed: it has lost the CPU and the memory of the tasks that the
    allocations of this batch awarded to that position, and nothing else. *)
Theorem round_debits_winners (exp : Q -> Q) (sys sys' : EdgeComputingSystem.t)
    (draw : nat -> IoTTask) (m : metrics) :
  round exp sys draw = Ret (sys', m) ->
  exists requests allocations rejections,
    round_batch exp sys draw sys' requests allocations rejections
    /\ network sys' = network sys
    /\ length (nodes sys') = length (nodes sys)
    /\ forall i p, nodes sys !! i = Some p ->
         exists p', nodes sys' !! i = Some p'
           /\ same_static p p'
           /\ r_cpu (EdgeNode.available p')
              == r_cpu (EdgeNode.available p) - won_cpu i allocations
           /\ r_memory (EdgeNode.available p')
              == r_memory (EdgeNode.available p) - won_memory i allocations.
Proof.
  intros Hround. apply round_stages in Hround.
  destruct Hround as (requests & allocations & rejections & st & Hc & _ & Hrun
                      & Happ & -> & _).
  exists requests, allocations, rejections.
  split; [split; [exact Hc|]; split; [exact Hrun|]; exists st; now split|].
  split; [reflexivity|]. cbn [nodes].
  split; [exact (applied_nodes_length _ _ _ Happ)|].
  intros i p Hi. exact (applied_nodes _ _ _ i p Happ Hi).
Qed.

Lemma round_debits_winners_witness :
  exists sys' m requests allocations rejections p',
    round Scenario.exp2 Scenario.crowded Scenario.camera_task = Ret (sys', m)
    /\ round_batch Scenario.exp2 Scenario.crowded Scenario.camera_task sys'
         requests allocations rejections
    /\ nodes sys' !! 0%nat = Some p'
    /\ r_cpu (EdgeNode.available p') == 20 - won_cpu 0 allocations.
Proof.
  assert (H : exists sys' m,
            round Scenario.exp2 Scenario.crowded Scenario.camera_task = Ret (sys', m))
    by (vm_compute; eauto).
  destruct H as (sys' & m & H).
  destruct (round_debits_winners _ _ _ _ _ H)
    as (requests & allocations & rejections & Hbatch & _ & _ & Hnodes).
  destruct (Hnodes 0%nat (EdgeNode.init 0 20 32) eq_refl) as (p' & Hp' & _ & Hcpu & _).
  exists sys', m, requests, allocations, rejections, p'.
  split; [exact H|]. split; [exact Hbatch|]. split; [exact Hp' | exact Hcpu].
Defined.

(** X6: what a round that returns has done to the devices.  There are as
    many as before; of each device only the queue has changed, and the new
    queue is a sub-sequence of the old queue followed by the task generated
    in this round: nothing is added but that task, nothing is reordered. *)
Theorem round_only_shortens_queues (exp : Q -> Q) (sys sys' : EdgeComputingSystem.t)
    (draw : nat -> IoTTask) (m : metrics) :
  round exp sys draw = Ret (sys', m) ->
  length (devices sys') = length (devices sys)
  /\ forall i d, devices sys !! i = Some d ->
       exists d', devices sys' !! i = Some d'
         /\ same_device d d'
         /\ sublist (IoTDevice.pending_tasks d')
                    (IoTDevice.pending_tasks d ++ [draw i]).
Proof.
  intros Hround. apply round_inv in Hround.
  destruct Hround as (requests & allocations & rejections & st & _ & Happ & -> & _).
  cbn [devices]. split.
  - rewrite (applied_devices_length _ _ _ Happ). cbn [a_devices].
    unfold generated. rewrite length_map, length_combine, length_seq. lia.
  - intros i d Hi.
    pose proof (generated_lookup _ draw 0 _ _ Hi) as Hgen. cbn [Nat.add] in Hgen.
    destruct (applied_devices _ _ _ i _ Happ Hgen) as (d' & Hd' & Hsame & Hsub).
    exists d'. split; [exact Hd'|]. split; [exact Hsame | exact Hsub].
Qed.

Lemma round_only_shortens_queues_witness :
  exists sys' m,
    round Scenario.exp2 Scenario.starved (fun _ => Scenario.small_task) = Ret (sys', m)
    /\ length (devices sys') = 1%nat.
Proof.
  assert (H : exists sys' m,
            round Scenario.exp2 Scenario.starved (fun _ => Scenario.small_task)
            = Ret (sys', m)) by (vm_compute; eauto).
  destruct H as (sys' & m & H). exists sys', m. split; [exact H|].
  exact (proj1 (round_only_shortens_queues _ _ _ _ _ H)).
Defined.

(** *** The tasks of the requests of a round *)

(** The task of an allocation of the round was pending on a device. *)
Lemma allocation_task_pending devices draw providers g all_requests a :
  List.map key all_requests = keys_of (generated devices draw 0) ->
  In a (flat_map (allocation_of providers g) all_requests) ->
  exists i d, devices !! i = Some d
              /\ IoTDevice.id d = device_id (fst (fst a))
              /\ In (task (fst (fst a))) (IoTDevice.pending_tasks d ++ [draw i]).
Proof.
  intros Hkeys Ha. apply In_allocation_keys in Ha. rewrite Hkeys in Ha.
  unfold key in Ha. apply In_keys_of in Ha. destruct Ha as (d1 & Hd1 & Hid & Hin).
  apply list_elem_of_In, list_elem_of_lookup in Hd1. destruct Hd1 as [i Hi].
  destruct (generated_lookup_inv _ _ _ _ _ Hi) as (d & Hd & ->).
  exists i, d. cbn in Hid, Hin. auto.
Qed.

Lemma won_nonneg i allocations :
  (forall a, In a allocations ->
     0 <= cpu (task (fst (fst a))) /\ 0 <= memory (task (fst (fst a)))) ->
  0 <= won_cpu i allocations /\ 0 <= won_memory i allocations.
Proof.
  induction allocations as [|[[r w] p] l IH]; intros H; cbn; [split; lra|].
  destruct IH as [Hc Hm]; [intros a Ha; apply H; now right|].
  destruct (H _ (or_introl eq_refl)) as [Hrc Hrm]. cbn in Hrc, Hrm.
  destruct (w =? i)%nat; split; lra.
Qed.

(** X7: within the loop nothing is ever given back.  When no pending or
    generated task has a negative demand, a round that returns leaves no
    provider with more available CPU or memory than it had. *)
Theorem round_never_refills (exp : Q -> Q) (sys sys' : EdgeComputingSystem.t)
    (draw : nat -> IoTTask) (m : metrics) :
  (forall i d t, devices sys !! i = Some d ->
     In t (IoTDevice.pending_tasks d ++ [draw i]) -> 0 <= cpu t /\ 0 <= memory t) ->
  round exp sys draw = Ret (sys', m) ->
  forall i p p', nodes sys !! i = Some p -> nodes sys' !! i = Some p' ->
    r_cpu (EdgeNode.available p') <= r_cpu (EdgeNode.available p)
    /\ r_memory (EdgeNode.available p') <= r_memory (EdgeNode.available p).
Proof.
  intros Hdemands Hround i p p' Hi Hi'.
  apply round_stages in Hround.
  destruct Hround as (requests & allocations & rejections & st
                      & _ & Hkeys & Hrun & Happ & -> & _).
  apply run_inv in Hrun. destruct Hrun as [-> _].
  destruct (applied_nodes _ _ _ i p Happ Hi) as (q & Hq & _ & Hc & Hm).
  cbn [nodes] in Hi'. rewrite Hq in Hi'. injection Hi' as <-.
  destruct (won_nonneg i (flat_map (allocation_of (nodes sys) (network sys)) requests))
    as [Hwc Hwm].
  { intros a Ha.
    destruct (allocation_task_pending _ _ _ _ _ _ Hkeys Ha) as (k & d & Hk & _ & Hin).
    exact (Hdemands k d _ Hk Hin). }
  rewrite Hc, Hm. split; lra.
Qed.

Lemma round_never_refills_witness :
  exists sys' m p',
    round Scenario.exp2 Scenario.crowded Scenario.camera_task = Ret (sys', m)
    /\ nodes sys' !! 0%nat = Some p'
    /\ r_cpu (EdgeNode.available p') <= 20.
Proof.
  assert (H : exists sys' m p',
            round Scenario.exp2 Scenario.crowded Scenario.camera_task = Ret (sys', m)
            /\ nodes sys' !! 0%nat = Some p') by (vm_compute; eauto).
  destruct H as (sys' & m & p' & H & Hp'). exists sys', m, p'.
  split; [exact H|]. split; [exact Hp'|].
  refine (proj1 (round_never_refills _ _ _ _ _ _ H 0%nat (EdgeNode.init 0 20 32) p'
                   eq_refl Hp')).
  intros [|[|[|[|i]]]] d t Hd Hin; try discriminate;
    injection Hd as <-; destruct Hin as [<-|[]]; split; vm_compute; discriminate.
Defined.

End RoundAccounts.

(* ------------------------------------------------------------------------- *)
(** ** The metrics of a round                                                 *)
(* ------------------------------------------------------------------------- *)

Module MetricsFacts.
Import EdgeComputingSystem CostFacts AuctionFacts SystemFacts RoundFacts Liveness
       RoundAccounts.

(** *** Sums and counts *)

Lemma Zsum_shift l : forall a, fold_left Z.add l a = (a + fold_left Z.add l 0)%Z.
Proof.
  induction l as [|x l IH]; intros a; simpl; [lia|].
  rewrite (IH (a + x)%Z), (IH (0 + x)%Z). lia.
Qed.

Lemma Zsum_cons x l : Zsum (x :: l) = (x + Zsum l)%Z.
Proof. unfold Zsum. simpl. rewrite Zsum_shift. lia. Qed.

Lemma values_set k v d c :
  Dict.get k d = Ret c ->
  Zsum (Dict.values (Dict.set k v d)) = (Zsum (Dict.values d) - c + v)%Z.
Proof.
  unfold Dict.values. induction d as [|[k' v'] d IH]; simpl; [discriminate|].
  destruct (Z.eqb_spec k' k) as [->|Hne]; intros H; simpl.
  - injection H as ->. rewrite !Zsum_cons. lia.
  - rewrite !Zsum_cons, (IH H). lia.
Qed.

Lemma values_set_nonneg k v d :
  (0 <= v)%Z -> Forall (Z.le 0) (Dict.values d) ->
  Forall (Z.le 0) (Dict.values (Dict.set k v d)).
Proof.
  unfold Dict.values. intros Hv. induction d as [|[k' v'] d IH]; simpl; intros H.
  - now repeat constructor.
  - inversion H as [|? ? Hv' Hd]; subst.
    destruct (Z.eqb_spec k' k); simpl; constructor; auto.
Qed.

Lemma get_nonneg k d c :
  Forall (Z.le 0) (Dict.values d) -> Dict.get k d = Ret c -> (0 <= c)%Z.
Proof.
  unfold Dict.values. induction d as [|[k' v'] d IH]; simpl; intros H; [discriminate|].
  inversion H as [|? ? Hv' Hd]; subst.
  destruct (Z.eqb_spec k' k); [now intros [= <-] | now apply IH].
Qed.

(** The count of a device, 0 when it has none. *)
Definition count_of (k : Z) (d : Dict.t) : Z :=
  match Dict.get k d with Ret c => c | Raise _ => 0%Z end.

Lemma count_of_set_other k k' v d :
  k' <> k -> count_of k' (Dict.set k v d) = count_of k' d.
Proof.
  intros Hne. unfold count_of. induction d as [|[k0 v0] d IH]; simpl.
  - destruct (Z.eqb_spec k k'); [congruence | reflexivity].
  - destruct (Z.eqb_spec k0 k) as [->|Hk]; simpl.
    + destruct (Z.eqb_spec k k'); [congruence | reflexivity].
    + destruct (Z.eqb_spec k0 k'); [reflexivity | exact IH].
Qed.

Lemma count_of_set_same k v d : count_of k (Dict.set k v d) = v.
Proof. unfold count_of. now rewrite dict_get_set_same. Qed.

(** The dictionary the loop starts from holds zeros only. *)
Lemma initial_counts_zero devices : forall acc,
  Forall (eq 0%Z) (Dict.values acc) ->
  Forall (eq 0%Z)
    (Dict.values (fold_left (fun dict dev => Dict.set (IoTDevice.id dev) 0%Z dict)
                            devices acc)).
Proof.
  induction devices as [|d l IH]; intros acc H; cbn [fold_left]; [exact H|].
  apply IH. clear IH. unfold Dict.values in *.
  induction acc as [|[k v] acc IHa]; simpl.
  - now repeat constructor.
  - inversion H as [|? ? Hv Hacc]; subst.
    destruct (Z.eqb_spec k (IoTDevice.id d)); simpl; constructor; auto.
Qed.

Lemma zeros_sum l : Forall (eq 0%Z) l -> Zsum l = 0%Z /\ Forall (Z.le 0) l.
Proof.
  induction 1 as [|x l <- _ [IHs IHn]]; [split; [reflexivity | constructor]|].
  rewrite Zsum_cons, IHs. split; [reflexivity|]. constructor; [lia | exact IHn].
Qed.

Lemma zeros_count k d : Forall (eq 0%Z) (Dict.values d) -> count_of k d = 0%Z.
Proof.
  unfold count_of, Dict.values. induction d as [|[k' v'] d IH]; simpl; intros H;
    [reflexivity|].
  inversion H as [|? ? Hv Hd]; subst.
  destruct (Z.eqb_spec k' k); [reflexivity | now apply IH].
Qed.

(** The tasks of a round: those still queued and those counted as served. *)
Fixpoint tasks_of (devices : list IoTDevice.t) (counts : Dict.t) : Z :=
  match devices with
  | [] => 0
  | d :: l => Z.of_nat (length (IoTDevice.pending_tasks d))
              + count_of (IoTDevice.id d) counts + tasks_of l counts
  end.

Lemma tasks_of_set_other k v devices counts :
  k ∉ (IoTDevice.id <$> devices) ->
  tasks_of devices (Dict.set k v counts) = tasks_of devices counts.
Proof.
  induction devices as [|d l IH]; intros Hk; [reflexivity|].
  cbn [fmap list_fmap] in Hk. apply not_elem_of_cons in Hk. destruct Hk as [Hd Hl].
  cbn [tasks_of]. rewrite (IH Hl), count_of_set_other by congruence. reflexivity.
Qed.

(** Moving one task of a device from its queue to its count changes nothing. *)
Lemma tasks_of_step devices : forall j dev pending1 counts c,
  NoDup (IoTDevice.id <$> devices) ->
  devices !! j = Some dev ->
  Dict.get (IoTDevice.id dev) counts = Ret c ->
  S (length pending1) = length (IoTDevice.pending_tasks dev) ->
  tasks_of (<[j := IoTDevice.set_pending dev pending1]> devices)
           (Dict.set (IoTDevice.id dev) (c + 1)%Z counts)
  = tasks_of devices counts.
Proof.
  induction devices as [|d l IH]; intros j dev pending1 counts c Hnd Hj Hc Hlen;
    [discriminate|].
  cbn [fmap list_fmap] in Hnd. apply NoDup_cons in Hnd. destruct Hnd as [Hd Hnd].
  destruct j as [|j].
  - injection Hj as ->.
    change (<[0%nat := IoTDevice.set_pending dev pending1]> (dev :: l))
      with (IoTDevice.set_pending dev pending1 :: l).
    cbn [tasks_of IoTDevice.set_pending IoTDevice.pending_tasks IoTDevice.id].
    rewrite count_of_set_same, (tasks_of_set_other _ _ _ _ Hd).
    unfold count_of. rewrite Hc. lia.
  - cbn in Hj.
    change (<[S j := IoTDevice.set_pending dev pending1]> (d :: l))
      with (d :: <[j := IoTDevice.set_pending dev pending1]> l).
    cbn [tasks_of].
    rewrite (IH j dev pending1 counts c Hnd Hj Hc Hlen).
    rewrite count_of_set_other; [reflexivity|].
    intros E. apply Hd. rewrite E. apply list_elem_of_fmap_2.
    eapply list_elem_of_lookup_2. exact Hj.
Qed.

Lemma list_remove_length t l l' :
  list_remove t l = Ret l' -> S (length l') = length l.
Proof.
  intros H. apply list_remove_inv in H.
  destruct H as (before & x & after & (-> & _ & _) & ->).
  rewrite !length_app. simpl. lia.
Qed.

(** What the application loop keeps: the number of tasks, the sum of the
    counts but for one more per allocation, counts that are not negative. *)
Lemma applied_counts allocations : forall st st',
  NoDup (IoTDevice.id <$> a_devices st) ->
  Forall (Z.le 0) (Dict.values (per_device_allocated st)) ->
  for_each apply_allocation allocations st = Ret st' ->
  tasks_of (a_devices st') (per_device_allocated st')
  = tasks_of (a_devices st) (per_device_allocated st)
  /\ Zsum (Dict.values (per_device_allocated st'))
     = (Zsum (Dict.values (per_device_allocated st)) + Z.of_nat (length allocations))%Z
  /\ Forall (Z.le 0) (Dict.values (per_device_allocated st')).
Proof.
  induction allocations as [|[[r w] price] l IH]; intros st st' Hnd Hpos Hrun.
  - injection Hrun as <-. split; [reflexivity|]. split; [simpl; lia | exact Hpos].
  - cbn [for_each] in Hrun. apply PyFacts.bind_Ret_inv in Hrun.
    destruct Hrun as (st1 & Hstep & Hrest).
    apply apply_allocation_inv in Hstep.
    destruct Hstep as (count & j & dev & pending1 & Hget & Hfind & Hrem & Hst1).
    apply list_find_Some in Hfind. destruct Hfind as (Hj & Hid & _).
    pose proof (get_nonneg _ _ _ Hpos Hget) as Hcount.
    assert (Hnd1 : NoDup (IoTDevice.id <$> a_devices st1)).
    { subst st1. cbn [a_devices]. rewrite list_fmap_insert. cbn.
      rewrite list_insert_id; [exact Hnd|]. now rewrite list_lookup_fmap, Hj. }
    assert (Hpos1 : Forall (Z.le 0) (Dict.values (per_device_allocated st1))).
    { subst st1. cbn [per_device_allocated]. apply values_set_nonneg; [lia | exact Hpos]. }
    destruct (IH st1 st' Hnd1 Hpos1 Hrest) as (Htasks & Hsum & Hpos').
    subst st1. cbn [a_devices per_device_allocated] in Htasks, Hsum.
    split; [|split; [|exact Hpos']].
    + rewrite Htasks, <- Hid. apply tasks_of_step; try assumption.
      * now rewrite Hid.
      * now apply list_remove_length in Hrem.
    + rewrite Hsum, (values_set _ _ _ _ Hget). cbn [length]. lia.
Qed.

Lemma applied_counts_nonneg allocations : forall st st',
  Forall (Z.le 0) (Dict.values (per_device_allocated st)) ->
  for_each apply_allocation allocations st = Ret st' ->
  Forall (Z.le 0) (Dict.values (per_device_allocated st')).
Proof.
  induction allocations as [|[[r w] price] l IH]; intros st st' Hpos Hrun.
  - now injection Hrun as <-.
  - cbn [for_each] in Hrun. apply PyFacts.bind_Ret_inv in Hrun.
    destruct Hrun as (st1 & Hstep & Hrest).
    apply apply_allocation_inv in Hstep.
    destruct Hstep as (count & j & dev & pending1 & Hget & _ & _ & Hst1).
    apply (IH st1 st'); [|exact Hrest]. subst st1. cbn [per_device_allocated].
    apply values_set_nonneg; [|exact Hpos].
    pose proof (get_nonneg _ _ _ Hpos Hget). lia.
Qed.

(** [total_tasks] of step 4 is the number of tasks of the round. *)
Lemma counts_sum counts_dict devices : forall counts,
  map_py (fun d => c <- Dict.get (IoTDevice.id d) counts_dict ;;
                   Ret (Z.of_nat (length (IoTDevice.pending_tasks d)) + c)%Z)
         devices = Ret counts ->
  Zsum counts = tasks_of devices counts_dict.
Proof.
  induction devices as [|d l IH]; intros counts H.
  - now injection H as <-.
  - cbn [map_py] in H. apply PyFacts.bind_Ret_inv in H. destruct H as (y & Hy & H).
    apply PyFacts.bind_Ret_inv in H. destruct H as (ys & Hys & [= <-]).
    apply PyFacts.bind_Ret_inv in Hy. destruct Hy as (c & Hc & [= <-]).
    rewrite Zsum_cons, (IH _ Hys). cbn [tasks_of]. unfold count_of. rewrite Hc. lia.
Qed.

Lemma tasks_of_zero devices counts :
  Forall (eq 0%Z) (Dict.values counts) ->
  tasks_of devices counts = Z.of_nat (length (keys_of devices)).
Proof.
  intros Hz. induction devices as [|d l IH]; [reflexivity|].
  cbn [tasks_of]. rewrite IH, (zeros_count _ _ Hz).
  change (keys_of (d :: l))
    with (List.map (pair (IoTDevice.id d)) (IoTDevice.pending_tasks d) ++ keys_of l).
  rewrite length_app, length_map. lia.
Qed.

Lemma allocations_length providers g requests :
  (length (flat_map (allocation_of providers g) requests) <= length requests)%nat.
Proof.
  induction requests as [|r l IH]; [reflexivity|].
  cbn [flat_map]. rewrite length_app. unfold allocation_of at 1.
  destruct (clearing _) as [[w p]|]; simpl; lia.
Qed.

(** The stages of a round and the efficiency it reports. *)
Lemma round_account exp sys draw sys' m :
  NoDup (IoTDevice.id <$> devices sys) ->
  round exp sys draw = Ret (sys', m) ->
  exists requests allocations rejections st,
    round_batch exp sys draw sys' requests allocations rejections
    /\ List.map key requests = keys_of (generated (devices sys) draw 0)
    /\ Auctioneer.run requests (nodes sys) (network sys)
       = Ret (allocations, rejections)
    /\ for_each apply_allocation allocations
         {| a_nodes := nodes sys;
            a_devices := generated (devices sys) draw 0;
            welfare := 0.0;
            per_device_allocated :=
              fold_left (fun d dev => Dict.set (IoTDevice.id dev) 0%Z d)
                        (generated (devices sys) draw 0) [] |}
       = Ret st
    /\ sys' = {| network := network sys; nodes := a_nodes st; devices := a_devices st |}
    /\ (length allocations <= length requests)%nat
    /\ (requests = [] -> allocation_eff m = 1.0)
    /\ (requests <> [] ->
        allocation_eff m = inject_Z (Z.of_nat (length allocations))
                           / inject_Z (Z.of_nat (length requests)))
    /\ jain_index (List.map inject_Z (Dict.values (per_device_allocated st)))
       = Ret (fairness m).
Proof.
  intros Hnd Hround. apply round_stages in Hround.
  destruct Hround as (requests & allocations & rejections & st & Hc & Hkeys & Hrun
                      & Happ & Hsys & (counts & Hcounts & Heff) & Hjain & _).
  exists requests, allocations, rejections, st.
  split; [split; [exact Hc|]; split; [exact Hrun|]; exists st; now split|].
  split; [exact Hkeys|]. split; [exact Hrun|]. split; [exact Happ|].
  split; [exact Hsys|].
  set (st0 := {| a_nodes := nodes sys;
                 a_devices := generated (devices sys) draw 0; welfare := 0.0;
                 per_device_allocated :=
                   fold_left (fun d dev => Dict.set (IoTDevice.id dev) 0%Z d)
                             (generated (devices sys) draw 0) [] |}) in *.
  assert (Hzero : Forall (eq 0%Z) (Dict.values (per_device_allocated st0)))
    by (apply initial_counts_zero; constructor).
  destruct (zeros_sum _ Hzero) as [Hsum0 Hpos0].
  destruct (applied_counts allocations st0 st) as (Htasks & Hsum & _);
    [cbn; now rewrite generated_ids | exact Hpos0 | exact Happ |].
  rewrite Hsum0, Z.add_0_l in Hsum.
  rewrite (counts_sum _ _ _ Hcounts), Htasks, (tasks_of_zero _ _ Hzero) in Heff.
  cbn [a_devices st0] in Heff. rewrite <- Hkeys, length_map, Hsum in Heff.
  split.
  { apply run_inv in Hrun. destruct Hrun as [-> _]. apply allocations_length. }
  split; [|split; [|exact Hjain]].
  - intros ->. cbn in Heff. now injection Heff as <-.
  - intros Hne. destruct (Z.eqb_spec (Z.of_nat (length requests)) 0) as [E|E].
    + contradiction Hne. apply length_zero_iff_nil. lia.
    + unfold py_div in Heff.
      assert (Hnz : ~ inject_Z (Z.of_nat (length requests)) == 0).
      { unfold Qeq. simpl. lia. }
      apply FloatFacts.eqb_neq in Hnz. rewrite Hnz in Heff. now injection Heff as <-.
Qed.

(** X8: the allocation efficiency of a round.  For devices with identities
    of their own, a round that returns has collected a batch of requests
    with [collect_requests] and run its auction on it, and it reports 1.0
    when that batch is empty, and otherwise the number of allocations of
    that auction divided by the number of requests of that batch; the value
    lies between 0 and 1. *)
Theorem allocation_efficiency (exp : Q -> Q) (sys sys' : EdgeComputingSystem.t)
    (draw : nat -> IoTTask) (m : metrics) :
  NoDup (IoTDevice.id <$> devices sys) ->
  round exp sys draw = Ret (sys', m) ->
  exists requests allocations rejections,
    round_batch exp sys draw sys' requests allocations rejections
    /\ (requests = [] -> allocation_eff m = 1.0)
    /\ (requests <> [] ->
        allocation_eff m = inject_Z (Z.of_nat (length allocations))
                           / inject_Z (Z.of_nat (length requests)))
    /\ 0 <= allocation_eff m <= 1.
Proof.
  intros Hnd Hround.
  destruct (round_account _ _ _ _ _ Hnd Hround)
    as (requests & allocations & rejections & st & Hbatch & _ & _ & _ & _ & Hle
        & Hnil & Hcons & _).
  exists requests, allocations, rejections.
  split; [exact Hbatch|]. split; [exact Hnil|]. split; [exact Hcons|].
  destruct (Nat.eq_dec (length requests) 0%nat) as [E|E].
  - apply length_zero_iff_nil in E. rewrite (Hnil E). split; discriminate.
  - assert (Hne : requests <> []) by (intros ->; now apply E).
    rewrite (Hcons Hne).
    assert (Hpos : 0 < inject_Z (Z.of_nat (length requests))).
    { change 0 with (inject_Z 0). rewrite <- Zlt_Qlt. lia. }
    assert (Ha : 0 <= inject_Z (Z.of_nat (length allocations))).
    { change 0 with (inject_Z 0). rewrite <- Zle_Qle. lia. }
    assert (Hb : inject_Z (Z.of_nat (length allocations))
                 <= inject_Z (Z.of_nat (length requests))).
    { rewrite <- Zle_Qle. lia. }
    split.
    + apply Qle_shift_div_l; [exact Hpos | lra].
    + apply Qle_shift_div_r; [exact Hpos | lra].
Qed.

Lemma allocation_efficiency_witness :
  exists sys' m requests allocations rejections,
    round Scenario.exp2 Scenario.crowded Scenario.camera_task = Ret (sys', m)
    /\ round_batch Scenario.exp2 Scenario.crowded Scenario.camera_task sys'
         requests allocations rejections
    /\ (requests <> [] ->
        allocation_eff m = inject_Z (Z.of_nat (length allocations))
                           / inject_Z (Z.of_nat (length requests)))
    /\ 0 <= allocation_eff m <= 1.
Proof.
  assert (H : exists sys' m,
            round Scenario.exp2 Scenario.crowded Scenario.camera_task = Ret (sys', m))
    by (vm_compute; eauto).
  destruct H as (sys' & m & H). exists sys', m.
  assert (Hnd : NoDup (IoTDevice.id <$> devices Scenario.crowded))
    by (apply (bool_decide_unpack _); vm_compute; exact I).
  destruct (allocation_efficiency _ _ _ _ _ Hnd H)
    as (requests & allocations & rejections & Hbatch & _ & Hcons & Hrange).
  exists requests, allocations, rejections. repeat (split; [assumption|]).
  exact Hrange.
Defined.

(** *** Fairness *)

(** The index of a non-negative vector lies in (0, 1]. *)
Lemma jain_index_range v j :
  Forall (Qle 0) v -> jain_index v = Ret j -> 0 < j <= 1.
Proof.
  intros Hv Hj. destruct v as [|x l].
  - injection Hj as <-. split; [reflexivity | discriminate].
  - destruct (Qeq_dec (Fairness.squares (x :: l)) 0) as [Hz|Hnz].
    + rewrite (Fairness.jain_index_zero_squares _ _ Hz) in Hj. injection Hj as <-.
      split; [reflexivity | discriminate].
    + destruct (Fairness.jain_index_ratio _ _ Hnz) as (j' & Hj' & Hval).
      rewrite Hj' in Hj. injection Hj as <-.
      set (v := x :: l) in *.
      pose proof (Fairness.size_pos x l) as Hn. fold v in Hn.
      pose proof (Fairness.squares_nonneg v) as Hs.
      pose proof (Fairness.total_pos v Hv Hnz) as Ht.
      pose proof (Fairness.gap_nonneg v) as Hg. unfold Fairness.gap in Hg.
      assert (Hs' : 0 < Fairness.squares v).
      { destruct (Qlt_le_dec 0 (Fairness.squares v)) as [Hp|Hq]; [exact Hp|].
        exfalso. apply Hnz. lra. }
      assert (Hden : 0 < Fairness.size v * Fairness.squares v)
        by now apply Qmult_lt_0_compat.
      assert (Hsq : 0 < Fairness.total v ^ 2) by nra.
      rewrite Hval. split.
      * apply Qlt_shift_div_l; [exact Hden | lra].
      * apply Qle_shift_div_r; [exact Hden | lra].
Qed.

Lemma inject_nonneg l : Forall (Z.le 0) l -> Forall (Qle 0) (List.map inject_Z l).
Proof.
  induction 1 as [|x l Hx _ IH]; cbn; constructor; [|exact IH].
  change 0 with (inject_Z 0). now rewrite <- Zle_Qle.
Qed.

(** X9: the fairness of a round that returns lies in (0, 1]: the counts it
    is computed from start at 0 and only ever go up. *)
Theorem fairness_in_range (exp : Q -> Q) (sys sys' : EdgeComputingSystem.t)
    (draw : nat -> IoTTask) (m : metrics) :
  round exp sys draw = Ret (sys', m) -> 0 < fairness m <= 1.
Proof.
  intros Hround. apply round_stages in Hround.
  destruct Hround as (requests & allocations & rejections & st & _ & _ & _ & Happ
                      & _ & _ & Hfair & _).
  apply (jain_index_range _ _ ) in Hfair; [exact Hfair|].
  assert (Hpos : Forall (Z.le 0) (Dict.values (per_device_allocated st))).
  { apply (applied_counts_nonneg _ _ _ ) in Happ; [exact Happ|].
    cbn [per_device_allocated].
    apply zeros_sum, initial_counts_zero. constructor. }
  now apply inject_nonneg.
Qed.

Lemma fairness_in_range_witness :
  exists sys' m,
    round Scenario.exp2 Scenario.starved (fun _ => Scenario.small_task) = Ret (sys', m)
    /\ 0 < fairness m <= 1.
Proof.
  assert (H : exists sys' m,
            round Scenario.exp2 Scenario.starved (fun _ => Scenario.small_task)
            = Ret (sys', m)) by (vm_compute; eauto).
  destruct H as (sys' & m & H). exists sys', m. split; [exact H|].
  exact (fairness_in_range _ _ _ _ _ H).
Defined.

End MetricsFacts.

(* ------------------------------------------------------------------------- *)
(** ** The loop of [run]: round after round                                   *)
(* ------------------------------------------------------------------------- *)

Module RunFacts.
Import EdgeComputingSystem CostFacts AuctionFacts SystemFacts RoundFacts Liveness.
Import RoundAccounts.

(** What a round keeps: the topology, the providers up to [available], the
    devices up to their queues, which only lose tasks. *)
Lemma round_frame exp sys draw sys' m :
  round exp sys draw = Ret (sys', m) ->
  network sys' = network sys
  /\ length (nodes sys') = length (nodes sys)
  /\ (forall i p, nodes sys !! i = Some p ->
        exists p', nodes sys' !! i = Some p' /\ same_static p p')
  /\ length (devices sys') = length (devices sys)
  /\ (forall i d, devices sys !! i = Some d ->
        exists d', devices sys' !! i = Some d'
          /\ same_device d d'
          /\ sublist (IoTDevice.pending_tasks d')
                     (IoTDevice.pending_tasks d ++ [draw i])).
Proof.
  intros Hround. apply round_inv in Hround.
  destruct Hround as (requests & allocations & rejections & st & _ & Happ & -> & _).
  cbn [network nodes devices]. split; [reflexivity|]. split.
  { now rewrite (applied_nodes_length _ _ _ Happ). }
  split.
  { intros i p Hi. destruct (applied_nodes _ _ _ i p Happ Hi) as (p' & Hp' & Hs & _).
    eauto. }
  split.
  { rewrite (applied_devices_length _ _ _ Happ). cbn [a_devices].
    unfold generated. rewrite length_map, length_combine, length_seq. lia. }
  intros i d Hi.
  pose proof (generated_lookup _ draw 0 _ _ Hi) as Hgen. cbn [Nat.add] in Hgen.
  destruct (applied_devices _ _ _ i _ Happ Hgen) as (d' & Hd' & Hsame & Hsub).
  exists d'. auto.
Qed.

Lemma sublist_In (l1 l2 : list IoTTask) t : sublist l1 l2 -> In t l1 -> In t l2.
Proof.
  induction 1 as [|x l1 l2 _ IH|x l1 l2 _ IH]; intros Hin.
  - exact Hin.
  - destruct Hin as [ -> |Hin]; [now left | right; auto].
  - right. auto.
Qed.

Lemma distinct_tasks_sublist l1 l2 :
  sublist l1 l2 -> distinct_tasks l2 -> distinct_tasks l1.
Proof.
  induction 1 as [|x l1 l2 Hs IH|x l1 l2 Hs IH]; intros Hd.
  - exact I.
  - destruct Hd as [Hx Hd]. split; [|auto].
    intros t' Ht'. apply Hx. eapply sublist_In; eassumption.
  - destruct Hd as [_ Hd]. auto.
Qed.

Lemma distinct_tasks_snoc l x :
  distinct_tasks l -> (forall t, In t l -> task_eqb x t = false) ->
  distinct_tasks (l ++ [x]).
Proof.
  induction l as [|y l IH]; intros Hd Hx.
  - split; [intros t' []| exact I].
  - destruct Hd as [Hy Hd]. split.
    + intros t' Ht'. apply in_app_or in Ht'. destruct Ht' as [Ht'|[<-|[]]].
      * now apply Hy.
      * apply Hx. now left.
    + apply IH; [exact Hd|]. intros t Ht. apply Hx. now right.
Qed.

Section Rounds.

(** [draws r i]: the task the device at position [i] generates in round [r]. *)
Variable draws : nat -> nat -> IoTTask.

(** What [generate_task] draws for the first [m] devices: deadlines that
    are not zero, and for one device never the same task twice. *)
Definition fresh_draws (m : nat) : Prop :=
  forall i, (i < m)%nat ->
    (forall r, ~ deadline (draws r i) == 0)
    /\ (forall r r', (r < r')%nat -> task_eqb (draws r' i) (draws r i) = false).

(** A system that can enter round [r]: providers that can be costed, devices
    with identities of their own, each with an edge to a provider, and
    queues of tasks that differ from one another and from the tasks still
    to be drawn, with deadlines that are not zero. *)
Definition runnable (r : nat) (sys : EdgeComputingSystem.t) : Prop :=
  Forall (well_formed (network sys)) (nodes sys)
  /\ NoDup (IoTDevice.id <$> devices sys)
  /\ forall i d, devices sys !! i = Some d ->
       has_direct_provider (network sys) (nodes sys) d
       /\ distinct_tasks (IoTDevice.pending_tasks d)
       /\ forall t, In t (IoTDevice.pending_tasks d) ->
            ~ deadline t == 0
            /\ forall r', (r <= r')%nat -> task_eqb (draws r' i) t = false.

Lemma runnable_well_formed r sys :
  fresh_draws (length (devices sys)) -> runnable r sys ->
  well_formed_system sys (draws r).
Proof.
  intros Hfresh (Hwf & Hids & Hdev). split; [exact Hwf|]. split; [exact Hids|].
  intros i d Hi. destruct (Hdev i d Hi) as (Hp & Hdist & Hq).
  split; [exact Hp|]. split.
  - intros t Ht. apply in_app_or in Ht. destruct Ht as [Ht|[<-|[]]].
    + now apply Hq.
    + apply Hfresh. eapply lookup_lt_Some; exact Hi.
  - apply distinct_tasks_snoc; [exact Hdist|].
    intros t Ht. destruct (Hq t Ht) as [_ Hne]. apply Hne. lia.
Qed.

Lemma runnable_step exp r sys sys' m :
  fresh_draws (length (devices sys)) -> runnable r sys ->
  round exp sys (draws r) = Ret (sys', m) -> runnable (S r) sys'.
Proof.
  intros Hfresh (Hwf & Hids & Hdev) Hround.
  destruct (round_frame _ _ _ _ _ Hround) as (Hnet & Hln & Hnodes & Hld & Hdevs).
  assert (Hback : forall i d', devices sys' !! i = Some d' ->
            exists d, devices sys !! i = Some d /\ same_device d d'
                      /\ sublist (IoTDevice.pending_tasks d')
                                 (IoTDevice.pending_tasks d ++ [draws r i])).
  { intros i d' Hi. assert (Hlt : (i < length (devices sys))%nat)
      by (rewrite <- Hld; eapply lookup_lt_Some; exact Hi).
    destruct (lookup_lt_is_Some_2 _ _ Hlt) as [d Hd].
    destruct (Hdevs i d Hd) as (d'' & Hd'' & Hsame & Hsub).
    rewrite Hi in Hd''. injection Hd'' as <-. eauto. }
  split; [|split].
  - rewrite Hnet. apply Forall_lookup. intros i p' Hi.
    assert (Hlt : (i < length (nodes sys))%nat)
      by (rewrite <- Hln; eapply lookup_lt_Some; exact Hi).
    destruct (lookup_lt_is_Some_2 _ _ Hlt) as [p Hp].
    destruct (Hnodes i p Hp) as (p'' & Hp'' & Hid & Hcap & _).
    rewrite Hi in Hp''. injection Hp'' as <-.
    pose proof (proj1 (Forall_lookup _ _) Hwf i p Hp) as [Hc Hn].
    split; [now rewrite Hcap | now rewrite Hid].
  - replace (IoTDevice.id <$> devices sys') with (IoTDevice.id <$> devices sys);
      [exact Hids|].
    apply list_eq. intros i. rewrite !list_lookup_fmap.
    destruct (devices sys !! i) as [d|] eqn:Hd.
    + destruct (Hdevs i d Hd) as (d' & -> & (Hid & _) & _). cbn. now rewrite Hid.
    + apply lookup_ge_None in Hd. rewrite <- Hld in Hd.
      apply lookup_ge_None in Hd. now rewrite Hd.
  - intros i d' Hi. destruct (Hback i d' Hi) as (d & Hd & (Hid & _) & Hsub).
    destruct (Hdev i d Hd) as ((p & Hp & He) & Hdist & Hq).
    assert (Hall : distinct_tasks (IoTDevice.pending_tasks d ++ [draws r i])).
    { apply distinct_tasks_snoc; [exact Hdist|].
      intros t Ht. destruct (Hq t Ht) as [_ Hne]. apply Hne. lia. }
    split; [|split].
    + apply list_elem_of_In, list_elem_of_lookup in Hp. destruct Hp as [j Hj].
      destruct (Hnodes j p Hj) as (p' & Hp' & Hpid & _).
      exists p'. split.
      * apply list_elem_of_In. eapply list_elem_of_lookup_2; exact Hp'.
      * now rewrite Hnet, Hid, Hpid.
    + eapply distinct_tasks_sublist; eassumption.
    + intros t Ht. apply (sublist_In _ _ _ Hsub) in Ht.
      apply in_app_or in Ht. destruct Ht as [Ht|[<-|[]]].
      * destruct (Hq t Ht) as [Hdl Hne]. split; [exact Hdl|].
        intros r' Hr'. apply Hne. lia.
      * destruct (Hfresh i) as [Hdl Hne]; [eapply lookup_lt_Some; exact Hd|].
        split; [apply Hdl|].
        intros r' Hr'. apply Hne. lia.
Qed.

Lemma run_from_returns exp : forall n r sys,
  fresh_draws (length (devices sys)) -> runnable r sys ->
  exists sys' ms, run_from exp r n sys draws = Ret (sys', ms)
                  /\ length ms = n /\ runnable (r + n) sys'.
Proof.
  induction n as [|n IH]; intros r sys Hfresh Hrun.
  - exists sys, []. rewrite Nat.add_0_r. auto.
  - destruct (round_returns exp sys (draws r)) as (sys1 & m & Hround);
      [now apply runnable_well_formed|].
    pose proof (runnable_step _ _ _ _ _ Hfresh Hrun Hround) as Hrun1.
    assert (Hfresh1 : fresh_draws (length (devices sys1))).
    { destruct (round_frame _ _ _ _ _ Hround) as (_ & _ & _ & Hld & _).
      now rewrite Hld. }
    destruct (IH (S r) sys1 Hfresh1 Hrun1) as (sys2 & ms & Hrest & Hlen & Hrun2).
    exists sys2, (m :: ms). cbn [run_from]. rewrite Hround. cbn [bind].
    rewrite Hrest. cbn [bind]. split; [reflexivity|]. split; [cbn; lia|].
    now replace (r + S n)%nat with (S r + n)%nat by lia.
Qed.

End Rounds.

(** The identifier of the task drawn in round [r] of the example below. *)
Fixpoint ticket (r : nat) : string :=
  match r with
  | O => EmptyString
  | S r' => String (Ascii.ascii_of_nat 97) (ticket r')
  end.

Lemma ticket_length r : String.length (ticket r) = r.
Proof. induction r as [|r IH]; cbn; [reflexivity | now rewrite IH]. Qed.

(** In every round, every device draws a small task under a new identifier. *)
Definition ticking (r i : nat) : IoTTask :=
  {| task_id := ticket r; cpu := 2; memory := 4; deadline := 2;
     data_size := 10; priority := 3 |}.

Lemma ticking_fresh m : fresh_draws ticking m.
Proof.
  intros i _. split.
  - intros r. cbn. discriminate.
  - intros r r' Hlt. unfold task_eqb. cbn [task_id ticking].
    assert (E : String.eqb (ticket r') (ticket r) = false).
    { apply String.eqb_neq. intros E. apply (f_equal String.length) in E.
      rewrite !ticket_length in E. lia. }
    now rewrite E.
Qed.

Lemma starved_runnable : runnable ticking 0 Scenario.starved.
Proof.
  split; [|split].
  - repeat constructor; cbn; discriminate.
  - apply (bool_decide_unpack _). vm_compute. exact I.
  - intros [|i] d Hi; [|discriminate]. injection Hi as <-. split; [|split].
    + exists (EdgeNode.init 0 20 32). split; [now left | reflexivity].
    + cbn. split; [intros t' [] | exact I].
    + intros t [<-|[]]. split; [cbn; discriminate|].
      intros r' _. unfold task_eqb. cbn.
      now destruct (String.eqb _ _).
Qed.

(** X10: [run] does not raise on a system of the data model (no negative
    weight in the graph, providers within their capacity, and tasks,
    pending and drawn, with positive demands, deadline and size and a
    priority from 1 to 5) whose providers have a capacity and a node in the
    graph, whose devices have identifiers of their own and each an edge to a
    provider, and whose tasks, pending and generated, differ from one
    another on every device: it goes through all [n_rounds] rounds and
    yields one record of metrics per round.  The data model is where the
    total functions of the model stand for the code: the shortest-path
    search takes no negative weight, and [math.exp] overflows on a large
    argument, which a negative deadline or latency would give it. *)
Theorem run_never_raises (exp : Q -> Q) (n_rounds : nat)
    (sys : EdgeComputingSystem.t) (draws : nat -> nat -> IoTTask) :
  GraphFacts.nonneg_weights (network sys) ->
  Forall within_capacity (nodes sys) ->
  (forall i d t, devices sys !! i = Some d ->
     In t (IoTDevice.pending_tasks d) -> data_model_task t) ->
  (forall r i, (i < length (devices sys))%nat -> data_model_task (draws r i)) ->
  fresh_draws draws (length (devices sys)) -> runnable draws 0 sys ->
  exists sys' ms,
    run exp n_rounds sys draws = Ret (sys', ms) /\ length ms = n_rounds.
Proof.
  intros _ _ _ _ Hfresh Hrun.
  destruct (run_from_returns draws exp n_rounds 0 sys Hfresh Hrun)
    as (sys' & ms & Hret & Hlen & _).
  exists sys', ms. auto.
Qed.

Lemma run_never_raises_witness :
  exists sys' ms,
    run Scenario.exp2 3 Scenario.starved ticking = Ret (sys', ms)
    /\ length ms = 3%nat.
Proof.
  apply (run_never_raises Scenario.exp2 3 Scenario.starved ticking).
  - repeat constructor; vm_compute; intros E; discriminate E.
  - repeat constructor; vm_compute; intros E; discriminate E.
  - intros [|i] d t Hi; [|discriminate]. injection Hi as <-.
    intros [<-|[]]; repeat split; vm_compute; congruence.
  - intros r i _. repeat split; vm_compute; congruence.
  - apply ticking_fresh.
  - exact starved_runnable.
Defined.

End RunFacts.

(* ------------------------------------------------------------------------- *)
(** ** The tasks [generate_task] draws                                        *)
(* ------------------------------------------------------------------------- *)

Module TaskFacts.
Import IoTDevice.

(** A value of [random()]. *)
Definition in_unit (u : Q) : Prop := 0 <= u /\ u < 1.

Lemma uniform_range a b u :
  a <= b -> in_unit u ->
  a <= Random.uniform a b u /\ (a < b -> Random.uniform a b u < b).
Proof.
  intros Hab [H0 H1]. unfold Random.uniform. split; [nra|]. intros Hlt. nra.
Qed.

Lemma randint_range a b r :
  (a <= b)%Z -> exists k, Random.randint a b r = Ret k /\ (a <= k <= b)%Z.
Proof.
  intros Hab. unfold Random.randint.
  destruct (Z.ltb_spec b a) as [Hlt|_]; [lia|].
  eexists. split; [reflexivity|].
  pose proof (Z.mod_pos_bound r (b - a + 1)). lia.
Qed.

(** The ranges of a drawn task, whatever the type of the device. *)
Definition valid_task (t : IoTTask) : Prop :=
  (0.1 <= cpu t /\ cpu t < 8)
  /\ (0.1 <= memory t /\ memory t < 16)
  /\ (0.5 <= deadline t /\ deadline t < 10)
  /\ (1 <= data_size t /\ data_size t < 100)
  /\ (1 <= priority t <= 5)%Z.

Lemma draw_task_spec self tid u_cpu u_memory u_deadline u_size r_priority :
  in_unit u_cpu -> in_unit u_memory -> in_unit u_deadline -> in_unit u_size ->
  exists t,
    draw_task self tid u_cpu u_memory u_deadline u_size r_priority = Ret t
    /\ task_id t = tid /\ valid_task t.
Proof.
  intros H1 H2 H3 H4. unfold draw_task.
  destruct (randint_range 1 5 r_priority) as (k & Hk & Hk15); [lia|].
  destruct (String.eqb (type self) "sensor");
    [|destruct (String.eqb (type self) "camera")];
    rewrite Hk; cbn [bind]; (eexists; split; [reflexivity|]);
    (split; [reflexivity|]); unfold valid_task;
    cbn [cpu memory deadline data_size priority];
    (split; [|split; [|split; [|split; [|exact Hk15]]]]).
  all: match goal with
       | H : in_unit ?u |- context [Random.uniform ?a ?b ?u] =>
           destruct (uniform_range a b u) as [Hlo Hhi];
           [discriminate | exact H |]; specialize (Hhi eq_refl); split; lra
       end.
Qed.

(** X11: whatever the type of the device and whatever the generator draws,
    [generate_task] yields a task with 0.1 <= cpu < 8, 0.1 <= memory < 16,
    0.5 <= deadline < 10, 1 <= data_size < 100 and a priority in 1..5, under
    the identifier drawn for it, and appends it to the queue of the device:
    nothing that is already pending is touched. *)
Theorem generated_task_is_valid (self : IoTDevice.t) (tid : string)
    (u_cpu u_memory u_deadline u_size : Q) (r_priority : Z) :
  in_unit u_cpu -> in_unit u_memory -> in_unit u_deadline -> in_unit u_size ->
  exists t,
    draw_task self tid u_cpu u_memory u_deadline u_size r_priority = Ret t
    /\ task_id t = tid
    /\ valid_task t
    /\ snd (generate_task self t) = t
    /\ pending_tasks (fst (generate_task self t)) = pending_tasks self ++ [t]
    /\ id (fst (generate_task self t)) = id self
    /\ type (fst (generate_task self t)) = type self.
Proof.
  intros H1 H2 H3 H4.
  destruct (draw_task_spec self tid _ _ _ _ r_priority H1 H2 H3 H4)
    as (t & Ht & Hid & Hvalid).
  exists t. repeat split; try assumption; apply Hvalid.
Qed.

Lemma half_in_unit : in_unit (1 # 2).
Proof. split; [discriminate | reflexivity]. Qed.

Lemma generated_task_is_valid_witness :
  exists t,
    draw_task (IoTDevice.init 3 "camera") "5f1c2a90" (1 # 2) (1 # 2) (1 # 2) (1 # 2) 7
    = Ret t
    /\ task_id t = "5f1c2a90"%string
    /\ valid_task t
    /\ snd (generate_task (IoTDevice.init 3 "camera") t) = t
    /\ pending_tasks (fst (generate_task (IoTDevice.init 3 "camera") t)) = [] ++ [t]
    /\ id (fst (generate_task (IoTDevice.init 3 "camera") t)) = 3%Z
    /\ type (fst (generate_task (IoTDevice.init 3 "camera") t)) = "camera"%string.
Proof.
  apply (generated_task_is_valid (IoTDevice.init 3 "camera") "5f1c2a90"
           (1 # 2) (1 # 2) (1 # 2) (1 # 2) 7); exact half_in_unit.
Defined.

(** A node as [__init__] leaves it: the full capacity available. *)
Lemma fresh_node_capacity agent_id u_cpu u_memory :
  in_unit u_cpu -> in_unit u_memory ->
  let p := EdgeNode.init agent_id (Random.uniform 20.0 40.0 u_cpu)
                         (Random.uniform 32.0 64.0 u_memory) in
  EdgeNode.available p = EdgeNode.capacity p
  /\ (20 <= r_cpu (EdgeNode.capacity p) /\ r_cpu (EdgeNode.capacity p) < 40)
  /\ (32 <= r_memory (EdgeNode.capacity p) /\ r_memory (EdgeNode.capacity p) < 64).
Proof.
  intros H1 H2. cbn.
  destruct (uniform_range 20.0 40.0 u_cpu) as [Hlo1 Hhi1]; [discriminate | exact H1 |].
  destruct (uniform_range 32.0 64.0 u_memory) as [Hlo2 Hhi2];
    [discriminate | exact H2 |].
  specialize (Hhi1 eq_refl). specialize (Hhi2 eq_refl).
  split; [reflexivity|]. split; split; lra.
Qed.

(** A provider with its full capacity available, of at least 20 CPU and 32
    memory, bids on a valid task of a neighbour: base price, energy and
    a tenth of the latency, without surcharge for load. *)
Lemma unloaded_cost p req g w :
  EdgeNode.available p = EdgeNode.capacity p ->
  20 <= r_cpu (EdgeNode.capacity p) -> 32 <= r_memory (EdgeNode.capacity p) ->
  valid_task (task req) ->
  nx.find_edge g (EdgeNode.id p) (device_id req) = Some w ->
  exists c,
    EdgeNode.cost_for_request p req g = Ret (Some c)
    /\ c == cpu (task req) * r_cpu (EdgeNode.base_price p)
            + memory (task req) * r_memory (EdgeNode.base_price p)
            + cpu (task req) * EdgeNode.power_per_cpu p * EdgeNode.energy_price p
            + w * 0.1.
Proof.
  intros Havail Hcpu Hmem ((Hc0 & Hc1) & (Hm0 & Hm1) & _) He.
  unfold EdgeNode.cost_for_request. rewrite Havail.
  assert (E1 : Float.ltb (r_cpu (EdgeNode.capacity p)) (cpu (task req)) = false)
    by (apply FloatFacts.ltb_ge; lra).
  assert (E2 : Float.ltb (r_memory (EdgeNode.capacity p)) (memory (task req)) = false)
    by (apply FloatFacts.ltb_ge; lra).
  rewrite E1, E2. cbn [orb]. unfold py_div.
  assert (E3 : Float.eqb (r_cpu (EdgeNode.capacity p)) 0 = false)
    by (apply FloatFacts.eqb_neq; lra).
  rewrite E3. cbn [bind]. unfold nx.has_edge, nx.weight. rewrite He. cbn [bind].
  eexists. split; [reflexivity|].
  assert (Hq : r_cpu (EdgeNode.capacity p) / r_cpu (EdgeNode.capacity p) == 1)
    by (field; lra).
  rewrite Hq. ring.
Qed.

(** X12: a provider as the constructor leaves it never refuses the task a
    neighbouring device generates and charges it no surcharge for load: the
    cost is 0.2 per unit of CPU, 0.05 per unit of memory, the energy of the
    CPU (2.0 * 0.01 per unit) and a tenth of the latency of the edge. *)
Theorem fresh_node_prices_generated_task (agent_id : Z) (u_cap_cpu u_cap_memory : Q)
    (device : IoTDevice.t) (tid : string) (u_cpu u_memory u_deadline u_size : Q)
    (r_priority : Z) (bid : Q) (g : nx.Graph) (w : Q) :
  in_unit u_cap_cpu -> in_unit u_cap_memory ->
  in_unit u_cpu -> in_unit u_memory -> in_unit u_deadline -> in_unit u_size ->
  nx.find_edge g agent_id (id device) = Some w ->
  exists t c,
    draw_task device tid u_cpu u_memory u_deadline u_size r_priority = Ret t
    /\ EdgeNode.cost_for_request
         (EdgeNode.init agent_id (Random.uniform 20.0 40.0 u_cap_cpu)
                        (Random.uniform 32.0 64.0 u_cap_memory))
         {| device_id := id device; task := t; bid_value := bid |} g
       = Ret (Some c)
    /\ c == cpu t * 0.2 + memory t * 0.05 + cpu t * 2.0 * 0.01 + w * 0.1.
Proof.
  intros Hc1 Hc2 H1 H2 H3 H4 He.
  destruct (draw_task_spec device tid _ _ _ _ r_priority H1 H2 H3 H4)
    as (t & Ht & _ & Hvalid).
  destruct (fresh_node_capacity agent_id _ _ Hc1 Hc2) as (Havail & [Hcpu _] & [Hmem _]).
  destruct (unloaded_cost _ {| device_id := id device; task := t; bid_value := bid |}
              g w Havail Hcpu Hmem Hvalid He) as (c & Hcost & Hc).
  exists t, c. split; [exact Ht|]. split; [exact Hcost | exact Hc].
Qed.

Lemma fresh_node_prices_generated_task_witness :
  exists t c,
    draw_task Scenario.device3 "5f1c2a90" (1 # 2) (1 # 2) (1 # 2) (1 # 2) 7 = Ret t
    /\ EdgeNode.cost_for_request
         (EdgeNode.init 1 (Random.uniform 20.0 40.0 (1 # 2))
                        (Random.uniform 32.0 64.0 (1 # 2)))
         {| device_id := id Scenario.device3; task := t; bid_value := 10 |}
         Scenario.topology
       = Ret (Some c)
    /\ c == cpu t * 0.2 + memory t * 0.05 + cpu t * 2.0 * 0.01 + 0.5 * 0.1.
Proof.
  apply (fresh_node_prices_generated_task 1 (1 # 2) (1 # 2) Scenario.device3
           "5f1c2a90" (1 # 2) (1 # 2) (1 # 2) (1 # 2) 7 10 Scenario.topology 0.5);
    try exact half_in_unit.
  reflexivity.
Defined.

End TaskFacts.

(* ------------------------------------------------------------------------- *)
(** ** The constructor: [__init__] and [_init_topology]                       *)
(* ------------------------------------------------------------------------- *)

Module Construction.
Import EdgeComputingSystem CostFacts Liveness TaskFacts.

(** *** Loops that keep an invariant *)

Lemma for_each_invariant {A S} (I : S -> Prop) (body : S -> A -> py S) l :
  (forall s x, In x l -> I s -> exists s', body s x = Ret s' /\ I s') ->
  forall s, I s -> exists s', for_each body l s = Ret s' /\ I s'.
Proof.
  induction l as [|x l IH]; intros Hbody s Hs.
  - exists s. auto.
  - destruct (Hbody s x (or_introl eq_refl) Hs) as (s1 & Hstep & Hs1).
    cbn [for_each]. rewrite Hstep. cbn [bind].
    apply IH; [|exact Hs1]. intros s0 y Hy. apply Hbody. now right.
Qed.

(** The invariant may speak of the elements already visited. *)
Lemma for_each_visited {A S} (J : list A -> S -> Prop) (body : S -> A -> py S) l :
  (forall visited x s, In x l -> J visited s ->
     exists s', body s x = Ret s' /\ J (visited ++ [x]) s') ->
  forall s, J [] s -> exists s', for_each body l s = Ret s' /\ J l s'.
Proof.
  intros Hbody.
  assert (H : forall rest visited s,
            (forall x, In x rest -> In x l) -> J visited s ->
            exists s', for_each body rest s = Ret s' /\ J (visited ++ rest) s').
  { induction rest as [|x rest IH]; intros visited s Hsub Hs.
    - exists s. rewrite app_nil_r. auto.
    - destruct (Hbody visited x s (Hsub x (or_introl eq_refl)) Hs) as (s1 & Hstep & Hs1).
      cbn [for_each]. rewrite Hstep. cbn [bind].
      destruct (IH (visited ++ [x]) s1) as (s' & Hrest & Hs');
        [intros y Hy; apply Hsub; now right | exact Hs1 |].
      exists s'. split; [exact Hrest|]. now rewrite <- app_assoc in Hs'. }
  intros s Hs. apply (H l [] s); auto.
Qed.

Lemma fold_left_invariant {A S} (I : S -> Prop) (f : S -> A -> S) l :
  (forall s x, In x l -> I s -> I (f s x)) -> forall s, I s -> I (fold_left f l s).
Proof.
  induction l as [|x l IH]; intros Hf s Hs; [exact Hs|].
  cbn [fold_left]. apply IH.
  - intros s0 y Hy. apply Hf. now right.
  - apply Hf; [now left | exact Hs].
Qed.

Lemma map_py_map {A B} (f : A -> py B) (g : A -> B) l :
  (forall x, In x l -> f x = Ret (g x)) -> map_py f l = Ret (List.map g l).
Proof.
  induction l as [|x l IH]; intros H; [reflexivity|].
  cbn [map_py List.map]. rewrite (H x (or_introl eq_refl)). cbn [bind].
  rewrite IH by (intros; apply H; now right). reflexivity.
Qed.

Lemma lookup_map {A B} (f : A -> B) l : forall i,
  List.map f l !! i = f <$> (l !! i).
Proof.
  induction l as [|x l IH]; intros [|i]; try reflexivity. apply IH.
Qed.

Lemma In_enumerate {A} (l : list A) i x :
  In (i, x) (Auctioneer.enumerate l) <-> l !! i = Some x.
Proof.
  unfold Auctioneer.enumerate.
  assert (H : forall k, In (i, x) (combine (seq k (length l)) l)
                        <-> (k <= i)%nat /\ l !! (i - k)%nat = Some x).
  { induction l as [|y l IH]; intros k; cbn [length seq combine].
    - split; [intros [] | intros [_ H]; discriminate].
    - cbn [In]. rewrite IH. split.
      + intros [[= <- <-]|[Hk Hl]].
        * split; [lia|]. now rewrite Nat.sub_diag.
        * split; [lia|]. replace (i - k)%nat with (S (i - S k)) by lia. exact Hl.
      + intros [Hk Hl]. destruct (Nat.eq_dec i k) as [->|Hne].
        * left. rewrite Nat.sub_diag in Hl. injection Hl as <-. reflexivity.
        * right. split; [lia|].
          replace (i - k)%nat with (S (i - S k)) in Hl by lia. exact Hl. }
  rewrite H, Nat.sub_0_r. split; [tauto | intros; split; [lia | assumption]].
Qed.

(** *** Adding nodes and edges *)

Lemma joins_iff u v a b w :
  nx.joins u v (a, b, w) = true <-> (a = u /\ b = v) \/ (a = v /\ b = u).
Proof.
  unfold nx.joins. rewrite orb_true_iff, !andb_true_iff, !Z.eqb_eq. tauto.
Qed.

Lemma has_edge_iff g u v :
  nx.has_edge g u v = true <-> exists e, In e (nx.edges g) /\ nx.joins u v e = true.
Proof.
  unfold nx.has_edge, nx.find_edge. split.
  - destruct (List.find _ _) as [e|] eqn:Hf; [|discriminate]. intros _.
    apply find_some in Hf. eauto.
  - intros (e & Hin & Hj).
    destruct (List.find _ _) as [[[a b] w]|] eqn:Hf; [reflexivity|].
    exfalso. pose proof (find_none _ _ Hf e Hin). congruence.
Qed.

Lemma has_edge_sym g u v : nx.has_edge g u v = true -> nx.has_edge g v u = true.
Proof.
  rewrite !has_edge_iff. intros ([[a b] w] & Hin & Hj). exists (a, b, w).
  split; [exact Hin|]. apply joins_iff. apply joins_iff in Hj. tauto.
Qed.

(** An edge stays an edge when another is added. *)
Lemma has_edge_add_edge g u v w a b :
  nx.has_edge g a b = true \/ nx.joins a b (u, v, w) = true ->
  nx.has_edge (nx.add_edge g u v w) a b = true.
Proof.
  intros H. apply has_edge_iff. cbn [nx.add_edge nx.edges].
  destruct (nx.joins a b (u, v, w)) eqn:Hj.
  - exists (u, v, w). split; [apply in_or_app; right; now left | exact Hj].
  - destruct H as [H|H]; [|discriminate]. apply has_edge_iff in H.
    destruct H as ([[x y] w0] & Hin & Hxy). exists (x, y, w0). split; [|exact Hxy].
    apply in_or_app. left. apply filter_In. split; [exact Hin|].
    apply negb_true_iff, not_true_iff_false. intros Huv.
    apply not_true_iff_false in Hj. apply Hj.
    apply joins_iff. apply joins_iff in Huv, Hxy. lia.
Qed.

Lemma has_node_add_edge g u v w n :
  nx.has_node g n = true -> nx.has_node (nx.add_edge g u v w) n = true.
Proof.
  rewrite !GraphFacts.has_node_In, !GraphFacts.In_node_list.
  cbn [nx.add_edge nx.nodes nx.edges].
  intros [H|(a & b & w0 & Hin & Hn)]; [now left|]. right.
  destruct (nx.joins u v (a, b, w0)) eqn:Hj.
  - exists u, v, w. split; [apply in_or_app; right; now left|].
    apply joins_iff in Hj. lia.
  - exists a, b, w0. split; [|exact Hn].
    apply in_or_app. left. apply filter_In. split; [exact Hin | now rewrite Hj].
Qed.

Lemma edges_add_node g m : nx.edges (nx.add_node g m) = nx.edges g.
Proof. unfold nx.add_node. now destruct (nx.has_node g m). Qed.

Lemma has_node_add_node g m n :
  nx.has_node g n = true \/ n = m -> nx.has_node (nx.add_node g m) n = true.
Proof.
  unfold nx.add_node. destruct (nx.has_node g m) eqn:Hm.
  - intros [H| ->]; assumption.
  - rewrite !GraphFacts.has_node_In, !GraphFacts.In_node_list. cbn [nx.nodes nx.edges].
    intros [[H|H]| ->].
    + left. apply in_or_app. now left.
    + now right.
    + left. apply in_or_app. right. now left.
Qed.

Lemma add_vertices_spec nodes devices g :
  nx.edges (add_vertices nodes devices g) = nx.edges g
  /\ (forall p, In p nodes ->
        nx.has_node (add_vertices nodes devices g) (EdgeNode.id p) = true)
  /\ (forall d, In d devices ->
        nx.has_node (add_vertices nodes devices g) (IoTDevice.id d) = true).
Proof.
  unfold add_vertices.
  set (ids := List.map EdgeNode.id nodes ++ List.map IoTDevice.id devices).
  assert (H : forall l g0,
            nx.edges (fold_left nx.add_node l g0) = nx.edges g0
            /\ forall n, In n l \/ nx.has_node g0 n = true ->
                         nx.has_node (fold_left nx.add_node l g0) n = true).
  { induction l as [|m l IH]; intros g0; cbn [fold_left].
    - split; [reflexivity|]. intros n [[]|H]. exact H.
    - destruct (IH (nx.add_node g0 m)) as [He Hn]. split.
      + now rewrite He, edges_add_node.
      + intros n Hin. apply Hn. destruct Hin as [[<-|Hin]|Hin].
        * right. apply has_node_add_node. now right.
        * now left.
        * right. apply has_node_add_node. now left. }
  destruct (H ids g) as [He Hn]. split; [exact He|]. split.
  - intros p Hp. apply Hn. left. apply in_or_app. left. now apply in_map.
  - intros d Hd. apply Hn. left. apply in_or_app. right. now apply in_map.
Qed.

(** *** The contract of the random draws *)

(** What the generator guarantees for the draws of the constructor: values
    of [random()] in [0, 1), and for every device a sample of as many
    distinct positions of the list of nodes as [randint] asked for. *)
Record fair (s : seed) (n_nodes : nat) : Prop := {
  fair_cap_cpu : forall i, in_unit (cap_cpu s i);
  fair_cap_memory : forall i, in_unit (cap_memory s i);
  fair_link_weight : forall i j, in_unit (link_weight s i j);
  fair_latency : forall i k, in_unit (latency s i k);
  fair_picks : forall i k,
    Random.randint 1 (Z.min 3 (Z.of_nat n_nodes)) (degree s i) = Ret k ->
    length (picks s i) = Z.to_nat k
    /\ List.NoDup (picks s i)
    /\ Forall (fun j => (j < n_nodes)%nat) (picks s i)
}.

(** *** The agents and the links between them *)

(** The identifiers follow the positions: the nodes from 0, the devices
    after the nodes. *)
Definition node_ids (nodes : list EdgeNode.t) : Prop :=
  forall i p, nodes !! i = Some p -> EdgeNode.id p = Z.of_nat i.

Definition device_ids (n : nat) (devices : list IoTDevice.t) : Prop :=
  forall i d, devices !! i = Some d -> IoTDevice.id d = Z.of_nat (n + i).

(** The two kinds of edges between [n] nodes and [m] devices: from a node
    to a later node, with a latency in [1, 5), and from a device to a node,
    with a latency in [0.5, 2). *)
Definition link (n m : nat) (e : Z * Z * Q) : Prop :=
  let '(a, b, w) := e in
  ((0 <= a < b)%Z /\ (b < Z.of_nat n)%Z /\ 1 <= w /\ w < 5)
  \/ ((Z.of_nat n <= a < Z.of_nat (n + m))%Z /\ (0 <= b < Z.of_nat n)%Z
      /\ 0.5 <= w /\ w < 2).

(** Every agent is a node of the graph, and every edge is a link. *)
Definition topology_ok (nodes : list EdgeNode.t) (devices : list IoTDevice.t)
    (g : nx.Graph) : Prop :=
  (forall p, In p nodes -> nx.has_node g (EdgeNode.id p) = true)
  /\ (forall d, In d devices -> nx.has_node g (IoTDevice.id d) = true)
  /\ Forall (link (length nodes) (length devices)) (nx.edges g).

Lemma topology_ok_add_edge nodes devices g u v w :
  topology_ok nodes devices g ->
  link (length nodes) (length devices) (u, v, w) ->
  topology_ok nodes devices (nx.add_edge g u v w).
Proof.
  intros (Hn & Hd & He) Hl. split; [|split].
  - intros p Hp. apply has_node_add_edge. auto.
  - intros d Hd'. apply has_node_add_edge. auto.
  - cbn [nx.add_edge nx.edges]. apply List.Forall_forall. intros e Hin.
    apply in_app_or in Hin. destruct Hin as [Hin|[<-|[]]]; [|exact Hl].
    apply filter_In in Hin. destruct Hin as [Hin _].
    exact (proj1 (List.Forall_forall _ _) He e Hin).
Qed.

Lemma node_position nodes p :
  node_ids nodes -> In p nodes ->
  (0 <= EdgeNode.id p < Z.of_nat (length nodes))%Z.
Proof.
  intros Hids Hp. apply list_elem_of_In, list_elem_of_lookup in Hp.
  destruct Hp as [j Hj]. rewrite (Hids j p Hj).
  apply lookup_lt_Some in Hj. lia.
Qed.

(** The node-to-node links. *)
Lemma link_nodes_spec s nodes devices g :
  (forall i j, in_unit (link_weight s i j)) -> node_ids nodes ->
  topology_ok nodes devices g ->
  exists g', link_nodes s nodes g = Ret g' /\ topology_ok nodes devices g'.
Proof.
  intros Hw Hids Hg. unfold link_nodes.
  apply (for_each_invariant (topology_ok nodes devices)); [|exact Hg].
  intros g1 i Hi Hg1. cbv beta.
  apply (for_each_invariant (topology_ok nodes devices)); [|exact Hg1].
  intros g2 j Hj Hg2. cbv beta.
  apply in_seq in Hi, Hj.
  destruct (Float.ltb (coin s i j) 0.4); [|eauto].
  destruct (lookup_lt_is_Some_2 nodes i) as [ni Hni]; [lia|].
  destruct (lookup_lt_is_Some_2 nodes j) as [nj Hnj]; [lia|].
  unfold py_index. rewrite Hni, Hnj. cbn [bind].
  eexists. split; [reflexivity|].
  apply topology_ok_add_edge; [exact Hg2|].
  rewrite (Hids i ni Hni), (Hids j nj Hnj). left.
  destruct (uniform_range 1.0 5.0 (link_weight s i j)) as [Hlo Hhi];
    [discriminate | apply Hw |].
  specialize (Hhi eq_refl). split; [lia|]. split; [lia|]. split; lra.
Qed.

(** The device-to-node links: every device gets an edge to a node. *)
Lemma link_devices_spec s nodes devices g :
  fair s (length nodes) -> (1 <= length nodes)%nat ->
  node_ids nodes -> device_ids (length nodes) devices ->
  topology_ok nodes devices g ->
  exists g', link_devices s nodes devices g = Ret g'
             /\ topology_ok nodes devices g'
             /\ forall d, In d devices -> has_direct_provider g' nodes d.
Proof.
  intros Hfair Hn Hnid Hdid Hg. unfold link_devices.
  destruct (for_each_visited
              (fun visited g' =>
                 topology_ok nodes devices g'
                 /\ forall idev, In idev visited ->
                      has_direct_provider g' nodes (snd idev))
              (fun g0 idev =>
                 k <- Random.randint 1 (Z.min 3 (Z.of_nat (length nodes)))
                                     (degree s (fst idev)) ;;
                 connected <- Random.sample nodes k (picks s (fst idev)) ;;
                 Ret (fold_left
                        (fun g1 jn =>
                           let w := Random.uniform 0.5 2.0
                                      (latency s (fst idev) (fst jn)) in
                           nx.add_edge g1 (IoTDevice.id (snd idev))
                                       (EdgeNode.id (snd jn)) w)
                        (Auctioneer.enumerate connected) g0))
              (Auctioneer.enumerate devices)) with (s := g)
    as (g' & Hret & Hok & Hdirect).
  - intros visited [i d] g0 Hin [Hg0 Hvis]. cbn [fst snd].
    apply In_enumerate in Hin.
    destruct (randint_range 1 (Z.min 3 (Z.of_nat (length nodes))) (degree s i))
      as (k & Hk & Hk1); [lia|].
    destruct (fair_picks _ _ Hfair i k Hk) as (Hlen & _ & Hlt).
    rewrite Hk. cbn [bind]. unfold Random.sample.
    destruct (Z.ltb_spec k 0) as [|_]; [lia|].
    destruct (Z.ltb_spec (Z.of_nat (length nodes)) k) as [|_]; [lia|].
    cbn [orb bind].
    set (connected := omap (fun j => nodes !! j) (picks s i)).
    assert (Hsub : forall p, In p connected -> In p nodes).
    { intros p Hp. apply list_elem_of_In, list_elem_of_omap in Hp.
      destruct Hp as (j & _ & Hj). apply list_elem_of_In.
      eapply list_elem_of_lookup_2; exact Hj. }
    assert (Hne : exists p0 rest, connected = p0 :: rest).
    { unfold connected. destruct (picks s i) as [|j0 rest]; [cbn in Hlen; lia|].
      apply Forall_cons in Hlt. destruct Hlt as [Hj0 _].
      destruct (lookup_lt_is_Some_2 nodes j0 Hj0) as [p0 Hp0].
      cbn [omap list_omap]. rewrite Hp0. eauto. }
    destruct Hne as (p0 & rest & Hconn).
    assert (Hlink : forall p u, In p nodes ->
              link (length nodes) (length devices)
                   (IoTDevice.id d, EdgeNode.id p, Random.uniform 0.5 2.0 u)
              \/ ~ in_unit u).
    { intros p u Hp. destruct (Qlt_le_dec u 0) as [Hu|Hu0];
        [right; intros [? ?]; lra|].
      destruct (Qlt_le_dec u 1) as [Hu1|Hu1]; [|right; intros [? ?]; lra].
      left. right. rewrite (Hdid i d Hin).
      pose proof (node_position _ _ Hnid Hp). apply lookup_lt_Some in Hin.
      destruct (uniform_range 0.5 2.0 u) as [Hlo Hhi];
        [discriminate | split; assumption |].
      specialize (Hhi eq_refl). split; [lia|]. split; [lia|]. split; lra. }
    eexists. split; [reflexivity|].
    set (step := fun g1 (jn : nat * EdgeNode.t) =>
                   let w := Random.uniform 0.5 2.0 (latency s i (fst jn)) in
                   nx.add_edge g1 (IoTDevice.id d) (EdgeNode.id (snd jn)) w).
    assert (Hfold :
      topology_ok nodes devices (fold_left step (Auctioneer.enumerate connected) g0)
      /\ (forall a b, nx.has_edge g0 a b = true \/ (a = IoTDevice.id d /\ b = EdgeNode.id p0) ->
            nx.has_edge (fold_left step (Auctioneer.enumerate connected) g0) a b = true)).
    { rewrite Hconn. unfold Auctioneer.enumerate.
      cbn [length seq combine fold_left].
      set (g1 := step g0 (0%nat, p0)).
      assert (Hg1 : topology_ok nodes devices g1
                    /\ forall a b, nx.has_edge g0 a b = true
                                   \/ (a = IoTDevice.id d /\ b = EdgeNode.id p0) ->
                                   nx.has_edge g1 a b = true).
      { split.
        - apply topology_ok_add_edge; [exact Hg0|].
          destruct (Hlink p0 (latency s i 0)) as [H|H];
            [apply Hsub; rewrite Hconn; now left | exact H |].
          contradiction H. apply (fair_latency _ _ Hfair).
        - intros a b Hab. apply has_edge_add_edge.
          destruct Hab as [Hab|[-> ->]]; [now left | right].
          apply joins_iff. now left. }
      apply (fold_left_invariant
               (fun g2 => topology_ok nodes devices g2
                          /\ forall a b, nx.has_edge g0 a b = true
                                         \/ (a = IoTDevice.id d /\ b = EdgeNode.id p0) ->
                                         nx.has_edge g2 a b = true));
        [|exact Hg1].
      intros g2 [j p] Hjp [Hg2 Hkeep]. split.
      - apply topology_ok_add_edge; [exact Hg2|]. cbn [fst snd].
        destruct (Hlink p (latency s i j)) as [H|H]; [|exact H|].
        + apply Hsub. rewrite Hconn. right. eapply in_combine_r; exact Hjp.
        + contradiction H. apply (fair_latency _ _ Hfair).
      - intros a b Hab. apply has_edge_add_edge. left. now apply Hkeep. }
    destruct Hfold as [Hok Hkeep]. split; [exact Hok|].
    intros idev Hidev. apply in_app_or in Hidev. destruct Hidev as [Hidev|[<-|[]]].
    + destruct (Hvis idev Hidev) as (p & Hp & He). exists p. split; [exact Hp|].
      apply Hkeep. now left.
    + exists p0. split; [apply Hsub; rewrite Hconn; now left|].
      apply Hkeep. right. auto.
  - split; [exact Hg | intros ? []].
  - exists g'. split; [exact Hret|]. split; [exact Hok|].
    intros d Hd. apply list_elem_of_In, list_elem_of_lookup in Hd. destruct Hd as [i Hi].
    apply (Hdirect (i, d)). now apply In_enumerate.
Qed.

(** [_init_topology] on an empty graph. *)
Lemma init_topology_spec s nodes devices :
  fair s (length nodes) -> (1 <= length nodes)%nat ->
  node_ids nodes -> device_ids (length nodes) devices ->
  exists g, _init_topology s nodes devices nx.empty = Ret g
            /\ topology_ok nodes devices g
            /\ forall d, In d devices -> has_direct_provider g nodes d.
Proof.
  intros Hfair Hn Hnid Hdid. unfold _init_topology.
  destruct (add_vertices_spec nodes devices nx.empty) as (He & Hnodes & Hdevs).
  destruct (link_nodes_spec s nodes devices (add_vertices nodes devices nx.empty))
    as (g1 & Hg1 & Hok1).
  - apply (fair_link_weight _ _ Hfair).
  - exact Hnid.
  - split; [exact Hnodes|]. split; [exact Hdevs|]. rewrite He. constructor.
  - rewrite Hg1. cbn [bind]. now apply link_devices_spec.
Qed.

(** *** The constructor *)

(** The type [random.choice] gives the device at position [i]. *)
Definition kind (s : seed) (i : nat) : string :=
  nth (dev_type s i mod 3) ["sensor"; "camera"; "generic"]%string "sensor"%string.

Lemma choice_kind s i :
  Random.choice ["sensor"; "camera"; "generic"]%string (dev_type s i) = Ret (kind s i).
Proof.
  unfold Random.choice, py_index, kind. cbn [length].
  pose proof (Nat.mod_upper_bound (dev_type s i) 3).
  destruct (dev_type s i mod 3)%nat as [|[|[|k]]]; try reflexivity. lia.
Qed.

(** The agents [__init__] creates. *)
Definition built_nodes (s : seed) (n : nat) : list EdgeNode.t :=
  List.map (fun i => EdgeNode.init (Z.of_nat i)
                       (Random.uniform 20.0 40.0 (cap_cpu s i))
                       (Random.uniform 32.0 64.0 (cap_memory s i)))
           (seq 0 n).

Definition built_devices (s : seed) (n m : nat) : list IoTDevice.t :=
  List.map (fun i => IoTDevice.init (Z.of_nat (n + i)) (kind s i)) (seq 0 m).

Lemma built_nodes_lookup s n i p :
  built_nodes s n !! i = Some p <->
  (i < n)%nat
  /\ p = EdgeNode.init (Z.of_nat i) (Random.uniform 20.0 40.0 (cap_cpu s i))
                       (Random.uniform 32.0 64.0 (cap_memory s i)).
Proof.
  unfold built_nodes. rewrite lookup_map. split.
  - intros H. destruct (seq 0 n !! i) as [j|] eqn:Hj; [|discriminate].
    apply lookup_seq in Hj. destruct Hj as [-> Hlt]. cbn in H. injection H as <-.
    auto.
  - intros [Hlt ->]. now rewrite (lookup_seq_lt 0 n i Hlt).
Qed.

Lemma built_devices_lookup s n m i d :
  built_devices s n m !! i = Some d <->
  (i < m)%nat /\ d = IoTDevice.init (Z.of_nat (n + i)) (kind s i).
Proof.
  unfold built_devices. rewrite lookup_map. split.
  - intros H. destruct (seq 0 m !! i) as [j|] eqn:Hj; [|discriminate].
    apply lookup_seq in Hj. destruct Hj as [-> Hlt]. cbn in H. injection H as <-.
    auto.
  - intros [Hlt ->]. now rewrite (lookup_seq_lt 0 m i Hlt).
Qed.

Lemma built_nodes_length s n : length (built_nodes s n) = n.
Proof. unfold built_nodes. now rewrite length_map, length_seq. Qed.

Lemma built_devices_length s n m : length (built_devices s n m) = m.
Proof. unfold built_devices. now rewrite length_map, length_seq. Qed.

Lemma init_devices s n m :
  map_py (fun i => ty <- Random.choice ["sensor"; "camera"; "generic"]%string
                                       (dev_type s i) ;;
                   Ret (IoTDevice.init (Z.of_nat (n + i)) ty))
         (seq 0 m)
  = Ret (built_devices s n m).
Proof.
  apply map_py_map. intros i _. now rewrite choice_kind.
Qed.

(** What [__init__] returns. *)
Lemma init_spec s n m :
  fair s n -> (1 <= n)%nat ->
  exists g,
    init s n m = Ret {| network := g; nodes := built_nodes s n;
                        devices := built_devices s n m |}
    /\ topology_ok (built_nodes s n) (built_devices s n m) g
    /\ forall d, In d (built_devices s n m) ->
         has_direct_provider g (built_nodes s n) d.
Proof.
  intros Hfair Hn. unfold init. cbv zeta. rewrite init_devices. cbn [bind].
  fold (built_nodes s n).
  destruct (init_topology_spec s (built_nodes s n) (built_devices s n m))
    as (g & Hg & Hok & Hdirect).
  - now rewrite built_nodes_length.
  - now rewrite built_nodes_length.
  - intros i p Hp. apply built_nodes_lookup in Hp. destruct Hp as [_ ->]. reflexivity.
  - intros i d Hd. apply built_devices_lookup in Hd. destruct Hd as [_ ->].
    now rewrite built_nodes_length.
  - exists g. rewrite Hg. cbn [bind]. auto.
Qed.

Lemma map_seq_offset n : forall m k,
  List.map (fun i => Z.of_nat (n + i)) (seq k m) = List.map Z.of_nat (seq (n + k) m).
Proof.
  induction m as [|m IH]; intros k; [reflexivity|].
  cbn [seq List.map]. f_equal. rewrite IH. now rewrite Nat.add_succ_r.
Qed.

Lemma built_ids s n m :
  List.map EdgeNode.id (built_nodes s n) ++ List.map IoTDevice.id (built_devices s n m)
  = List.map Z.of_nat (seq 0 (n + m)).
Proof.
  unfold built_nodes, built_devices. rewrite !List.map_map. cbn [EdgeNode.init EdgeNode.id
    IoTDevice.init IoTDevice.id].
  rewrite seq_app, List.map_app, (map_seq_offset n m 0), Nat.add_0_r. reflexivity.
Qed.

Lemma built_device_ids_NoDup s n m : NoDup (IoTDevice.id <$> built_devices s n m).
Proof.
  apply NoDup_alt. intros i j z Hi Hj. rewrite list_lookup_fmap in Hi, Hj.
  destruct (built_devices s n m !! i) as [di|] eqn:Hdi; [|discriminate].
  destruct (built_devices s n m !! j) as [dj|] eqn:Hdj; [|discriminate].
  apply built_devices_lookup in Hdi, Hdj. destruct Hdi as [_ ->], Hdj as [_ ->].
  cbn in Hi, Hj. injection Hi as <-. injection Hj as Hj. lia.
Qed.

(** X13: for draws within the contract of the generator and at least one
    node, the constructor returns a system of [n_nodes] providers and
    [n_devices] devices whose identifiers are 0, 1, ... in this order;
    every provider has its full capacity available, with 20 <= cpu < 40 and
    32 <= memory < 64, and every device an empty queue and one of the three
    types [_color_for_device] knows. *)
Theorem constructor_builds_the_agents (s : seed) (n_nodes n_devices : nat) :
  fair s n_nodes -> (1 <= n_nodes)%nat ->
  exists sys,
    init s n_nodes n_devices = Ret sys
    /\ length (nodes sys) = n_nodes
    /\ length (devices sys) = n_devices
    /\ List.map EdgeNode.id (nodes sys) ++ List.map IoTDevice.id (devices sys)
       = List.map Z.of_nat (seq 0 (n_nodes + n_devices))
    /\ (forall p, In p (nodes sys) ->
          EdgeNode.available p = EdgeNode.capacity p
          /\ (20 <= r_cpu (EdgeNode.capacity p) /\ r_cpu (EdgeNode.capacity p) < 40)
          /\ (32 <= r_memory (EdgeNode.capacity p)
              /\ r_memory (EdgeNode.capacity p) < 64))
    /\ (forall d, In d (devices sys) ->
          IoTDevice.pending_tasks d = []
          /\ exists colour, _color_for_device d = Some colour).
Proof.
  intros Hfair Hn. destruct (init_spec s n_nodes n_devices Hfair Hn) as (g & Hinit & _).
  eexists. split; [exact Hinit|]. cbn [nodes devices].
  split; [apply built_nodes_length|]. split; [apply built_devices_length|].
  split; [apply built_ids|]. split.
  - intros p Hp. apply list_elem_of_In, list_elem_of_lookup in Hp. destruct Hp as [i Hi].
    apply built_nodes_lookup in Hi. destruct Hi as [_ ->].
    apply fresh_node_capacity; [apply (fair_cap_cpu _ _ Hfair)
                               | apply (fair_cap_memory _ _ Hfair)].
  - intros d Hd. apply list_elem_of_In, list_elem_of_lookup in Hd. destruct Hd as [i Hi].
    apply built_devices_lookup in Hi. destruct Hi as [_ ->].
    split; [reflexivity|]. unfold _color_for_device, kind. cbn [IoTDevice.init IoTDevice.type].
    pose proof (Nat.mod_upper_bound (dev_type s i) 3).
    destruct (dev_type s i mod 3)%nat as [|[|[|k]]]; cbn; eauto. lia.
Qed.

(** X14: in the system the constructor returns, every agent is a node of
    the graph and every edge is a link between a node and a later node, with
    a latency in [1, 5), or between a device and a node, with a latency in
    [0.5, 2): no two devices are adjacent and no latency is negative.  Every
    device has an edge to at least one provider. *)
Theorem constructor_builds_the_topology (s : seed) (n_nodes n_devices : nat) :
  fair s n_nodes -> (1 <= n_nodes)%nat ->
  exists sys,
    init s n_nodes n_devices = Ret sys
    /\ (forall p, In p (nodes sys) -> nx.has_node (network sys) (EdgeNode.id p) = true)
    /\ (forall d, In d (devices sys) ->
          nx.has_node (network sys) (IoTDevice.id d) = true)
    /\ Forall (link n_nodes n_devices) (nx.edges (network sys))
    /\ GraphFacts.nonneg_weights (network sys)
    /\ (forall d, In d (devices sys) ->
          has_direct_provider (network sys) (nodes sys) d).
Proof.
  intros Hfair Hn.
  destruct (init_spec s n_nodes n_devices Hfair Hn) as (g & Hinit & Hok & Hdirect).
  eexists. split; [exact Hinit|]. cbn [network nodes devices].
  destruct Hok as (Hnodes & Hdevs & Hlinks).
  rewrite built_nodes_length, built_devices_length in Hlinks.
  split; [exact Hnodes|]. split; [exact Hdevs|]. split; [exact Hlinks|].
  split; [|exact Hdirect].
  unfold GraphFacts.nonneg_weights. eapply Forall_impl; [exact Hlinks|].
  intros [[a b] w] [(_ & _ & Hw & _)|(_ & _ & Hw & _)]; cbn [snd]; lra.
Qed.

(** X15: a system with devices but without nodes cannot be constructed:
    [random.randint(1, 0)] raises [ValueError] for the first device.  Without
    devices the constructor returns the empty system. *)
Theorem constructor_needs_a_node (s : seed) (n_devices : nat) :
  init s 0 n_devices
  = match n_devices with
    | O => Ret {| network := nx.empty; nodes := []; devices := [] |}
    | S _ => Raise ValueError
    end.
Proof.
  unfold init. cbv zeta. rewrite init_devices. cbn [bind seq List.map].
  destruct n_devices as [|m]; [reflexivity|].
  unfold _init_topology, link_nodes. cbn [length seq for_each bind].
  unfold link_devices, built_devices. cbn [seq List.map Auctioneer.enumerate length combine].
  cbn [for_each fst snd length]. reflexivity.
Qed.

(** Draws for the examples: every [random()] gives one half, every node is
    linked to every later node, and the device at position [i] is of the
    type at position [i mod 3] and gets one link, to the node at position
    [i mod n_nodes]. *)
Definition seed0 (n_nodes : nat) : seed :=
  {| cap_cpu := fun _ => 1 # 2;
     cap_memory := fun _ => 1 # 2;
     dev_type := fun i => i;
     coin := fun _ _ => 0;
     link_weight := fun _ _ => 1 # 2;
     degree := fun _ => 0%Z;
     picks := fun i => [(i mod n_nodes)%nat];
     latency := fun _ _ => 1 # 2 |}.

Lemma seed0_fair n : (1 <= n)%nat -> fair (seed0 n) n.
Proof.
  intros Hn. constructor; try (intros; exact half_in_unit).
  intros i k Hk. cbn [picks degree seed0] in *. unfold Random.randint in Hk.
  destruct (Z.ltb_spec (Z.min 3 (Z.of_nat n)) 1) as [|_]; [lia|].
  injection Hk as <-. rewrite Z.mod_0_l by lia.
  split; [reflexivity|]. split; [repeat constructor; intros []|].
  repeat constructor. apply Nat.mod_upper_bound. lia.
Qed.

Lemma constructor_builds_the_agents_witness :
  exists sys,
    init (seed0 2) 2 3 = Ret sys
    /\ length (nodes sys) = 2%nat
    /\ length (devices sys) = 3%nat
    /\ List.map EdgeNode.id (nodes sys) ++ List.map IoTDevice.id (devices sys)
       = List.map Z.of_nat (seq 0 (2 + 3))
    /\ (forall p, In p (nodes sys) ->
          EdgeNode.available p = EdgeNode.capacity p
          /\ (20 <= r_cpu (EdgeNode.capacity p) /\ r_cpu (EdgeNode.capacity p) < 40)
          /\ (32 <= r_memory (EdgeNode.capacity p)
              /\ r_memory (EdgeNode.capacity p) < 64))
    /\ (forall d, In d (devices sys) ->
          IoTDevice.pending_tasks d = []
          /\ exists colour, _color_for_device d = Some colour).
Proof.
  apply (constructor_builds_the_agents (seed0 2) 2 3); [apply seed0_fair; lia | lia].
Defined.

Lemma constructor_builds_the_topology_witness :
  exists sys,
    init (seed0 2) 2 3 = Ret sys
    /\ (forall p, In p (nodes sys) -> nx.has_node (network sys) (EdgeNode.id p) = true)
    /\ (forall d, In d (devices sys) ->
          nx.has_node (network sys) (IoTDevice.id d) = true)
    /\ Forall (link 2 3) (nx.edges (network sys))
    /\ GraphFacts.nonneg_weights (network sys)
    /\ (forall d, In d (devices sys) ->
          has_direct_provider (network sys) (nodes sys) d).
Proof.
  apply (constructor_builds_the_topology (seed0 2) 2 3); [apply seed0_fair; lia | lia].
Defined.

End Construction.

(* ------------------------------------------------------------------------- *)
(** ** The simulation: the constructor, then the rounds                       *)
(* ------------------------------------------------------------------------- *)

Module Simulation.
Import EdgeComputingSystem CostFacts Liveness TaskFacts RunFacts Construction.

(** The draws of [run]: in every round every device draws the task that
    [generate_task] builds for it, under an identifier it has not used
    before. *)
Definition generated_draws (devices : list IoTDevice.t)
    (draws : nat -> nat -> IoTTask) : Prop :=
  (forall r i d, devices !! i = Some d ->
     exists tid u_cpu u_memory u_deadline u_size r_priority,
       in_unit u_cpu /\ in_unit u_memory /\ in_unit u_deadline /\ in_unit u_size
       /\ IoTDevice.draw_task d tid u_cpu u_memory u_deadline u_size r_priority
          = Ret (draws r i))
  /\ (forall r r' i, r <> r' -> task_id (draws r i) <> task_id (draws r' i)).

Lemma generated_valid devices draws r i d :
  generated_draws devices draws -> devices !! i = Some d -> valid_task (draws r i).
Proof.
  intros [Hgen _] Hi.
  destruct (Hgen r i d Hi) as (tid & u1 & u2 & u3 & u4 & rp & H1 & H2 & H3 & H4 & Ht).
  destruct (draw_task_spec d tid u1 u2 u3 u4 rp H1 H2 H3 H4) as (t & Ht' & _ & Hvalid).
  rewrite Ht in Ht'. injection Ht' as <-. exact Hvalid.
Qed.

Lemma generated_fresh devices draws :
  generated_draws devices draws -> fresh_draws draws (length devices).
Proof.
  intros Hgen i Hi. destruct (lookup_lt_is_Some_2 devices i Hi) as [d Hd]. split.
  - intros r. destruct (generated_valid _ _ r i d Hgen Hd) as (_ & _ & [Hdl _] & _). lra.
  - intros r r' Hlt. unfold task_eqb.
    assert (E : String.eqb (task_id (draws r' i)) (task_id (draws r i)) = false).
    { apply String.eqb_neq. apply (proj2 Hgen). lia. }
    now rewrite E.
Qed.

(** The system the constructor returns can enter the first round. *)
Lemma built_runnable s n m draws sys :
  fair s n -> (1 <= n)%nat -> init s n m = Ret sys -> runnable draws 0 sys.
Proof.
  intros Hfair Hn Hinit.
  destruct (init_spec s n m Hfair Hn) as (g & Hinit' & (Hnodes & _ & _) & Hdirect).
  rewrite Hinit in Hinit'. injection Hinit' as ->. cbn [network nodes devices].
  split; [|split].
  - apply List.Forall_forall. intros p Hp. split; [|now apply Hnodes].
    apply list_elem_of_In, list_elem_of_lookup in Hp. destruct Hp as [i Hi].
    apply built_nodes_lookup in Hi. destruct Hi as [_ ->].
    destruct (fresh_node_capacity (Z.of_nat i) (cap_cpu s i) (cap_memory s i))
      as (_ & [Hcpu _] & _);
      [apply (fair_cap_cpu _ _ Hfair) | apply (fair_cap_memory _ _ Hfair) |].
    lra.
  - apply built_device_ids_NoDup.
  - intros i d Hi. split.
    + apply Hdirect. apply list_elem_of_In. eapply list_elem_of_lookup_2; exact Hi.
    + apply built_devices_lookup in Hi. destruct Hi as [_ ->].
      split; [exact I | intros t []].
Qed.

(** X16: the simulation does not raise.  On the system the constructor
    returns for at least one node, [run] goes through all its rounds and
    yields one record of metrics per round, whatever the generator draws
    within its contract, as long as no device draws the same task identifier
    twice. *)
Theorem simulation_never_raises (exp : Q -> Q) (s : seed)
    (n_nodes n_devices n_rounds : nat) (sys : EdgeComputingSystem.t)
    (draws : nat -> nat -> IoTTask) :
  fair s n_nodes -> (1 <= n_nodes)%nat ->
  init s n_nodes n_devices = Ret sys ->
  generated_draws (devices sys) draws ->
  exists sys' ms,
    run exp n_rounds sys draws = Ret (sys', ms) /\ length ms = n_rounds.
Proof.
  intros Hfair Hn Hinit Hgen.
  destruct (run_from_returns draws exp n_rounds 0 sys) as (sys' & ms & Hret & Hlen & _).
  - now apply generated_fresh.
  - exact (built_runnable s n_nodes n_devices draws sys Hfair Hn Hinit).
  - exists sys', ms. auto.
Qed.

(** The task the device at position [i] of the example draws in round [r]. *)
Definition draws0 (n_nodes : nat) (r i : nat) : IoTTask :=
  match IoTDevice.draw_task
          (IoTDevice.init (Z.of_nat (n_nodes + i)) (kind (seed0 n_nodes) i))
          (ticket r) (1 # 2) (1 # 2) (1 # 2) (1 # 2) 0 with
  | Ret t => t
  | Raise _ => Scenario.small_task
  end.

Lemma draws0_generated n m :
  generated_draws (built_devices (seed0 n) n m) (draws0 n).
Proof.
  assert (H : forall r i,
            IoTDevice.draw_task
              (IoTDevice.init (Z.of_nat (n + i)) (kind (seed0 n) i))
              (ticket r) (1 # 2) (1 # 2) (1 # 2) (1 # 2) 0 = Ret (draws0 n r i)
            /\ task_id (draws0 n r i) = ticket r).
  { intros r i. unfold draws0.
    destruct (draw_task_spec (IoTDevice.init (Z.of_nat (n + i)) (kind (seed0 n) i))
                (ticket r) (1 # 2) (1 # 2) (1 # 2) (1 # 2) 0)
      as (t & -> & Hid & _); try exact half_in_unit. auto. }
  split.
  - intros r i d Hi. apply built_devices_lookup in Hi. destruct Hi as [_ ->].
    exists (ticket r), (1 # 2), (1 # 2), (1 # 2), (1 # 2), 0%Z.
    repeat (split; [exact half_in_unit|]). apply H.
  - intros r r' i Hne E. rewrite !(proj2 (H _ i)) in E.
    apply (f_equal String.length) in E. rewrite !ticket_length in E. contradiction.
Qed.

Lemma simulation_never_raises_witness :
  exists sys' ms, main Scenario.exp2 (seed0 10) (draws0 10) = Ret (sys', ms)
                  /\ length ms = 50%nat.
Proof.
  unfold main.
  destruct (init_spec (seed0 10) 10 20) as (g & Hinit & _);
    [apply seed0_fair; lia | lia |].
  rewrite Hinit. cbn [bind].
  apply (simulation_never_raises Scenario.exp2 (seed0 10) 10 20 50 _ (draws0 10)).
  - apply seed0_fair. lia.
  - lia.
  - exact Hinit.
  - apply draws0_generated.
Defined.

End Simulation.

(* ------------------------------------------------------------------------- *)
(** ** The first round of the simulation                                      *)
(* ------------------------------------------------------------------------- *)

Module FirstRound.
Import EdgeComputingSystem CostFacts AuctionFacts SystemFacts RoundFacts Liveness.
Import RoundAccounts MetricsFacts TaskFacts RunFacts Construction Simulation.

(** *** The keys of [per_device_allocated] *)

Definition keys (d : Dict.t) : list Z := List.map fst d.

Lemma keys_set_present k v d c :
  Dict.get k d = Ret c -> keys (Dict.set k v d) = keys d.
Proof.
  induction d as [|[k' v'] d IH]; cbn; [discriminate|].
  destruct (Z.eqb_spec k' k) as [->|]; cbn; [reflexivity|].
  intros H. f_equal. now apply IH.
Qed.

Lemma keys_set_absent k v d : k ∉ keys d -> keys (Dict.set k v d) = keys d ++ [k].
Proof.
  induction d as [|[k' v'] d IH]; cbn; intros H; [reflexivity|].
  apply not_elem_of_cons in H. destruct H as [Hne H].
  destruct (Z.eqb_spec k' k); [congruence|]. cbn. f_equal. now apply IH.
Qed.

(** [{d.id: 0 for d in self.devices}] has the identifiers for keys, in the
    order of the devices. *)
Lemma initial_keys devices : forall acc,
  NoDup (keys acc ++ (IoTDevice.id <$> devices)) ->
  keys (fold_left (fun d dev => Dict.set (IoTDevice.id dev) 0%Z d) devices acc)
  = keys acc ++ (IoTDevice.id <$> devices).
Proof.
  induction devices as [|d l IH]; intros acc Hnd; cbn [fold_left fmap list_fmap].
  - now rewrite app_nil_r.
  - assert (Hd : IoTDevice.id d ∉ keys acc).
    { apply NoDup_app in Hnd. destruct Hnd as (_ & Hdisj & _).
      intros Hin. apply (Hdisj _ Hin). cbn. left. }
    rewrite IH; rewrite (keys_set_absent _ _ _ Hd), <- app_assoc; [reflexivity|].
    exact Hnd.
Qed.

Lemma applied_keys allocations : forall st st',
  for_each apply_allocation allocations st = Ret st' ->
  keys (per_device_allocated st') = keys (per_device_allocated st).
Proof.
  induction allocations as [|[[r w] price] l IH]; intros st st' Hrun.
  - now injection Hrun as <-.
  - cbn [for_each] in Hrun. apply PyFacts.bind_Ret_inv in Hrun.
    destruct Hrun as (st1 & Hstep & Hrest).
    apply apply_allocation_inv in Hstep.
    destruct Hstep as (count & j & dev & pending1 & Hget & _ & _ & ->).
    rewrite (IH _ _ Hrest). cbn [per_device_allocated].
    exact (keys_set_present _ _ _ _ Hget).
Qed.

Lemma values_by_key d :
  NoDup (keys d) -> Dict.values d = List.map (fun k => count_of k d) (keys d).
Proof.
  induction d as [|[k v] d IH]; intros Hnd; [reflexivity|].
  cbn [keys List.map fst] in Hnd. apply NoDup_cons in Hnd. destruct Hnd as [Hk Hnd].
  cbn [Dict.values keys List.map fst snd]. f_equal.
  - unfold count_of. cbn. now rewrite Z.eqb_refl.
  - fold (Dict.values d). fold (keys d). rewrite (IH Hnd). apply map_ext_in.
    intros k' Hk'. unfold count_of. cbn.
    destruct (Z.eqb_spec k k') as [->|]; [|reflexivity].
    contradiction Hk. now apply list_elem_of_In.
Qed.

(** *** One device through the application loop *)

(** What a device has pending and what it has been allocated add up to the
    same number before and after. *)
Lemma applied_device_total allocations : forall st st' i d,
  NoDup (IoTDevice.id <$> a_devices st) ->
  for_each apply_allocation allocations st = Ret st' ->
  a_devices st !! i = Some d ->
  exists d', a_devices st' !! i = Some d'
    /\ IoTDevice.id d' = IoTDevice.id d
    /\ (Z.of_nat (length (IoTDevice.pending_tasks d'))
        + count_of (IoTDevice.id d) (per_device_allocated st')
        = Z.of_nat (length (IoTDevice.pending_tasks d))
          + count_of (IoTDevice.id d) (per_device_allocated st))%Z.
Proof.
  induction allocations as [|[[r w] price] l IH]; intros st st' i d Hnd Hrun Hi.
  - injection Hrun as <-. exists d. auto.
  - cbn [for_each] in Hrun. apply PyFacts.bind_Ret_inv in Hrun.
    destruct Hrun as (st1 & Hstep & Hrest).
    apply apply_allocation_inv in Hstep.
    destruct Hstep as (count & j & dev & pending1 & Hget & Hfind & Hrem & Hst1).
    apply list_find_Some in Hfind. destruct Hfind as (Hj & Hid & _).
    assert (Hnd1 : NoDup (IoTDevice.id <$> a_devices st1)).
    { subst st1. cbn [a_devices]. rewrite list_fmap_insert. cbn.
      rewrite list_insert_id; [exact Hnd|]. now rewrite list_lookup_fmap, Hj. }
    destruct (Nat.eq_dec j i) as [->|Hne].
    + rewrite Hi in Hj. injection Hj as <-.
      assert (Hi1 : a_devices st1 !! i = Some (IoTDevice.set_pending d pending1)).
      { subst st1. cbn [a_devices]. apply list_lookup_insert_eq.
        eapply lookup_lt_Some; exact Hi. }
      destruct (IH st1 st' i _ Hnd1 Hrest Hi1) as (d' & Hd' & Hid' & Htot).
      exists d'. split; [exact Hd'|]. split; [exact Hid'|].
      cbn [IoTDevice.set_pending IoTDevice.id IoTDevice.pending_tasks] in Htot.
      rewrite Htot. subst st1. cbn [per_device_allocated].
      rewrite <- Hid, count_of_set_same. unfold count_of. rewrite Hid, Hget.
      apply list_remove_length in Hrem. lia.
    + assert (Hi1 : a_devices st1 !! i = Some d).
      { subst st1. cbn [a_devices]. rewrite list_lookup_insert_ne by exact Hne.
        exact Hi. }
      destruct (IH st1 st' i d Hnd1 Hrest Hi1) as (d' & Hd' & Hid' & Htot).
      exists d'. split; [exact Hd'|]. split; [exact Hid'|].
      rewrite Htot. subst st1. cbn [per_device_allocated].
      rewrite count_of_set_other; [reflexivity|].
      intros E. apply Hne.
      apply (NoDup_lookup _ j i (IoTDevice.id d) Hnd); rewrite list_lookup_fmap.
      * rewrite Hj. cbn. f_equal. now rewrite Hid.
      * now rewrite Hi.
Qed.

(** *** Counting *)

Lemma all_ones l :
  Forall (fun v => (v <= 1)%Z) l ->
  (Zsum l <= Z.of_nat (length l))%Z
  /\ (Zsum l = Z.of_nat (length l) -> Forall (eq 1%Z) l).
Proof.
  induction 1 as [|x l Hx _ [IHle IHeq]].
  - split; [reflexivity | constructor].
  - rewrite Zsum_cons. cbn [length]. split; [lia|].
    intros E. constructor; [lia|]. apply IHeq. lia.
Qed.

Lemma flat_map_singletons {A B} (f : A -> list B) l :
  (forall x, In x l -> exists y, f x = [y]) -> length (flat_map f l) = length l.
Proof.
  induction l as [|x l IH]; intros H; [reflexivity|].
  cbn [flat_map]. destruct (H x (or_introl eq_refl)) as [y ->].
  cbn. f_equal. apply IH. intros; apply H; now right.
Qed.

(** Jain's index of equal values is 1. *)
Lemma jain_index_all_equal v j :
  Fairness.all_equal v -> jain_index v = Ret j -> j == 1.
Proof.
  intros Heq Hj. destruct v as [|x l].
  - cbn in Hj. now injection Hj as <-.
  - destruct (Qeq_dec (Fairness.squares (x :: l)) 0) as [Hz|Hnz].
    + rewrite (Fairness.jain_index_zero_squares _ _ Hz) in Hj. now injection Hj as <-.
    + destruct (Fairness.jain_index_ratio _ _ Hnz) as (j' & Hj' & Hratio).
      rewrite Hj in Hj'. injection Hj' as <-. rewrite Hratio.
      apply Fairness.gap_zero in Heq. unfold Fairness.gap in Heq.
      pose proof (Fairness.size_pos x l) as Hn.
      pose proof (Fairness.squares_nonneg (x :: l)) as Hs.
      assert (Hden : ~ Fairness.size (x :: l) * Fairness.squares (x :: l) == 0).
      { intros E. assert (Hs' : 0 < Fairness.squares (x :: l)).
        { destruct (Qlt_le_dec 0 (Fairness.squares (x :: l))) as [Hp|Hq]; [exact Hp|].
          exfalso. apply Hnz. lra. }
        pose proof (Qmult_lt_0_compat _ _ Hn Hs'). lra. }
      assert (E : Fairness.total (x :: l) ^ 2
                  == Fairness.size (x :: l) * Fairness.squares (x :: l)) by lra.
      rewrite E. field. split; [exact Hnz | lra].
Qed.

(** *** The round *)

(** X17: in the first round of the simulation nobody is turned away.  On
    the system the constructor returns for at least one node, with tasks in
    the ranges [generate_task] draws from, the round returns with an
    allocation efficiency of 1 and a fairness of 1, and leaves every queue
    empty. *)
Theorem first_round_serves_everyone (exp : Q -> Q) (s : seed)
    (n_nodes n_devices : nat) (sys : EdgeComputingSystem.t) (draw : nat -> IoTTask) :
  fair s n_nodes -> (1 <= n_nodes)%nat ->
  init s n_nodes n_devices = Ret sys ->
  (forall i, (i < n_devices)%nat -> valid_task (draw i)) ->
  exists sys' m,
    round exp sys draw = Ret (sys', m)
    /\ allocation_eff m == 1
    /\ fairness m == 1
    /\ forall d, In d (devices sys') -> IoTDevice.pending_tasks d = [].
Proof.
  intros Hfair Hn Hinit Hvalid.
  pose proof (built_runnable s n_nodes n_devices (fun _ => draw) sys Hfair Hn Hinit)
    as (Hwf & Hnd & Hdev).
  destruct (init_spec s n_nodes n_devices Hfair Hn) as (g & Hinit' & _).
  rewrite Hinit in Hinit'. injection Hinit' as Hsys.
  assert (Hnodes : nodes sys = built_nodes s n_nodes) by now rewrite Hsys.
  assert (Hdevices : devices sys = built_devices s n_nodes n_devices) by now rewrite Hsys.
  clear Hsys.
  assert (Hempty : forall i d, devices sys !! i = Some d ->
            (i < n_devices)%nat /\ IoTDevice.pending_tasks d = []).
  { intros i d Hi. rewrite Hdevices in Hi. apply built_devices_lookup in Hi.
    destruct Hi as [Hlt ->]. auto. }
  (* the round returns *)
  destruct (round_returns exp sys draw) as (sys' & m & Hround).
  { split; [exact Hwf|]. split; [exact Hnd|]. intros i d Hi.
    destruct (Hdev i d Hi) as (Hp & _). destruct (Hempty i d Hi) as [Hlt ->].
    split; [exact Hp|]. cbn [app]. split.
    - intros t [<-|[]]. destruct (Hvalid i Hlt) as (_ & _ & [Hdl _] & _). lra.
    - split; [intros t' [] | exact I]. }
  exists sys', m. split; [exact Hround|].
  destruct (round_account _ _ _ _ _ Hnd Hround)
    as (requests & allocations & rejections & st & _ & Hkeys & Hrun & Happ & -> & _
        & Hnil & Hcons & Hjain).
  set (devices1 := generated (devices sys) draw 0) in *.
  (* the devices after the generation: one pending task each *)
  assert (Hgen : forall i d1, devices1 !! i = Some d1 ->
            exists d, devices sys !! i = Some d
                      /\ IoTDevice.id d1 = IoTDevice.id d
                      /\ IoTDevice.pending_tasks d1 = [draw i]
                      /\ (i < n_devices)%nat).
  { intros i d1 Hi. apply generated_lookup_inv in Hi. destruct Hi as (d & Hd & ->).
    destruct (Hempty i d Hd) as [Hlt Hp]. exists d. cbn. rewrite Hp. auto. }
  (* every request finds a bidder *)
  assert (Hserved : forall r, In r requests ->
            exists a, allocation_of (nodes sys) (network sys) r = [a]).
  { intros r Hr. assert (Hk : In (key r) (keys_of devices1))
      by (rewrite <- Hkeys; now apply in_map).
    unfold key in Hk. apply In_keys_of in Hk. destruct Hk as (d1 & Hd1 & Hid & Hin).
    apply list_elem_of_In, list_elem_of_lookup in Hd1. destruct Hd1 as [i Hi].
    destruct (Hgen i d1 Hi) as (d & Hd & Hid1 & Hp1 & Hlt).
    rewrite Hp1 in Hin. destruct Hin as [Ht|[]].
    destruct (Hdev i d Hd) as ((p & Hp & He) & _).
    apply has_edge_sym in He. rewrite <- Hid1, Hid in He.
    destruct (weight_has_edge _ _ _ He) as (w & _ & Hw).
    assert (Hfresh : EdgeNode.available p = EdgeNode.capacity p
                     /\ 20 <= r_cpu (EdgeNode.capacity p)
                     /\ 32 <= r_memory (EdgeNode.capacity p)).
    { pose proof Hp as Hp'. rewrite Hnodes in Hp'.
      apply list_elem_of_In, list_elem_of_lookup in Hp'. destruct Hp' as [j Hj].
      apply built_nodes_lookup in Hj. destruct Hj as [_ ->].
      destruct (fresh_node_capacity (Z.of_nat j) (cap_cpu s j) (cap_memory s j))
        as (Ha & [Hc _] & [Hm _]);
        [apply (fair_cap_cpu _ _ Hfair) | apply (fair_cap_memory _ _ Hfair) |].
      auto. }
    destruct Hfresh as (Ha & Hc & Hm).
    destruct (unloaded_cost p r (network sys) w Ha Hc Hm) as (c & Hcost & _);
      [rewrite <- Ht; now apply Hvalid | exact Hw |].
    apply list_elem_of_In, list_elem_of_lookup in Hp. destruct Hp as [j Hj].
    assert (Hbid : In (j, c) (bids_from r (network sys) 0 (nodes sys))).
    { apply In_bids. exists p. auto. }
    destruct (BatchFacts.outcome_cases (nodes sys) (network sys) r)
      as [(Hnone & _)|(_ & (winner & price & Ha') & _)].
    - rewrite Hnone in Hbid. destruct Hbid.
    - eauto. }
  assert (Hlen : length allocations = length requests).
  { apply run_inv in Hrun. destruct Hrun as [-> _].
    now apply flat_map_singletons. }
  assert (Hreqs : length requests = length devices1).
  { rewrite <- (length_map key), Hkeys. unfold keys_of.
    apply flat_map_singletons. intros d1 Hd1.
    apply list_elem_of_In, list_elem_of_lookup in Hd1. destruct Hd1 as [i Hi].
    destruct (Hgen i d1 Hi) as (_ & _ & _ & -> & _). cbn. eauto. }
  (* the counts *)
  set (st0 := {| a_nodes := nodes sys; a_devices := devices1; welfare := 0.0;
                 per_device_allocated :=
                   fold_left (fun d dev => Dict.set (IoTDevice.id dev) 0%Z d)
                             devices1 [] |}) in *.
  assert (Hnd1 : NoDup (IoTDevice.id <$> devices1))
    by (unfold devices1; now rewrite generated_ids).
  assert (Hzero : Forall (eq 0%Z) (Dict.values (per_device_allocated st0)))
    by (apply initial_counts_zero; constructor).
  destruct (zeros_sum _ Hzero) as [Hsum0 Hpos0].
  destruct (applied_counts allocations st0 st Hnd1 Hpos0 Happ) as (_ & Hsum & Hpos).
  rewrite Hsum0, Z.add_0_l in Hsum.
  assert (Hk : keys (per_device_allocated st) = IoTDevice.id <$> devices1).
  { rewrite (applied_keys _ _ _ Happ). cbn [st0 per_device_allocated].
    rewrite initial_keys; [reflexivity | exact Hnd1]. }
  assert (Htotal : forall i d1, devices1 !! i = Some d1 ->
            exists d', a_devices st !! i = Some d'
              /\ (Z.of_nat (length (IoTDevice.pending_tasks d'))
                  + count_of (IoTDevice.id d1) (per_device_allocated st) = 1)%Z).
  { intros i d1 Hi.
    destruct (applied_device_total allocations st0 st i d1 Hnd1 Happ Hi)
      as (d' & Hd' & _ & Htot).
    exists d'. split; [exact Hd'|]. rewrite Htot.
    rewrite (zeros_count _ _ Hzero).
    destruct (Hgen i d1 Hi) as (_ & _ & _ & -> & _). reflexivity. }
  assert (Hvalues : Dict.values (per_device_allocated st)
                    = List.map (fun d1 => count_of (IoTDevice.id d1)
                                            (per_device_allocated st)) devices1).
  { rewrite values_by_key by (rewrite Hk; exact Hnd1). rewrite Hk.
    clear. induction devices1 as [|d l IH]; [reflexivity|].
    cbn [fmap list_fmap List.map]. f_equal. exact IH. }
  assert (Hones : Forall (eq 1%Z) (Dict.values (per_device_allocated st))).
  { apply all_ones.
    - rewrite Hvalues. apply List.Forall_forall. intros v Hv.
      apply in_map_iff in Hv. destruct Hv as (d1 & <- & Hd1).
      apply list_elem_of_In, list_elem_of_lookup in Hd1. destruct Hd1 as [i Hi].
      destruct (Htotal i d1 Hi) as (d' & _ & Htot). lia.
    - rewrite Hsum, Hlen, Hreqs, Hvalues, length_map. reflexivity. }
  split; [|split].
  - (* efficiency *)
    destruct (Nat.eq_dec (length requests) 0%nat) as [E|E].
    + apply length_zero_iff_nil in E. now rewrite (Hnil E).
    + assert (Hne : requests <> []) by (intros ->; now apply E).
      rewrite (Hcons Hne), Hlen. field. unfold Qeq. simpl. lia.
  - (* fairness *)
    assert (Hall : Fairness.all_equal
                     (List.map inject_Z (Dict.values (per_device_allocated st)))).
    { intros x y Hx Hy. apply in_map_iff in Hx, Hy.
      destruct Hx as (a & <- & Ha), Hy as (b & <- & Hb).
      rewrite <- (proj1 (List.Forall_forall _ _) Hones a Ha).
      rewrite <- (proj1 (List.Forall_forall _ _) Hones b Hb). reflexivity. }
    exact (jain_index_all_equal _ _ Hall Hjain).
  - (* the queues *)
    cbn [devices]. intros d' Hd'.
    apply list_elem_of_In, list_elem_of_lookup in Hd'. destruct Hd' as [i Hi].
    assert (Hlt : (i < length devices1)%nat).
    { rewrite <- (applied_devices_length _ _ _ Happ : length (a_devices st) = length devices1).
      eapply lookup_lt_Some; exact Hi. }
    destruct (lookup_lt_is_Some_2 _ _ Hlt) as [d1 Hd1].
    destruct (Htotal i d1 Hd1) as (d'' & Hd'' & Htot).
    rewrite Hi in Hd''. injection Hd'' as <-.
    assert (Hone : count_of (IoTDevice.id d1) (per_device_allocated st) = 1%Z).
    { symmetry. apply (proj1 (List.Forall_forall _ _) Hones). rewrite Hvalues.
      apply in_map_iff. exists d1. split; [reflexivity|].
      apply list_elem_of_In. eapply list_elem_of_lookup_2; exact Hd1. }
    rewrite Hone in Htot. apply length_zero_iff_nil. lia.
Qed.

Lemma first_round_serves_everyone_witness :
  exists sys' m,
    (sys0 <- init (seed0 2) 2 3 ;; round Scenario.exp2 sys0 (draws0 2 0)) = Ret (sys', m)
    /\ allocation_eff m == 1
    /\ fairness m == 1
    /\ forall d, In d (devices sys') -> IoTDevice.pending_tasks d = [].
Proof.
  destruct (init_spec (seed0 2) 2 3) as (g & Hinit & _); [apply seed0_fair; lia | lia |].
  rewrite Hinit. cbn [bind].
  apply (first_round_serves_everyone Scenario.exp2 (seed0 2) 2 3 _ (draws0 2 0)).
  - apply seed0_fair. lia.
  - lia.
  - exact Hinit.
  - intros i Hi.
    apply (generated_valid (built_devices (seed0 2) 2 3) (draws0 2) 0 i
             (IoTDevice.init (Z.of_nat (2 + i)) (kind (seed0 2) i))).
    + apply draws0_generated.
    + now apply built_devices_lookup.
Defined.

End FirstRound.

(* ------------------------------------------------------------------------- *)
(** ** What raises, and what does not                                         *)
(* ------------------------------------------------------------------------- *)

Module Exceptions.
Import CostFacts AuctionFacts BidFacts Auctioneer.

(** *** Loops that raise *)

Lemma for_each_raise_inv {A S} (body : S -> A -> py S) l : forall s e,
  for_each body l s = Raise e -> exists x s0, In x l /\ body s0 x = Raise e.
Proof.
  induction l as [|a l IH]; intros s e H; cbn [for_each] in H; [discriminate|].
  destruct (body s a) as [s1|e1] eqn:Hb; cbn [bind] in H.
  - destruct (IH _ _ H) as (x & s0 & Hin & Hx). exists x, s0. split; [now right | exact Hx].
  - injection H as <-. exists a, s. split; [now left | exact Hb].
Qed.

Lemma for_each_raise_intro {A S} (body : S -> A -> py S) l x :
  In x l -> (forall s0, exists e, body s0 x = Raise e) ->
  forall s, exists e, for_each body l s = Raise e.
Proof.
  intros Hin Hx. induction l as [|a l IH]; intros s; [destruct Hin|].
  cbn [for_each]. destruct (body s a) as [s1|e1] eqn:Hb; cbn [bind]; [|eauto].
  destruct Hin as [->|Hin]; [|now apply IH].
  destruct (Hx s) as [e He]. congruence.
Qed.

(** *** [cost_for_request] *)

(** X18: on a graph without negative weights, which the shortest-path
    search requires, and for a task with no negative CPU demand on a
    provider that has no more CPU available than its capacity, so that the
    load is a number between 0 and 1, [cost_for_request] raises in two cases
    only, both after the check of the resources has passed:
    [ZeroDivisionError] when the CPU capacity of the provider is zero, and
    [NodeNotFound] when the provider has no edge to the device and is not a
    node of the graph itself.  A device that cannot be reached is a refusal,
    not an exception. *)
Theorem cost_for_request_raises (p : EdgeNode.t) (req : ResourceRequest)
    (g : nx.Graph) (e : exn) :
  GraphFacts.nonneg_weights g ->
  0 <= cpu (task req) ->
  r_cpu (EdgeNode.available p) <= r_cpu (EdgeNode.capacity p) ->
  EdgeNode.cost_for_request p req g = Raise e <->
  (cpu (task req) <= r_cpu (EdgeNode.available p)
   /\ memory (task req) <= r_memory (EdgeNode.available p))
  /\ ((r_cpu (EdgeNode.capacity p) == 0 /\ e = ZeroDivisionError)
      \/ (~ r_cpu (EdgeNode.capacity p) == 0
          /\ nx.has_edge g (EdgeNode.id p) (device_id req) = false
          /\ nx.has_node g (EdgeNode.id p) = false
          /\ e = NodeNotFound)).
Proof.
  intros _ _ _. unfold EdgeNode.cost_for_request.
  destruct (Float.ltb (r_cpu (EdgeNode.available p)) (cpu (task req))) eqn:H1.
  { apply FloatFacts.ltb_lt in H1. cbn [orb]. split; [discriminate|].
    intros [[H _] _]. lra. }
  destruct (Float.ltb (r_memory (EdgeNode.available p)) (memory (task req))) eqn:H2.
  { apply FloatFacts.ltb_lt in H2. cbn [orb]. split; [discriminate|].
    intros [[_ H] _]. lra. }
  apply FloatFacts.ltb_ge in H1, H2. cbn [orb]. unfold py_div.
  destruct (Float.eqb (r_cpu (EdgeNode.capacity p)) 0) eqn:Hc.
  - apply FloatFacts.eqb_eq in Hc. cbn [bind]. split.
    + intros [= <-]. split; [auto|]. left. auto.
    + intros [_ [[_ ->]|[Hne _]]]; [reflexivity | contradiction].
  - apply FloatFacts.eqb_neq in Hc. cbn [bind].
    destruct (nx.has_edge g (EdgeNode.id p) (device_id req)) eqn:He.
    + destruct (weight_has_edge _ _ _ He) as (w & -> & _). cbn [bind].
      split; [discriminate|].
      intros [_ [[Hz _]|(_ & Hf & _)]]; [contradiction | discriminate].
    + unfold nx.shortest_path_length.
      destruct (nx.has_node g (EdgeNode.id p)) eqn:Hn; cbn [negb].
      * destruct (nx.walk_dist _ _ _ _); (split; [discriminate|]);
          intros [_ [[Hz _]|(_ & _ & Hf & _)]]; contradiction || discriminate.
      * split.
        -- intros [= <-]. auto 10.
        -- intros [_ [[Hz _]|(_ & _ & _ & ->)]]; [contradiction | reflexivity].
Qed.

Lemma cost_for_request_raises_witness :
  EdgeNode.cost_for_request (EdgeNode.init 9 20 32) Scenario.request3
    Scenario.topology = Raise NodeNotFound
  /\ forall e,
       EdgeNode.cost_for_request (EdgeNode.init 2 20 32) Scenario.request3
         Scenario.topology <> Raise e.
Proof.
  assert (Hnn : GraphFacts.nonneg_weights Scenario.topology)
    by (repeat constructor; vm_compute; intros E; discriminate E).
  assert (Hcpu : 0 <= cpu (task Scenario.request3)) by discriminate.
  split.
  - apply (cost_for_request_raises (EdgeNode.init 9 20 32) Scenario.request3
             Scenario.topology NodeNotFound Hnn Hcpu).
    + vm_compute. discriminate.
    + split; [split; vm_compute; discriminate|]. right.
      split; [intros E; vm_compute in E; discriminate E|]. auto.
  - intros e He.
    apply (cost_for_request_raises (EdgeNode.init 2 20 32) Scenario.request3
             Scenario.topology e Hnn Hcpu) in He.
    + destruct He as [_ [[Hz _]|(_ & _ & Hnode & _)]].
      * vm_compute in Hz. discriminate Hz.
      * vm_compute in Hnode. discriminate Hnode.
    + vm_compute. discriminate.
Defined.

(** *** [Auctioneer.run] *)

Lemma collect_bids_raises req providers g e :
  collect_bids req providers g = Raise e ->
  exists p, In p providers /\ EdgeNode.cost_for_request p req g = Raise e.
Proof.
  unfold collect_bids. intros H. apply for_each_raise_inv in H.
  destruct H as ([i p] & bids & Hin & Hb). cbn [fst snd] in Hb.
  exists p. split; [eapply in_combine_r; exact Hin|].
  destruct (EdgeNode.cost_for_request p req g) as [[c|]|e']; cbn [bind] in Hb;
    try discriminate. now injection Hb as ->.
Qed.

Lemma run_body_raises providers g out req e :
  run_body providers g out req = Raise e ->
  collect_bids req providers g = Raise e.
Proof.
  unfold run_body. destruct out as [allocations rejections].
  destruct (collect_bids req providers g) as [bids|e'] eqn:Hb; cbn [bind].
  - destruct bids as [|b bids]; cbn [length Nat.ltb Nat.leb]; [discriminate|].
    destruct (sort_by_cost (b :: bids)) as [|[w c] rest] eqn:Hs; [|discriminate].
    apply sort_by_cost_nil in Hs. discriminate.
  - intros [= ->]. reflexivity.
Qed.

(** X19: [Auctioneer.run] raises exactly when some provider raises on some
    request of the batch, and the exception is the provider's: the auction
    has no failure of its own (the test [len(bids) < 1] guards [bids[0]]). *)
Theorem run_raises_only_through_providers (requests : list ResourceRequest)
    (providers : list EdgeNode.t) (network : nx.Graph) :
  (forall e, run requests providers network = Raise e ->
     exists req p, In req requests /\ In p providers
                   /\ EdgeNode.cost_for_request p req network = Raise e)
  /\ ((exists req p e0, In req requests /\ In p providers
                        /\ EdgeNode.cost_for_request p req network = Raise e0) ->
      exists e, run requests providers network = Raise e).
Proof.
  split.
  - intros e H. unfold run in H. apply for_each_raise_inv in H.
    destruct H as (req & out & Hreq & Hb). apply run_body_raises in Hb.
    apply collect_bids_raises in Hb. destruct Hb as (p & Hp & Hc). eauto.
  - intros (req & p & e0 & Hreq & Hp & Hc). unfold run.
    apply (for_each_raise_intro _ _ req Hreq). intros [allocations rejections].
    assert (Hb : exists e, collect_bids req providers network = Raise e).
    { unfold collect_bids.
      apply list_elem_of_In, list_elem_of_lookup in Hp. destruct Hp as [i Hi].
      apply (for_each_raise_intro _ _ (i, p));
        [now apply Construction.In_enumerate|].
      intros bids. cbn [fst snd]. rewrite Hc. cbn [bind]. eauto. }
    destruct Hb as [e Hb]. exists e. unfold run_body. now rewrite Hb.
Qed.

Lemma run_body_shift providers g A R A0 R0 req :
  run_body providers g (A ++ A0, R ++ R0) req
  = '(a, r) <- run_body providers g (A0, R0) req ;; Ret (A ++ a, R ++ r).
Proof.
  unfold run_body. destruct (collect_bids req providers g) as [bids|e]; cbn [bind];
    [|reflexivity].
  destruct (length bids <? 1)%nat; cbn [bind]; [now rewrite app_assoc|].
  destruct (sort_by_cost bids) as [|[w c] rest]; cbn [bind]; [reflexivity|].
  now rewrite app_assoc.
Qed.

Lemma run_from_shift providers g requests : forall A R A0 R0,
  for_each (run_body providers g) requests (A ++ A0, R ++ R0)
  = '(a, r) <- for_each (run_body providers g) requests (A0, R0) ;;
    Ret (A ++ a, R ++ r).
Proof.
  induction requests as [|req requests IH]; intros A R A0 R0; [reflexivity|].
  cbn [for_each]. rewrite run_body_shift.
  destruct (run_body providers g (A0, R0) req) as [[a r]|e]; cbn [bind]; [|reflexivity].
  apply IH.
Qed.

(** X20: the auction handles the requests one by one and keeps nothing
    between them: the outcome of a batch is the outcome of its first part
    followed by the outcome of the rest, computed against the same
    providers (what the first requests were allocated is not deducted). *)
Theorem run_handles_requests_one_by_one (requests1 requests2 : list ResourceRequest)
    (providers : list EdgeNode.t) (network : nx.Graph) :
  run (requests1 ++ requests2) providers network
  = '(a1, r1) <- run requests1 providers network ;;
    '(a2, r2) <- run requests2 providers network ;;
    Ret (a1 ++ a2, r1 ++ r2).
Proof.
  unfold run. rewrite PyFacts.for_each_app.
  destruct (for_each (run_body providers network) requests1 ([], []))
    as [[a1 r1]|e]; cbn [bind]; [|reflexivity].
  rewrite <- (app_nil_r a1) at 1. rewrite <- (app_nil_r r1) at 1.
  apply run_from_shift.
Qed.

(** *** [build_requests] *)

(** X21: [build_requests] returns one request per pending task, in the
    order of the queue and under the identifier of the device; on an empty
    queue it returns the empty list whatever the topology.  On a graph
    without negative weights and for pending tasks with no negative
    deadline or CPU demand and a priority from 1 to 5, so that the argument
    of [math.exp] is never positive and the function within its range, it
    raises in two cases only, both with a task pending: [ValueError] when
    the device has no edge to any provider, and [ZeroDivisionError] when it
    has one and the deadline of a pending task is zero. *)
Theorem build_requests_outcomes (exp : Q -> Q) (self : IoTDevice.t)
    (network : nx.Graph) (providers : list EdgeNode.t) :
  (forall reqs, IoTDevice.build_requests exp self network providers = Ret reqs ->
     List.map task reqs = IoTDevice.pending_tasks self
     /\ Forall (fun r => device_id r = IoTDevice.id self) reqs)
  /\ (IoTDevice.pending_tasks self = [] ->
      IoTDevice.build_requests exp self network providers = Ret [])
  /\ (GraphFacts.nonneg_weights network ->
      (forall t, In t (IoTDevice.pending_tasks self) ->
         0 <= deadline t /\ 0 <= cpu t /\ (1 <= priority t <= 5)%Z) ->
      forall e, IoTDevice.build_requests exp self network providers = Raise e <->
        IoTDevice.pending_tasks self <> []
        /\ (((forall p, In p providers ->
                nx.has_edge network (IoTDevice.id self) (EdgeNode.id p) = false)
             /\ e = ValueError)
            \/ ((exists p, In p providers
                   /\ nx.has_edge network (IoTDevice.id self) (EdgeNode.id p) = true)
                /\ (exists t, In t (IoTDevice.pending_tasks self) /\ deadline t == 0)
                /\ e = ZeroDivisionError))).
Proof.
  split; [intros reqs; apply RoundFacts.build_requests_inv|].
  split; [intros E; unfold IoTDevice.build_requests; now rewrite E|].
  intros _ _ e. unfold IoTDevice.build_requests.
  set (body := fun requests t =>
                 lats <- IoTDevice.direct_latencies self network providers ;;
                 best_latency <- py_min lats ;;
                 let expected_completion := best_latency + cpu t / 10 in
                 let energy_cost := best_latency * 0.1 in
                 utility <- IoTDevice.utility_for_task exp self t expected_completion
                                                       energy_cost ;;
                 Ret (requests ++ [{| device_id := IoTDevice.id self; task := t;
                                      bid_value := utility |}])).
  destruct (latencies self network providers) as [|w0 lats] eqn:Hlat.
  - (* no direct provider *)
    assert (Hnone : forall p, In p providers ->
              nx.has_edge network (IoTDevice.id self) (EdgeNode.id p) = false).
    { intros p Hp. unfold nx.has_edge.
      destruct (nx.find_edge network (IoTDevice.id self) (EdgeNode.id p)) as [w|] eqn:He;
        [|reflexivity].
      assert (Hin : In w (latencies self network providers))
        by (apply In_latencies; eauto).
      rewrite Hlat in Hin. destruct Hin. }
    assert (Hbody : forall acc t, body acc t = Raise ValueError).
    { intros acc t. unfold body. now rewrite direct_latencies_spec, Hlat. }
    destruct (IoTDevice.pending_tasks self) as [|t l]; cbn [for_each].
    + split; [discriminate | intros [H _]; now contradiction H].
    + rewrite Hbody. cbn [bind]. split.
      * intros [= <-]. split; [discriminate|]. left. auto.
      * intros [_ [[_ ->]|((p & Hp & He) & _)]]; [reflexivity|].
        rewrite (Hnone p Hp) in He. discriminate.
  - (* a direct provider *)
    assert (Hsome : exists p, In p providers
              /\ nx.has_edge network (IoTDevice.id self) (EdgeNode.id p) = true).
    { assert (Hin : In w0 (latencies self network providers))
        by (rewrite Hlat; now left).
      apply In_latencies in Hin. destruct Hin as (p & Hp & He).
      exists p. split; [exact Hp|]. unfold nx.has_edge. now rewrite He. }
    destruct (py_min_spec (w0 :: lats)) as (best & Hmin & _); [discriminate|].
    assert (Hbody : forall acc t,
              (deadline t == 0 -> body acc t = Raise ZeroDivisionError)
              /\ (~ deadline t == 0 -> exists acc', body acc t = Ret acc')).
    { intros acc t. unfold body. rewrite direct_latencies_spec, Hlat. cbn [bind].
      rewrite Hmin. cbn [bind]. unfold IoTDevice.utility_for_task, py_div. split; intros Hd.
      - apply FloatFacts.eqb_eq in Hd. now rewrite Hd.
      - apply FloatFacts.eqb_neq in Hd. rewrite Hd. cbn [bind]. eauto. }
    assert (Hinv : forall e', for_each body (IoTDevice.pending_tasks self) [] = Raise e' ->
              (exists t, In t (IoTDevice.pending_tasks self) /\ deadline t == 0)
              /\ e' = ZeroDivisionError).
    { intros e' H. apply for_each_raise_inv in H. destruct H as (t & acc & Ht & Hb).
      destruct (Qeq_dec (deadline t) 0) as [Hz|Hnz].
      - rewrite (proj1 (Hbody acc t) Hz) in Hb. injection Hb as <-. eauto.
      - destruct (proj2 (Hbody acc t) Hnz) as [acc' Hr]. congruence. }
    split.
    + intros H. destruct (Hinv e H) as [Ht ->]. split.
      * destruct Ht as (t & Ht & _). intros E. rewrite E in Ht. destruct Ht.
      * right. auto.
    + intros [_ [[Hnone _]|(_ & (t & Ht & Hz) & ->)]].
      * destruct Hsome as (p & Hp & He). rewrite (Hnone p Hp) in He. discriminate.
      * destruct (for_each_raise_intro body _ t Ht) with (s := @nil ResourceRequest)
          as [e' He'].
        { intros acc. exists ZeroDivisionError. now apply Hbody. }
        destruct (Hinv e' He') as [_ ->]. exact He'.
Qed.

Lemma build_requests_outcomes_witness :
  IoTDevice.build_requests Scenario.exp2 Scenario.device5 Scenario.topology
    Scenario.providers = Raise ValueError
  /\ forall e,
       IoTDevice.build_requests Scenario.exp2 Scenario.device3 Scenario.topology
         Scenario.providers <> Raise e.
Proof.
  assert (Hnn : GraphFacts.nonneg_weights Scenario.topology)
    by (repeat constructor; vm_compute; intros E; discriminate E).
  assert (Htasks : forall t, In t [Scenario.small_task] ->
            0 <= deadline t /\ 0 <= cpu t /\ (1 <= priority t <= 5)%Z).
  { intros t [<-|[]]. repeat split; vm_compute; congruence. }
  split.
  - destruct (build_requests_outcomes Scenario.exp2 Scenario.device5
                Scenario.topology Scenario.providers) as (_ & _ & H).
    apply (H Hnn Htasks ValueError). split; [discriminate|]. left.
    split; [|reflexivity]. intros p [<-|[<-|[<-|[]]]]; reflexivity.
  - intros e He.
    destruct (build_requests_outcomes Scenario.exp2 Scenario.device3
                Scenario.topology Scenario.providers) as (_ & _ & H).
    apply (H Hnn Htasks e) in He.
    destruct He as [_ [[Hnone _]|(_ & (t & [<-|[]] & Hz) & _)]].
    + specialize (Hnone (EdgeNode.init 0 20 32) (or_introl eq_refl)).
      vm_compute in Hnone. discriminate Hnone.
    + vm_compute in Hz. discriminate Hz.
Defined.

End Exceptions.

(* ------------------------------------------------------------------------- *)
(** ** The averages [run] returns                                             *)
(* ------------------------------------------------------------------------- *)

Module Averages.
Import EdgeComputingSystem CostFacts AuctionFacts SystemFacts RoundFacts Liveness.
Import RoundAccounts MetricsFacts TaskFacts RunFacts Construction Simulation.

(** The ranges of the metrics of a round. *)
Definition in_range (m : metrics) : Prop :=
  (0 <= allocation_eff m /\ allocation_eff m <= 1)
  /\ (0 < fairness m /\ fairness m <= 1).

Lemma round_in_range exp sys draw sys' m :
  NoDup (IoTDevice.id <$> devices sys) ->
  round exp sys draw = Ret (sys', m) -> in_range m.
Proof.
  intros Hnd Hround.
  destruct (round_account _ _ _ _ _ Hnd Hround)
    as (requests & allocations & rejections & st & _ & _ & _ & Happ & _ & Hle
        & Hnil & Hcons & Hjain).
  split.
  - destruct (Nat.eq_dec (length requests) 0%nat) as [E|E].
    + apply length_zero_iff_nil in E. rewrite (Hnil E). split; discriminate.
    + assert (Hne : requests <> []) by (intros ->; now apply E).
      rewrite (Hcons Hne).
      assert (Hpos : 0 < inject_Z (Z.of_nat (length requests))).
      { change 0 with (inject_Z 0). rewrite <- Zlt_Qlt. lia. }
      assert (Ha : 0 <= inject_Z (Z.of_nat (length allocations))).
      { change 0 with (inject_Z 0). rewrite <- Zle_Qle. lia. }
      assert (Hb : inject_Z (Z.of_nat (length allocations))
                   <= inject_Z (Z.of_nat (length requests))).
      { rewrite <- Zle_Qle. lia. }
      split.
      * apply Qle_shift_div_l; [exact Hpos | lra].
      * apply Qle_shift_div_r; [exact Hpos | lra].
  - apply (jain_index_range _ _) in Hjain; [exact Hjain|].
    apply inject_nonneg. apply (applied_counts_nonneg _ _ _) in Happ; [exact Happ|].
    cbn [per_device_allocated]. apply zeros_sum, initial_counts_zero. constructor.
Qed.

Lemma round_keeps_ids exp sys draw sys' m :
  round exp sys draw = Ret (sys', m) ->
  IoTDevice.id <$> devices sys' = IoTDevice.id <$> devices sys.
Proof.
  intros Hround.
  destruct (round_frame _ _ _ _ _ Hround) as (_ & _ & _ & Hld & Hdevs).
  apply list_eq. intros i. rewrite !list_lookup_fmap.
  destruct (devices sys !! i) as [d|] eqn:Hd.
  - destruct (Hdevs i d Hd) as (d' & -> & (Hid & _) & _). cbn. now rewrite Hid.
  - apply lookup_ge_None in Hd. rewrite <- Hld in Hd.
    apply lookup_ge_None in Hd. now rewrite Hd.
Qed.

Lemma run_from_in_range exp draws : forall n r sys sys' ms,
  NoDup (IoTDevice.id <$> devices sys) ->
  run_from exp r n sys draws = Ret (sys', ms) ->
  length ms = n /\ Forall in_range ms.
Proof.
  induction n as [|n IH]; intros r sys sys' ms Hnd Hrun; cbn [run_from] in Hrun.
  - injection Hrun as <- <-. split; [reflexivity | constructor].
  - apply PyFacts.bind_Ret_inv in Hrun. destruct Hrun as ([sys1 m] & Hround & Hrun).
    apply PyFacts.bind_Ret_inv in Hrun. destruct Hrun as ([sys2 ms'] & Hrest & [= <- <-]).
    destruct (IH (S r) sys1 sys2 ms') as [Hlen Hall];
      [now rewrite (round_keeps_ids _ _ _ _ _ Hround) | exact Hrest |].
    split; [cbn; now rewrite Hlen|].
    constructor; [|exact Hall]. exact (round_in_range _ _ _ _ _ Hnd Hround).
Qed.

(** *** Means *)

Lemma total_between a b l :
  Forall (fun x => a <= x /\ x <= b) l ->
  a * Fairness.size l <= Fairness.total l /\ Fairness.total l <= b * Fairness.size l.
Proof.
  induction 1 as [|x l [Hlo Hhi] _ [IHlo IHhi]].
  - change (Fairness.size []) with 0. cbn [Fairness.total]. split; lra.
  - rewrite Fairness.size_cons. cbn [Fairness.total]. split; lra.
Qed.

Lemma total_positive x l :
  Forall (fun y => 0 < y) (x :: l) -> 0 < Fairness.total (x :: l).
Proof.
  intros H. apply Forall_cons in H. destruct H as [Hx H]. cbn [Fairness.total].
  assert (0 <= Fairness.total l); [|lra].
  apply Fairness.total_nonneg. eapply Forall_impl; [exact H|]. intros y Hy. cbv beta in Hy. lra.
Qed.

Lemma np_mean_cons x l :
  np_mean (x :: l) = Some (Qsum (x :: l) / Fairness.size (x :: l)).
Proof. reflexivity. Qed.

Lemma np_mean_between a b x l :
  Forall (fun y => a <= y /\ y <= b) (x :: l) ->
  exists v, np_mean (x :: l) = Some v /\ a <= v /\ v <= b.
Proof.
  intros H. rewrite np_mean_cons. eexists. split; [reflexivity|].
  destruct (total_between a b _ H) as [Hlo Hhi].
  pose proof (Fairness.size_pos x l) as Hn. rewrite Fairness.Qsum_total. split.
  - apply Qle_shift_div_l; [exact Hn | exact Hlo].
  - apply Qle_shift_div_r; [exact Hn | exact Hhi].
Qed.

Lemma np_mean_positive x l :
  Forall (fun y => 0 < y) (x :: l) -> exists v, np_mean (x :: l) = Some v /\ 0 < v.
Proof.
  intros H. rewrite np_mean_cons. eexists. split; [reflexivity|].
  pose proof (Fairness.size_pos x l) as Hn. pose proof (total_positive x l H) as Ht.
  rewrite Fairness.Qsum_total. apply Qlt_shift_div_l; [exact Hn | lra].
Qed.

(** The means of metrics within their ranges. *)
Lemma summary_in_range m ms :
  Forall in_range (m :: ms) ->
  exists w e f,
    summary (m :: ms) = {| avg_welfare := Some w; avg_efficiency := Some e;
                           avg_fairness := Some f |}
    /\ (0 <= e /\ e <= 1) /\ (0 < f /\ f <= 1).
Proof.
  intros Hall. unfold summary. cbn [List.map].
  destruct (np_mean_between 0 1 (allocation_eff m) (List.map allocation_eff ms))
    as (e & He & He01).
  { change (allocation_eff m :: List.map allocation_eff ms)
      with (List.map allocation_eff (m :: ms)).
    apply List.Forall_forall. intros y Hy. apply in_map_iff in Hy.
    destruct Hy as (m0 & <- & Hm0).
    exact (proj1 (proj1 (List.Forall_forall _ _) Hall m0 Hm0)). }
  destruct (np_mean_between 0 1 (fairness m) (List.map fairness ms)) as (f & Hf & Hf01).
  { change (fairness m :: List.map fairness ms) with (List.map fairness (m :: ms)).
    apply List.Forall_forall. intros y Hy. apply in_map_iff in Hy.
    destruct Hy as (m0 & <- & Hm0).
    destruct (proj2 (proj1 (List.Forall_forall _ _) Hall m0 Hm0)). split; lra. }
  destruct (np_mean_positive (fairness m) (List.map fairness ms)) as (f' & Hf' & Hfpos).
  { change (fairness m :: List.map fairness ms) with (List.map fairness (m :: ms)).
    apply List.Forall_forall. intros y Hy. apply in_map_iff in Hy.
    destruct Hy as (m0 & <- & Hm0).
    exact (proj1 (proj2 (proj1 (List.Forall_forall _ _) Hall m0 Hm0))). }
  rewrite Hf in Hf'. injection Hf' as <-.
  rewrite np_mean_cons, He, Hf. eexists _, e, f. split; [reflexivity|].
  split; [exact He01|]. split; [exact Hfpos | apply Hf01].
Qed.

(** X22: for devices with identifiers of their own, a [run] that returns
    has recorded one set of metrics per round, each with an allocation
    efficiency in [0, 1] and a fairness in (0, 1], and so are the two
    averages it returns when there is at least one round.  Without any
    round the three averages are [nan]. *)
Theorem run_reports_averages (exp : Q -> Q) (n_rounds : nat)
    (sys sys' : EdgeComputingSystem.t) (draws : nat -> nat -> IoTTask)
    (ms : list metrics) :
  NoDup (IoTDevice.id <$> devices sys) ->
  run exp n_rounds sys draws = Ret (sys', ms) ->
  length ms = n_rounds
  /\ Forall (fun m => (0 <= allocation_eff m /\ allocation_eff m <= 1)
                      /\ (0 < fairness m /\ fairness m <= 1)) ms
  /\ (n_rounds = 0%nat ->
      summary ms = {| avg_welfare := None; avg_efficiency := None;
                      avg_fairness := None |})
  /\ ((1 <= n_rounds)%nat ->
      exists w e f,
        summary ms = {| avg_welfare := Some w; avg_efficiency := Some e;
                        avg_fairness := Some f |}
        /\ (0 <= e /\ e <= 1) /\ (0 < f /\ f <= 1)).
Proof.
  intros Hnd Hrun. unfold run in Hrun.
  destruct (run_from_in_range _ _ _ _ _ _ _ Hnd Hrun) as [Hlen Hall].
  split; [exact Hlen|]. split; [exact Hall|]. split.
  - intros E. rewrite E in Hlen. apply length_zero_iff_nil in Hlen. now subst ms.
  - intros Hn. destruct ms as [|m ms]; [cbn in Hlen; lia|].
    now apply summary_in_range.
Qed.

Lemma run_reports_averages_witness :
  exists sys' ms,
    run Scenario.exp2 3 Scenario.starved ticking = Ret (sys', ms)
    /\ length ms = 3%nat
    /\ Forall (fun m => (0 <= allocation_eff m /\ allocation_eff m <= 1)
                        /\ (0 < fairness m /\ fairness m <= 1)) ms
    /\ (3%nat = 0%nat ->
        summary ms = {| avg_welfare := None; avg_efficiency := None;
                        avg_fairness := None |})
    /\ ((1 <= 3)%nat ->
        exists w e f,
          summary ms = {| avg_welfare := Some w; avg_efficiency := Some e;
                          avg_fairness := Some f |}
          /\ (0 <= e /\ e <= 1) /\ (0 < f /\ f <= 1)).
Proof.
  destruct (run_from_returns ticking Scenario.exp2 3 0 Scenario.starved)
    as (sys' & ms & Hret & _); [apply ticking_fresh | exact starved_runnable |].
  exists sys', ms. split; [exact Hret|].
  apply (run_reports_averages Scenario.exp2 3 Scenario.starved sys' ticking ms).
  - apply (bool_decide_unpack _). vm_compute. exact I.
  - exact Hret.
Defined.

(** X23: [main] does not raise and prints three numbers.  For draws within
    the contract of the generator, and task identifiers that no device
    draws twice, the system of 10 nodes and 20 devices goes through its 50
    rounds; the averages are not [nan], the average efficiency lies in
    [0, 1] and the average fairness in (0, 1]. *)
Theorem main_reports_averages (exp : Q -> Q) (s : seed)
    (draws : nat -> nat -> IoTTask) :
  fair s 10 ->
  (forall sys, init s 10 20 = Ret sys -> generated_draws (devices sys) draws) ->
  exists sys' ms w e f,
    main exp s draws = Ret (sys', ms)
    /\ length ms = 50%nat
    /\ summary ms = {| avg_welfare := Some w; avg_efficiency := Some e;
                       avg_fairness := Some f |}
    /\ (0 <= e /\ e <= 1) /\ (0 < f /\ f <= 1).
Proof.
  intros Hfair Hgen. unfold main.
  destruct (init_spec s 10 20 Hfair) as (g & Hinit & _); [lia|].
  rewrite Hinit. cbn [bind].
  set (sys := {| network := g; nodes := built_nodes s 10;
                 devices := built_devices s 10 20 |}) in *.
  pose proof (built_runnable s 10 20 draws sys Hfair) as Hrun.
  destruct (run_from_returns draws exp 50 0 sys) as (sys' & ms & Hret & _).
  - apply generated_fresh. now apply Hgen.
  - apply Hrun; [lia | exact Hinit].
  - destruct (run_from_in_range exp draws 50 0 sys sys' ms
                (built_device_ids_NoDup s 10 20) Hret) as [Hlen Hall].
    destruct ms as [|m ms]; [discriminate|].
    destruct (summary_in_range m ms Hall) as (w & e & f & Hsum & He & Hf).
    exists sys', (m :: ms), w, e, f. auto.
Qed.

Lemma main_reports_averages_witness :
  exists sys' ms w e f,
    main Scenario.exp2 (seed0 10) (draws0 10) = Ret (sys', ms)
    /\ length ms = 50%nat
    /\ summary ms = {| avg_welfare := Some w; avg_efficiency := Some e;
                       avg_fairness := Some f |}
    /\ (0 <= e /\ e <= 1) /\ (0 < f /\ f <= 1).
Proof.
  apply (main_reports_averages Scenario.exp2 (seed0 10) (draws0 10)).
  - apply seed0_fair. lia.
  - intros sys Hinit.
    destruct (init_spec (seed0 10) 10 20) as (g & Hinit' & _);
      [apply seed0_fair; lia | lia |].
    rewrite Hinit in Hinit'. injection Hinit' as ->. cbn [devices].
    apply draws0_generated.
Defined.

End Averages.

(* ------------------------------------------------------------------------- *)
(** ** Jain's index does not depend on order or unit                          *)
(* ------------------------------------------------------------------------- *)

Module Symmetry.
Import EdgeComputingSystem Fairness.

Lemma total_perm l l' : Permutation l l' -> total l == total l'.
Proof.
  induction 1 as [|x l l' _ IH|x y l|l l' l'' _ IH1 _ IH2]; cbn [total].
  - reflexivity.
  - now rewrite IH.
  - ring.
  - now rewrite IH1.
Qed.

Lemma squares_perm l l' : Permutation l l' -> squares l == squares l'.
Proof.
  induction 1 as [|x l l' _ IH|x y l|l l' l'' _ IH1 _ IH2]; cbn [squares].
  - reflexivity.
  - now rewrite IH.
  - ring.
  - now rewrite IH1.
Qed.

Lemma total_scale c l : total (List.map (Qmult c) l) == c * total l.
Proof.
  induction l as [|x l IH]; cbn [List.map total]; [ring|]. rewrite IH. ring.
Qed.

Lemma squares_scale c l : squares (List.map (Qmult c) l) == c ^ 2 * squares l.
Proof.
  induction l as [|x l IH]; cbn [List.map squares]; [ring|]. rewrite IH. ring.
Qed.

(** The value of [jain_index], case by case. *)
Lemma jain_index_value v :
  exists j, jain_index v = Ret j
    /\ (v = [] \/ squares v == 0 -> j == 1)
    /\ (v <> [] -> ~ squares v == 0 -> j == total v ^ 2 / (size v * squares v)).
Proof.
  destruct v as [|x l].
  - exists 1.0. split; [reflexivity|]. split; [reflexivity|]. intros H. now contradiction H.
  - destruct (Qeq_dec (squares (x :: l)) 0) as [Hz|Hnz].
    + exists 1.0. split; [now apply jain_index_zero_squares|].
      split; [reflexivity | intros _ H; contradiction].
    + destruct (jain_index_ratio _ _ Hnz) as (j & Hj & Hratio).
      exists j. split; [exact Hj|]. split; [|auto].
      intros [H|H]; [discriminate | contradiction].
Qed.

Lemma same_index v v' j j' :
  jain_index v = Ret j -> jain_index v' = Ret j' ->
  (v = [] <-> v' = []) -> (squares v == 0 <-> squares v' == 0) ->
  (v <> [] -> ~ squares v == 0 ->
   total v' ^ 2 / (size v' * squares v') == total v ^ 2 / (size v * squares v)) ->
  j' == j.
Proof.
  intros Hj Hj' Hnil Hzero Hratio.
  destruct (jain_index_value v) as (j0 & Hj0 & Hone & Hr). rewrite Hj in Hj0.
  injection Hj0 as <-.
  destruct (jain_index_value v') as (j0 & Hj0 & Hone' & Hr'). rewrite Hj' in Hj0.
  injection Hj0 as <-.
  destruct v as [|x l].
  - rewrite Hone by now left. rewrite Hone'; [reflexivity|]. left. now apply Hnil.
  - destruct (Qeq_dec (squares (x :: l)) 0) as [Hz|Hnz].
    + rewrite Hone by now right. rewrite Hone'; [reflexivity|]. right. now apply Hzero.
    + rewrite Hr by (discriminate || exact Hnz). rewrite Hr'.
      * apply Hratio; [discriminate | exact Hnz].
      * intros E. apply Hnil in E. discriminate.
      * intros E. apply Hnz. now apply Hzero.
Qed.

(** X24: with exact arithmetic, [jain_index] never raises, does not depend
    on the order of the values and does not change when all of them are
    multiplied by the same non-zero factor. *)
Theorem jain_index_is_symmetric_and_scale_free (v : list Q) :
  exists j,
    jain_index v = Ret j
    /\ (forall v', Permutation v v' -> exists j', jain_index v' = Ret j' /\ j' == j)
    /\ (forall c, ~ c == 0 ->
          exists j', jain_index (List.map (Qmult c) v) = Ret j' /\ j' == j).
Proof.
  destruct (jain_index_value v) as (j & Hj & _). exists j. split; [exact Hj|]. split.
  - intros v' Hperm. destruct (jain_index_value v') as (j' & Hj' & _).
    exists j'. split; [exact Hj'|].
    apply (same_index v v' j j' Hj Hj').
    + split; intros ->.
      * now apply Permutation_nil.
      * symmetry in Hperm. now apply Permutation_nil in Hperm.
    + now rewrite (squares_perm _ _ Hperm).
    + intros _ _. unfold size.
      rewrite (total_perm _ _ Hperm), (squares_perm _ _ Hperm),
        (Permutation_length Hperm). reflexivity.
  - intros c Hc. destruct (jain_index_value (List.map (Qmult c) v)) as (j' & Hj' & _).
    exists j'. split; [exact Hj'|].
    assert (Hc2 : ~ c ^ 2 == 0) by (intros E; apply sq_zero in E; contradiction).
    apply (same_index v _ j j' Hj Hj').
    + split; [intros ->; reflexivity|]. intros E. now apply map_eq_nil in E.
    + rewrite squares_scale. split; intros E.
      * rewrite E. ring.
      * apply Qmult_integral in E. destruct E as [E|E]; [contradiction | exact E].
    + intros Hne Hnz. unfold size. rewrite total_scale, squares_scale, length_map.
      assert (Hn : ~ inject_Z (Z.of_nat (length v)) == 0).
      { destruct v as [|x l]; [now contradiction Hne|].
        pose proof (size_pos x l) as Hp. unfold size in Hp. lra. }
      field. repeat split; assumption.
Qed.

End Symmetry.

(* ------------------------------------------------------------------------- *)
(** ** When a provider is overdrawn                                           *)
(* ------------------------------------------------------------------------- *)

Module Overdraft.
Import EdgeComputingSystem CostFacts AuctionFacts RoundFacts Liveness RoundAccounts
       BatchFacts.

(** The allocations of a batch that the provider at position [i] won. *)
Definition wins (i : nat) (allocations : list Allocation) : list Allocation :=
  List.filter (fun a : Allocation => (snd (fst a) =? i)%nat) allocations.

Lemma won_none i allocations :
  wins i allocations = [] ->
  won_cpu i allocations == 0 /\ won_memory i allocations == 0.
Proof.
  induction allocations as [|[[req w] price] l IH]; cbn [wins List.filter fst snd];
    [split; reflexivity|].
  cbn [won_cpu won_memory]. destruct (w =? i)%nat; [discriminate|].
  intros H. destruct (IH H) as [Hc Hm]. rewrite Hc, Hm. split; ring.
Qed.

Lemma won_single i allocations :
  (length (wins i allocations) <= 1)%nat ->
  (won_cpu i allocations == 0 /\ won_memory i allocations == 0)
  \/ exists req price,
       In (req, i, price) allocations
       /\ won_cpu i allocations == cpu (task req)
       /\ won_memory i allocations == memory (task req).
Proof.
  induction allocations as [|[[req w] price] l IH]; cbn [wins List.filter fst snd];
    [left; split; reflexivity|].
  cbn [won_cpu won_memory]. destruct (Nat.eqb_spec w i) as [->|Hne].
  - cbn [length]. intros Hlen. right. exists req, price.
    destruct (won_none i l) as [Hc Hm].
    { apply length_zero_iff_nil. fold (wins i l) in Hlen. lia. }
    rewrite Hc, Hm. split; [now left|]. split; ring.
  - intros Hlen. destruct (IH Hlen) as [[Hc Hm]|(r & pr & Hin & Hc & Hm)].
    + left. rewrite Hc, Hm. split; ring.
    + right. exists r, pr. split; [now right|]. rewrite Hc, Hm. split; ring.
Qed.

(** X25: a round overdraws a provider only by letting it win several
    requests of its batch.  If a provider has no negative availability
    before a round and a negative one after it, then among the allocations
    that [Auctioneer.run] returned on the requests that [collect_requests]
    built in this very round, at least two went to that provider: each
    single request it bid on would have fitted. *)
Theorem overdrawn_only_by_several_wins (exp : Q -> Q)
    (sys sys' : EdgeComputingSystem.t) (draw : nat -> IoTTask) (m : metrics)
    (i : nat) (p p' : EdgeNode.t) :
  round exp sys draw = Ret (sys', m) ->
  nodes sys !! i = Some p -> nodes sys' !! i = Some p' ->
  0 <= r_cpu (EdgeNode.available p) -> 0 <= r_memory (EdgeNode.available p) ->
  r_cpu (EdgeNode.available p') < 0 \/ r_memory (EdgeNode.available p') < 0 ->
  exists requests allocations rejections,
    round_batch exp sys draw sys' requests allocations rejections
    /\ (2 <= length (wins i allocations))%nat.
Proof.
  intros Hround Hp Hp' Hcpu Hmem Hover. apply round_stages in Hround.
  destruct Hround as (requests & allocations & rejections & st & Hcollect & _ & Hrun
                      & Happ & -> & _).
  exists requests, allocations, rejections.
  split; [split; [exact Hcollect|]; split; [exact Hrun|]; exists st; now split|].
  destruct (applied_nodes _ _ _ i p Happ Hp) as (p'' & Hp'' & _ & Hc & Hm).
  cbn [nodes] in Hp'. rewrite Hp' in Hp''. injection Hp'' as <-.
  destruct (le_lt_dec 2 (length (wins i allocations))) as [Hle|Hlt]; [exact Hle|].
  exfalso. destruct (won_single i allocations) as [[Hc0 Hm0]|(req & price & Hin & Hc1 & Hm1)];
    [lia | |].
  - rewrite Hc0 in Hc. rewrite Hm0 in Hm. destruct Hover; lra.
  - apply run_inv in Hrun. destruct Hrun as [-> _].
    apply in_flat_map in Hin. destruct Hin as (r & _ & Hin).
    apply allocation_of_inv in Hin. destruct Hin as (w & pr & [= <- <- <-] & Hclear).
    pose proof (bids_from_NoDup req (network sys) (nodes sys) 0) as Hnd.
    destruct (clearing_spec _ _ _ Hnd Hclear) as (c & Hwin & _).
    apply In_bids in Hwin. destruct Hwin as (p0 & Hp0 & Hcost).
    rewrite Hp in Hp0. injection Hp0 as <-.
    destruct (bid_means_feasible p req (network sys) c Hcost) as (Hfc & Hfm & _).
    rewrite Hc1 in Hc. rewrite Hm1 in Hm. destruct Hover; lra.
Qed.

Lemma overdrawn_only_by_several_wins_witness :
  exists sys' requests allocations rejections,
    round_batch Scenario.exp2 Scenario.crowded Scenario.camera_task sys'
      requests allocations rejections
    /\ (2 <= length (wins 0 allocations))%nat.
Proof.
  assert (H : exists sys' m p',
            round Scenario.exp2 Scenario.crowded Scenario.camera_task = Ret (sys', m)
            /\ nodes sys' !! 0%nat = Some p'
            /\ r_cpu (EdgeNode.available p') < 0) by (vm_compute; eauto 10).
  destruct H as (sys' & m & p' & H & Hp' & Hneg). exists sys'.
  apply (overdrawn_only_by_several_wins Scenario.exp2 Scenario.crowded sys'
           Scenario.camera_task m 0%nat (EdgeNode.init 0 20 32) p' H eq_refl Hp').
  - discriminate.
  - discriminate.
  - left. exact Hneg.
Defined.

End Overdraft.
